(** * Whitecore client (server.js): a shallow embedding of the Express app,
    its SQLite tables, its upload handlers and its Telegram bot.

    A JS string is modelled by the Rocq byte string of its UTF-8 encoding.
    The JS string primitives the server uses ([toLowerCase], [trim], [\s],
    [length], the email regular expression, [encodeURIComponent],
    [decodeURIComponent]) are written out over the decoded code points, with
    the Unicode tables they need; Node's POSIX [path] functions and the
    static-file middleware ([serve-static]/[send]) are written out below. *)

From Stdlib Require Import String Ascii List Bool Arith Lia ZArith.
Import ListNotations.
Open Scope string_scope.
Open Scope nat_scope.
Infix "==" := String.eqb (at level 70, no associativity).

(** ** UTF-8 *)

(** A decoded string is a list of code points; a byte that starts no
    well-formed sequence is kept as [Raw] (a string the server gets from
    Node is always well-formed, [Raw] only keeps the functions total). The
    decoder accepts encoded surrogates, as a JS string may hold them. *)
Module Utf8.
Local Open Scope Z_scope.

Inductive uchar := Cp (c : Z) | Raw (b : ascii).

Definition bz (b : ascii) : Z := Z.of_nat (nat_of_ascii b).
Definition byte (z : Z) : ascii := ascii_of_nat (Z.to_nat z).
Definition in_range (lo hi : Z) (b : ascii) : bool := (lo <=? bz b) && (bz b <=? hi).
Definition is_cont (b : ascii) : bool := in_range 0x80 0xBF b.
Definition cv (b : ascii) : Z := bz b - 0x80.

(** A lead byte [b0] (at least [0x80]) and the bytes after it: the code
    point of the shortest-form sequence it starts and the rest. *)
Definition lead_ok (b0 : ascii) (l : list ascii) : option (Z * list ascii) :=
  let z := bz b0 in
  if in_range 0xC2 0xDF b0 then
    match l with
    | b1 :: r => if is_cont b1 then Some ((z - 0xC0) * 64 + cv b1, r) else None
    | _ => None
    end
  else if in_range 0xE0 0xEF b0 then
    match l with
    | b1 :: b2 :: r =>
        if in_range (if z =? 0xE0 then 0xA0 else 0x80) 0xBF b1 && is_cont b2
        then Some (((z - 0xE0) * 64 + cv b1) * 64 + cv b2, r) else None
    | _ => None
    end
  else if in_range 0xF0 0xF4 b0 then
    match l with
    | b1 :: b2 :: b3 :: r =>
        if in_range (if z =? 0xF0 then 0x90 else 0x80) (if z =? 0xF4 then 0x8F else 0xBF) b1
           && is_cont b2 && is_cont b3
        then Some ((((z - 0xF0) * 64 + cv b1) * 64 + cv b2) * 64 + cv b3, r) else None
    | _ => None
    end
  else None.

(** Decoding; [n] bounds the number of steps, [length l] suffices. *)
Fixpoint decode_fuel (n : nat) (l : list ascii) : list uchar :=
  match n with
  | O => []
  | S n' =>
      match l with
      | [] => []
      | b :: l' =>
          if bz b <? 0x80 then Cp (bz b) :: decode_fuel n' l'
          else match lead_ok b l' with
               | Some (c, r) => Cp c :: decode_fuel n' r
               | None => Raw b :: decode_fuel n' l'
               end
      end
  end.

Definition decode_l (l : list ascii) : list uchar := decode_fuel (List.length l) l.
Definition decode (s : string) : list uchar := decode_l (list_ascii_of_string s).

(** The UTF-8 encoding of a code point. *)
Definition enc_cp (c : Z) : list ascii :=
  if c <? 0x80 then [byte c]
  else if c <? 0x800 then [byte (0xC0 + c / 64); byte (0x80 + c mod 64)]
  else if c <? 0x10000 then
    [byte (0xE0 + c / 4096); byte (0x80 + (c / 64) mod 64); byte (0x80 + c mod 64)]
  else [byte (0xF0 + c / 262144); byte (0x80 + (c / 4096) mod 64);
        byte (0x80 + (c / 64) mod 64); byte (0x80 + c mod 64)].

Definition enc_u (u : uchar) : list ascii :=
  match u with Cp c => enc_cp c | Raw b => [b] end.

Definition encode (us : list uchar) : string := string_of_list_ascii (flat_map enc_u us).

End Utf8.

(** ** Unicode tables used by [toLowerCase] *)

(** [lower_ranges]: the one-code-point lowercase mappings, as runs
    [(lo, hi, step, delta)]: [c] in [lo..hi] with [c - lo] a multiple of
    [step] lowercases to [c + delta] (U+0130, whose lowercase has two code
    points, is handled apart). [ignorable_ranges]: the Case_Ignorable code
    points; [cased_ranges]: the Cased code points that are not
    Case_Ignorable. *)
Module Uni.
Local Open Scope Z_scope.
Definition lower_ranges : list (Z * Z * Z * Z) := [
  (0x41, 0x5A, 1, 32); (0xC0, 0xD6, 1, 32); (0xD8, 0xDE, 1, 32);
  (0x100, 0x12E, 2, 1); (0x132, 0x136, 2, 1); (0x139, 0x147, 2, 1);
  (0x14A, 0x176, 2, 1); (0x178, 0x178, 1, -121); (0x179, 0x17D, 2, 1);
  (0x181, 0x181, 1, 210); (0x182, 0x184, 2, 1); (0x186, 0x186, 1, 206);
  (0x187, 0x187, 1, 1); (0x189, 0x18A, 1, 205); (0x18B, 0x18B, 1, 1);
  (0x18E, 0x18E, 1, 79); (0x18F, 0x18F, 1, 202); (0x190, 0x190, 1, 203);
  (0x191, 0x191, 1, 1); (0x193, 0x193, 1, 205); (0x194, 0x194, 1, 207);
  (0x196, 0x196, 1, 211); (0x197, 0x197, 1, 209); (0x198, 0x198, 1, 1);
  (0x19C, 0x19C, 1, 211); (0x19D, 0x19D, 1, 213); (0x19F, 0x19F, 1, 214);
  (0x1A0, 0x1A4, 2, 1); (0x1A6, 0x1A6, 1, 218); (0x1A7, 0x1A7, 1, 1);
  (0x1A9, 0x1A9, 1, 218); (0x1AC, 0x1AC, 1, 1); (0x1AE, 0x1AE, 1, 218);
  (0x1AF, 0x1AF, 1, 1); (0x1B1, 0x1B2, 1, 217); (0x1B3, 0x1B5, 2, 1);
  (0x1B7, 0x1B7, 1, 219); (0x1B8, 0x1B8, 1, 1); (0x1BC, 0x1BC, 1, 1);
  (0x1C4, 0x1C4, 1, 2); (0x1C5, 0x1C5, 1, 1); (0x1C7, 0x1C7, 1, 2);
  (0x1C8, 0x1C8, 1, 1); (0x1CA, 0x1CA, 1, 2); (0x1CB, 0x1DB, 2, 1);
  (0x1DE, 0x1EE, 2, 1); (0x1F1, 0x1F1, 1, 2); (0x1F2, 0x1F4, 2, 1);
  (0x1F6, 0x1F6, 1, -97); (0x1F7, 0x1F7, 1, -56); (0x1F8, 0x21E, 2, 1);
  (0x220, 0x220, 1, -130); (0x222, 0x232, 2, 1); (0x23A, 0x23A, 1, 10795);
  (0x23B, 0x23B, 1, 1); (0x23D, 0x23D, 1, -163); (0x23E, 0x23E, 1, 10792);
  (0x241, 0x241, 1, 1); (0x243, 0x243, 1, -195); (0x244, 0x244, 1, 69);
  (0x245, 0x245, 1, 71); (0x246, 0x24E, 2, 1); (0x370, 0x372, 2, 1);
  (0x376, 0x376, 1, 1); (0x37F, 0x37F, 1, 116); (0x386, 0x386, 1, 38);
  (0x388, 0x38A, 1, 37); (0x38C, 0x38C, 1, 64); (0x38E, 0x38F, 1, 63);
  (0x391, 0x3A1, 1, 32); (0x3A3, 0x3AB, 1, 32); (0x3CF, 0x3CF, 1, 8);
  (0x3D8, 0x3EE, 2, 1); (0x3F4, 0x3F4, 1, -60); (0x3F7, 0x3F7, 1, 1);
  (0x3F9, 0x3F9, 1, -7); (0x3FA, 0x3FA, 1, 1); (0x3FD, 0x3FF, 1, -130);
  (0x400, 0x40F, 1, 80); (0x410, 0x42F, 1, 32); (0x460, 0x480, 2, 1);
  (0x48A, 0x4BE, 2, 1); (0x4C0, 0x4C0, 1, 15); (0x4C1, 0x4CD, 2, 1);
  (0x4D0, 0x52E, 2, 1); (0x531, 0x556, 1, 48); (0x10A0, 0x10C5, 1, 7264);
  (0x10C7, 0x10C7, 1, 7264); (0x10CD, 0x10CD, 1, 7264); (0x13A0, 0x13EF, 1, 38864);
  (0x13F0, 0x13F5, 1, 8); (0x1C90, 0x1CBA, 1, -3008); (0x1CBD, 0x1CBF, 1, -3008);
  (0x1E00, 0x1E94, 2, 1); (0x1E9E, 0x1E9E, 1, -7615); (0x1EA0, 0x1EFE, 2, 1);
  (0x1F08, 0x1F0F, 1, -8); (0x1F18, 0x1F1D, 1, -8); (0x1F28, 0x1F2F, 1, -8);
  (0x1F38, 0x1F3F, 1, -8); (0x1F48, 0x1F4D, 1, -8); (0x1F59, 0x1F5F, 2, -8);
  (0x1F68, 0x1F6F, 1, -8); (0x1F88, 0x1F8F, 1, -8); (0x1F98, 0x1F9F, 1, -8);
  (0x1FA8, 0x1FAF, 1, -8); (0x1FB8, 0x1FB9, 1, -8); (0x1FBA, 0x1FBB, 1, -74);
  (0x1FBC, 0x1FBC, 1, -9); (0x1FC8, 0x1FCB, 1, -86); (0x1FCC, 0x1FCC, 1, -9);
  (0x1FD8, 0x1FD9, 1, -8); (0x1FDA, 0x1FDB, 1, -100); (0x1FE8, 0x1FE9, 1, -8);
  (0x1FEA, 0x1FEB, 1, -112); (0x1FEC, 0x1FEC, 1, -7); (0x1FF8, 0x1FF9, 1, -128);
  (0x1FFA, 0x1FFB, 1, -126); (0x1FFC, 0x1FFC, 1, -9); (0x2126, 0x2126, 1, -7517);
  (0x212A, 0x212A, 1, -8383); (0x212B, 0x212B, 1, -8262); (0x2132, 0x2132, 1, 28);
  (0x2160, 0x216F, 1, 16); (0x2183, 0x2183, 1, 1); (0x24B6, 0x24CF, 1, 26);
  (0x2C00, 0x2C2F, 1, 48); (0x2C60, 0x2C60, 1, 1); (0x2C62, 0x2C62, 1, -10743);
  (0x2C63, 0x2C63, 1, -3814); (0x2C64, 0x2C64, 1, -10727); (0x2C67, 0x2C6B, 2, 1);
  (0x2C6D, 0x2C6D, 1, -10780); (0x2C6E, 0x2C6E, 1, -10749); (0x2C6F, 0x2C6F, 1, -10783);
  (0x2C70, 0x2C70, 1, -10782); (0x2C72, 0x2C72, 1, 1); (0x2C75, 0x2C75, 1, 1);
  (0x2C7E, 0x2C7F, 1, -10815); (0x2C80, 0x2CE2, 2, 1); (0x2CEB, 0x2CED, 2, 1);
  (0x2CF2, 0x2CF2, 1, 1); (0xA640, 0xA66C, 2, 1); (0xA680, 0xA69A, 2, 1);
  (0xA722, 0xA72E, 2, 1); (0xA732, 0xA76E, 2, 1); (0xA779, 0xA77B, 2, 1);
  (0xA77D, 0xA77D, 1, -35332); (0xA77E, 0xA786, 2, 1); (0xA78B, 0xA78B, 1, 1);
  (0xA78D, 0xA78D, 1, -42280); (0xA790, 0xA792, 2, 1); (0xA796, 0xA7A8, 2, 1);
  (0xA7AA, 0xA7AA, 1, -42308); (0xA7AB, 0xA7AB, 1, -42319); (0xA7AC, 0xA7AC, 1, -42315);
  (0xA7AD, 0xA7AD, 1, -42305); (0xA7AE, 0xA7AE, 1, -42308); (0xA7B0, 0xA7B0, 1, -42258);
  (0xA7B1, 0xA7B1, 1, -42282); (0xA7B2, 0xA7B2, 1, -42261); (0xA7B3, 0xA7B3, 1, 928);
  (0xA7B4, 0xA7C2, 2, 1); (0xA7C4, 0xA7C4, 1, -48); (0xA7C5, 0xA7C5, 1, -42307);
  (0xA7C6, 0xA7C6, 1, -35384); (0xA7C7, 0xA7C9, 2, 1); (0xA7D0, 0xA7D0, 1, 1);
  (0xA7D6, 0xA7D8, 2, 1); (0xA7F5, 0xA7F5, 1, 1); (0xFF21, 0xFF3A, 1, 32);
  (0x10400, 0x10427, 1, 40); (0x104B0, 0x104D3, 1, 40); (0x10570, 0x1057A, 1, 39);
  (0x1057C, 0x1058A, 1, 39); (0x1058C, 0x10592, 1, 39); (0x10594, 0x10595, 1, 39);
  (0x10C80, 0x10CB2, 1, 64); (0x118A0, 0x118BF, 1, 32); (0x16E40, 0x16E5F, 1, 32);
  (0x1E900, 0x1E921, 1, 34)
].

Definition ignorable_ranges : list (Z * Z) := [
  (0x27, 0x27); (0x2E, 0x2E); (0x3A, 0x3A); (0x5E, 0x5E); (0x60, 0x60);
  (0xA8, 0xA8); (0xAD, 0xAD); (0xAF, 0xAF); (0xB4, 0xB4); (0xB7, 0xB8);
  (0x2B0, 0x36F); (0x374, 0x375); (0x37A, 0x37A); (0x384, 0x385); (0x387, 0x387);
  (0x483, 0x489); (0x559, 0x559); (0x55F, 0x55F); (0x591, 0x5BD); (0x5BF, 0x5BF);
  (0x5C1, 0x5C2); (0x5C4, 0x5C5); (0x5C7, 0x5C7); (0x5F4, 0x5F4); (0x600, 0x605);
  (0x610, 0x61A); (0x61C, 0x61C); (0x640, 0x640); (0x64B, 0x65F); (0x670, 0x670);
  (0x6D6, 0x6DD); (0x6DF, 0x6E8); (0x6EA, 0x6ED); (0x70F, 0x70F); (0x711, 0x711);
  (0x730, 0x74A); (0x7A6, 0x7B0); (0x7EB, 0x7F5); (0x7FA, 0x7FA); (0x7FD, 0x7FD);
  (0x816, 0x82D); (0x859, 0x85B); (0x888, 0x888); (0x890, 0x891); (0x898, 0x89F);
  (0x8C9, 0x902); (0x93A, 0x93A); (0x93C, 0x93C); (0x941, 0x948); (0x94D, 0x94D);
  (0x951, 0x957); (0x962, 0x963); (0x971, 0x971); (0x981, 0x981); (0x9BC, 0x9BC);
  (0x9C1, 0x9C4); (0x9CD, 0x9CD); (0x9E2, 0x9E3); (0x9FE, 0x9FE); (0xA01, 0xA02);
  (0xA3C, 0xA3C); (0xA41, 0xA42); (0xA47, 0xA48); (0xA4B, 0xA4D); (0xA51, 0xA51);
  (0xA70, 0xA71); (0xA75, 0xA75); (0xA81, 0xA82); (0xABC, 0xABC); (0xAC1, 0xAC5);
  (0xAC7, 0xAC8); (0xACD, 0xACD); (0xAE2, 0xAE3); (0xAFA, 0xAFF); (0xB01, 0xB01);
  (0xB3C, 0xB3C); (0xB3F, 0xB3F); (0xB41, 0xB44); (0xB4D, 0xB4D); (0xB55, 0xB56);
  (0xB62, 0xB63); (0xB82, 0xB82); (0xBC0, 0xBC0); (0xBCD, 0xBCD); (0xC00, 0xC00);
  (0xC04, 0xC04); (0xC3C, 0xC3C); (0xC3E, 0xC40); (0xC46, 0xC48); (0xC4A, 0xC4D);
  (0xC55, 0xC56); (0xC62, 0xC63); (0xC81, 0xC81); (0xCBC, 0xCBC); (0xCBF, 0xCBF);
  (0xCC6, 0xCC6); (0xCCC, 0xCCD); (0xCE2, 0xCE3); (0xD00, 0xD01); (0xD3B, 0xD3C);
  (0xD41, 0xD44); (0xD4D, 0xD4D); (0xD62, 0xD63); (0xD81, 0xD81); (0xDCA, 0xDCA);
  (0xDD2, 0xDD4); (0xDD6, 0xDD6); (0xE31, 0xE31); (0xE34, 0xE3A); (0xE46, 0xE4E);
  (0xEB1, 0xEB1); (0xEB4, 0xEBC); (0xEC6, 0xEC6); (0xEC8, 0xECD); (0xF18, 0xF19);
  (0xF35, 0xF35); (0xF37, 0xF37); (0xF39, 0xF39); (0xF71, 0xF7E); (0xF80, 0xF84);
  (0xF86, 0xF87); (0xF8D, 0xF97); (0xF99, 0xFBC); (0xFC6, 0xFC6); (0x102D, 0x1030);
  (0x1032, 0x1037); (0x1039, 0x103A); (0x103D, 0x103E); (0x1058, 0x1059); (0x105E, 0x1060);
  (0x1071, 0x1074); (0x1082, 0x1082); (0x1085, 0x1086); (0x108D, 0x108D); (0x109D, 0x109D);
  (0x10FC, 0x10FC); (0x135D, 0x135F); (0x1712, 0x1714); (0x1732, 0x1733); (0x1752, 0x1753);
  (0x1772, 0x1773); (0x17B4, 0x17B5); (0x17B7, 0x17BD); (0x17C6, 0x17C6); (0x17C9, 0x17D3);
  (0x17D7, 0x17D7); (0x17DD, 0x17DD); (0x180B, 0x180F); (0x1843, 0x1843); (0x1885, 0x1886);
  (0x18A9, 0x18A9); (0x1920, 0x1922); (0x1927, 0x1928); (0x1932, 0x1932); (0x1939, 0x193B);
  (0x1A17, 0x1A18); (0x1A1B, 0x1A1B); (0x1A56, 0x1A56); (0x1A58, 0x1A5E); (0x1A60, 0x1A60);
  (0x1A62, 0x1A62); (0x1A65, 0x1A6C); (0x1A73, 0x1A7C); (0x1A7F, 0x1A7F); (0x1AA7, 0x1AA7);
  (0x1AB0, 0x1ACE); (0x1B00, 0x1B03); (0x1B34, 0x1B34); (0x1B36, 0x1B3A); (0x1B3C, 0x1B3C);
  (0x1B42, 0x1B42); (0x1B6B, 0x1B73); (0x1B80, 0x1B81); (0x1BA2, 0x1BA5); (0x1BA8, 0x1BA9);
  (0x1BAB, 0x1BAD); (0x1BE6, 0x1BE6); (0x1BE8, 0x1BE9); (0x1BED, 0x1BED); (0x1BEF, 0x1BF1);
  (0x1C2C, 0x1C33); (0x1C36, 0x1C37); (0x1C78, 0x1C7D); (0x1CD0, 0x1CD2); (0x1CD4, 0x1CE0);
  (0x1CE2, 0x1CE8); (0x1CED, 0x1CED); (0x1CF4, 0x1CF4); (0x1CF8, 0x1CF9); (0x1D2C, 0x1D6A);
  (0x1D78, 0x1D78); (0x1D9B, 0x1DFF); (0x1FBD, 0x1FBD); (0x1FBF, 0x1FC1); (0x1FCD, 0x1FCF);
  (0x1FDD, 0x1FDF); (0x1FED, 0x1FEF); (0x1FFD, 0x1FFE); (0x200B, 0x200F); (0x2018, 0x2019);
  (0x2024, 0x2024); (0x2027, 0x2027); (0x202A, 0x202E); (0x2060, 0x2064); (0x2066, 0x206F);
  (0x2071, 0x2071); (0x207F, 0x207F); (0x2090, 0x209C); (0x20D0, 0x20F0); (0x2C7C, 0x2C7D);
  (0x2CEF, 0x2CF1); (0x2D6F, 0x2D6F); (0x2D7F, 0x2D7F); (0x2DE0, 0x2DFF); (0x2E2F, 0x2E2F);
  (0x3005, 0x3005); (0x302A, 0x302D); (0x3031, 0x3035); (0x303B, 0x303B); (0x3099, 0x309E);
  (0x30FC, 0x30FE); (0xA015, 0xA015); (0xA4F8, 0xA4FD); (0xA60C, 0xA60C); (0xA66F, 0xA672);
  (0xA674, 0xA67D); (0xA67F, 0xA67F); (0xA69C, 0xA69F); (0xA6F0, 0xA6F1); (0xA700, 0xA721);
  (0xA770, 0xA770); (0xA788, 0xA78A); (0xA7F2, 0xA7F4); (0xA7F8, 0xA7F9); (0xA802, 0xA802);
  (0xA806, 0xA806); (0xA80B, 0xA80B); (0xA825, 0xA826); (0xA82C, 0xA82C); (0xA8C4, 0xA8C5);
  (0xA8E0, 0xA8F1); (0xA8FF, 0xA8FF); (0xA926, 0xA92D); (0xA947, 0xA951); (0xA980, 0xA982);
  (0xA9B3, 0xA9B3); (0xA9B6, 0xA9B9); (0xA9BC, 0xA9BD); (0xA9CF, 0xA9CF); (0xA9E5, 0xA9E6);
  (0xAA29, 0xAA2E); (0xAA31, 0xAA32); (0xAA35, 0xAA36); (0xAA43, 0xAA43); (0xAA4C, 0xAA4C);
  (0xAA70, 0xAA70); (0xAA7C, 0xAA7C); (0xAAB0, 0xAAB0); (0xAAB2, 0xAAB4); (0xAAB7, 0xAAB8);
  (0xAABE, 0xAABF); (0xAAC1, 0xAAC1); (0xAADD, 0xAADD); (0xAAEC, 0xAAED); (0xAAF3, 0xAAF4);
  (0xAAF6, 0xAAF6); (0xAB5B, 0xAB5F); (0xAB69, 0xAB6B); (0xABE5, 0xABE5); (0xABE8, 0xABE8);
  (0xABED, 0xABED); (0xFB1E, 0xFB1E); (0xFBB2, 0xFBC2); (0xFE00, 0xFE0F); (0xFE13, 0xFE13);
  (0xFE20, 0xFE2F); (0xFE52, 0xFE52); (0xFE55, 0xFE55); (0xFEFF, 0xFEFF); (0xFF07, 0xFF07);
  (0xFF0E, 0xFF0E); (0xFF1A, 0xFF1A); (0xFF3E, 0xFF3E); (0xFF40, 0xFF40); (0xFF70, 0xFF70);
  (0xFF9E, 0xFF9F); (0xFFE3, 0xFFE3); (0xFFF9, 0xFFFB); (0x101FD, 0x101FD); (0x102E0, 0x102E0);
  (0x10376, 0x1037A); (0x10780, 0x10785); (0x10787, 0x107B0); (0x107B2, 0x107BA); (0x10A01, 0x10A03);
  (0x10A05, 0x10A06); (0x10A0C, 0x10A0F); (0x10A38, 0x10A3A); (0x10A3F, 0x10A3F); (0x10AE5, 0x10AE6);
  (0x10D24, 0x10D27); (0x10EAB, 0x10EAC); (0x10F46, 0x10F50); (0x10F82, 0x10F85); (0x11001, 0x11001);
  (0x11038, 0x11046); (0x11070, 0x11070); (0x11073, 0x11074); (0x1107F, 0x11081); (0x110B3, 0x110B6);
  (0x110B9, 0x110BA); (0x110BD, 0x110BD); (0x110C2, 0x110C2); (0x110CD, 0x110CD); (0x11100, 0x11102);
  (0x11127, 0x1112B); (0x1112D, 0x11134); (0x11173, 0x11173); (0x11180, 0x11181); (0x111B6, 0x111BE);
  (0x111C9, 0x111CC); (0x111CF, 0x111CF); (0x1122F, 0x11231); (0x11234, 0x11234); (0x11236, 0x11237);
  (0x1123E, 0x1123E); (0x112DF, 0x112DF); (0x112E3, 0x112EA); (0x11300, 0x11301); (0x1133B, 0x1133C);
  (0x11340, 0x11340); (0x11366, 0x1136C); (0x11370, 0x11374); (0x11438, 0x1143F); (0x11442, 0x11444);
  (0x11446, 0x11446); (0x1145E, 0x1145E); (0x114B3, 0x114B8); (0x114BA, 0x114BA); (0x114BF, 0x114C0);
  (0x114C2, 0x114C3); (0x115B2, 0x115B5); (0x115BC, 0x115BD); (0x115BF, 0x115C0); (0x115DC, 0x115DD);
  (0x11633, 0x1163A); (0x1163D, 0x1163D); (0x1163F, 0x11640); (0x116AB, 0x116AB); (0x116AD, 0x116AD);
  (0x116B0, 0x116B5); (0x116B7, 0x116B7); (0x1171D, 0x1171F); (0x11722, 0x11725); (0x11727, 0x1172B);
  (0x1182F, 0x11837); (0x11839, 0x1183A); (0x1193B, 0x1193C); (0x1193E, 0x1193E); (0x11943, 0x11943);
  (0x119D4, 0x119D7); (0x119DA, 0x119DB); (0x119E0, 0x119E0); (0x11A01, 0x11A0A); (0x11A33, 0x11A38);
  (0x11A3B, 0x11A3E); (0x11A47, 0x11A47); (0x11A51, 0x11A56); (0x11A59, 0x11A5B); (0x11A8A, 0x11A96);
  (0x11A98, 0x11A99); (0x11C30, 0x11C36); (0x11C38, 0x11C3D); (0x11C3F, 0x11C3F); (0x11C92, 0x11CA7);
  (0x11CAA, 0x11CB0); (0x11CB2, 0x11CB3); (0x11CB5, 0x11CB6); (0x11D31, 0x11D36); (0x11D3A, 0x11D3A);
  (0x11D3C, 0x11D3D); (0x11D3F, 0x11D45); (0x11D47, 0x11D47); (0x11D90, 0x11D91); (0x11D95, 0x11D95);
  (0x11D97, 0x11D97); (0x11EF3, 0x11EF4); (0x13430, 0x13438); (0x16AF0, 0x16AF4); (0x16B30, 0x16B36);
  (0x16B40, 0x16B43); (0x16F4F, 0x16F4F); (0x16F8F, 0x16F9F); (0x16FE0, 0x16FE1); (0x16FE3, 0x16FE4);
  (0x1AFF0, 0x1AFF3); (0x1AFF5, 0x1AFFB); (0x1AFFD, 0x1AFFE); (0x1BC9D, 0x1BC9E); (0x1BCA0, 0x1BCA3);
  (0x1CF00, 0x1CF2D); (0x1CF30, 0x1CF46); (0x1D167, 0x1D169); (0x1D173, 0x1D182); (0x1D185, 0x1D18B);
  (0x1D1AA, 0x1D1AD); (0x1D242, 0x1D244); (0x1DA00, 0x1DA36); (0x1DA3B, 0x1DA6C); (0x1DA75, 0x1DA75);
  (0x1DA84, 0x1DA84); (0x1DA9B, 0x1DA9F); (0x1DAA1, 0x1DAAF); (0x1E000, 0x1E006); (0x1E008, 0x1E018);
  (0x1E01B, 0x1E021); (0x1E023, 0x1E024); (0x1E026, 0x1E02A); (0x1E130, 0x1E13D); (0x1E2AE, 0x1E2AE);
  (0x1E2EC, 0x1E2EF); (0x1E8D0, 0x1E8D6); (0x1E944, 0x1E94B); (0x1F3FB, 0x1F3FF); (0xE0001, 0xE0001);
  (0xE0020, 0xE007F); (0xE0100, 0xE01EF)
].

Definition cased_ranges : list (Z * Z) := [
  (0x41, 0x5A); (0x61, 0x7A); (0xAA, 0xAA); (0xB5, 0xB5); (0xBA, 0xBA);
  (0xC0, 0xD6); (0xD8, 0xF6); (0xF8, 0x1BA); (0x1BC, 0x1BF); (0x1C4, 0x293);
  (0x295, 0x2AF); (0x370, 0x373); (0x376, 0x377); (0x37B, 0x37D); (0x37F, 0x37F);
  (0x386, 0x386); (0x388, 0x38A); (0x38C, 0x38C); (0x38E, 0x3A1); (0x3A3, 0x3F5);
  (0x3F7, 0x481); (0x48A, 0x52F); (0x531, 0x556); (0x560, 0x588); (0x10A0, 0x10C5);
  (0x10C7, 0x10C7); (0x10CD, 0x10CD); (0x10D0, 0x10FA); (0x10FD, 0x10FF); (0x13A0, 0x13F5);
  (0x13F8, 0x13FD); (0x1C80, 0x1C88); (0x1C90, 0x1CBA); (0x1CBD, 0x1CBF); (0x1D00, 0x1D2B);
  (0x1D6B, 0x1D77); (0x1D79, 0x1D9A); (0x1E00, 0x1F15); (0x1F18, 0x1F1D); (0x1F20, 0x1F45);
  (0x1F48, 0x1F4D); (0x1F50, 0x1F57); (0x1F59, 0x1F59); (0x1F5B, 0x1F5B); (0x1F5D, 0x1F5D);
  (0x1F5F, 0x1F7D); (0x1F80, 0x1FB4); (0x1FB6, 0x1FBC); (0x1FBE, 0x1FBE); (0x1FC2, 0x1FC4);
  (0x1FC6, 0x1FCC); (0x1FD0, 0x1FD3); (0x1FD6, 0x1FDB); (0x1FE0, 0x1FEC); (0x1FF2, 0x1FF4);
  (0x1FF6, 0x1FFC); (0x2102, 0x2102); (0x2107, 0x2107); (0x210A, 0x2113); (0x2115, 0x2115);
  (0x2119, 0x211D); (0x2124, 0x2124); (0x2126, 0x2126); (0x2128, 0x2128); (0x212A, 0x212D);
  (0x212F, 0x2134); (0x2139, 0x2139); (0x213C, 0x213F); (0x2145, 0x2149); (0x214E, 0x214E);
  (0x2160, 0x217F); (0x2183, 0x2184); (0x24B6, 0x24E9); (0x2C00, 0x2C7B); (0x2C7E, 0x2CE4);
  (0x2CEB, 0x2CEE); (0x2CF2, 0x2CF3); (0x2D00, 0x2D25); (0x2D27, 0x2D27); (0x2D2D, 0x2D2D);
  (0xA640, 0xA66D); (0xA680, 0xA69B); (0xA722, 0xA76F); (0xA771, 0xA787); (0xA78B, 0xA78E);
  (0xA790, 0xA7CA); (0xA7D0, 0xA7D1); (0xA7D3, 0xA7D3); (0xA7D5, 0xA7D9); (0xA7F5, 0xA7F6);
  (0xA7FA, 0xA7FA); (0xAB30, 0xAB5A); (0xAB60, 0xAB68); (0xAB70, 0xABBF); (0xFB00, 0xFB06);
  (0xFB13, 0xFB17); (0xFF21, 0xFF3A); (0xFF41, 0xFF5A); (0x10400, 0x1044F); (0x104B0, 0x104D3);
  (0x104D8, 0x104FB); (0x10570, 0x1057A); (0x1057C, 0x1058A); (0x1058C, 0x10592); (0x10594, 0x10595);
  (0x10597, 0x105A1); (0x105A3, 0x105B1); (0x105B3, 0x105B9); (0x105BB, 0x105BC); (0x10C80, 0x10CB2);
  (0x10CC0, 0x10CF2); (0x118A0, 0x118DF); (0x16E40, 0x16E7F); (0x1D400, 0x1D454); (0x1D456, 0x1D49C);
  (0x1D49E, 0x1D49F); (0x1D4A2, 0x1D4A2); (0x1D4A5, 0x1D4A6); (0x1D4A9, 0x1D4AC); (0x1D4AE, 0x1D4B9);
  (0x1D4BB, 0x1D4BB); (0x1D4BD, 0x1D4C3); (0x1D4C5, 0x1D505); (0x1D507, 0x1D50A); (0x1D50D, 0x1D514);
  (0x1D516, 0x1D51C); (0x1D51E, 0x1D539); (0x1D53B, 0x1D53E); (0x1D540, 0x1D544); (0x1D546, 0x1D546);
  (0x1D54A, 0x1D550); (0x1D552, 0x1D6A5); (0x1D6A8, 0x1D6C0); (0x1D6C2, 0x1D6DA); (0x1D6DC, 0x1D6FA);
  (0x1D6FC, 0x1D714); (0x1D716, 0x1D734); (0x1D736, 0x1D74E); (0x1D750, 0x1D76E); (0x1D770, 0x1D788);
  (0x1D78A, 0x1D7A8); (0x1D7AA, 0x1D7C2); (0x1D7C4, 0x1D7CB); (0x1DF00, 0x1DF09); (0x1DF0B, 0x1DF1E);
  (0x1E900, 0x1E943); (0x1F130, 0x1F149); (0x1F150, 0x1F169); (0x1F170, 0x1F189)
].
End Uni.

(** ** JS string primitives *)
Module JS.
Import Utf8.

Definition code (c : ascii) : nat := nat_of_ascii c.

Definition is_upper (c : ascii) : bool := (65 <=? code c) && (code c <=? 90).

Section CodePoints.
Local Open Scope Z_scope.

Definition in_ranges (c : Z) (rs : list (Z * Z)) : bool :=
  existsb (fun r => (fst r <=? c) && (c <=? snd r)) rs.

Definition case_ignorable (c : Z) : bool := in_ranges c Uni.ignorable_ranges.
Definition cased (c : Z) : bool := in_ranges c Uni.cased_ranges.

Definition in_entry (c : Z) (e : Z * Z * Z * Z) : bool :=
  let '(lo, hi, step, _) := e in (lo <=? c) && (c <=? hi) && ((c - lo) mod step =? 0).

(** The one-code-point lowercase mapping of [c], if it has one. *)
Definition simple_lower (c : Z) : option Z :=
  match find (in_entry c) Uni.lower_ranges with
  | Some (_, _, _, delta) => Some (c + delta)
  | None => None
  end.

(** The Final_Sigma context: scanning away from the sigma, case-ignorable
    code points are skipped and the first other one must be cased. [us] is
    the text after the sigma, or the text before it in reverse. *)
Fixpoint cased_context (us : list uchar) : bool :=
  match us with
  | [] => false
  | Cp c :: r => if case_ignorable c then cased_context r else cased c
  | Raw _ :: _ => false
  end.

(** The full lowercase mapping of [c] (root locale); [before] and [after]
    are the two halves of the Final_Sigma context. *)
Definition lower_cp (c : Z) (before after : bool) : list Z :=
  if c =? 0x3A3 then [if before && negb after then 0x3C2 else 0x3C3]
  else if c =? 0x130 then [0x69; 0x307]
  else match simple_lower c with Some d => [d] | None => [c] end.

(** [prev] is the text already read, in reverse. *)
Fixpoint lower_units (prev us : list uchar) : list uchar :=
  match us with
  | [] => []
  | Raw b :: r => Raw b :: lower_units (Raw b :: prev) r
  | Cp c :: r =>
      app (map Cp (lower_cp c (cased_context prev) (cased_context r)))
          (lower_units (Cp c :: prev) r)
  end.

(** [String.prototype.toLowerCase] (V8, through ICU's root locale). *)
Definition toLowerCase (s : string) : string := encode (lower_units [] (decode s)).

(** The WhiteSpace and LineTerminator code points: the class [\s], and the
    set [trim] strips. *)
Definition is_ws_cp (c : Z) : bool :=
  existsb (Z.eqb c) [0x9; 0xA; 0xB; 0xC; 0xD; 0x20; 0xA0; 0x1680; 0x2028; 0x2029;
                     0x202F; 0x205F; 0x3000; 0xFEFF]
  || ((0x2000 <=? c) && (c <=? 0x200A)).

Definition is_cp (c : Z) (u : uchar) : bool :=
  match u with Cp d => d =? c | Raw _ => false end.

(** [%XX]: the value of a hex digit. *)
Definition hex_val (c : ascii) : option Z :=
  let n := bz c in
  if (0x30 <=? n) && (n <=? 0x39) then Some (n - 0x30)
  else if (0x41 <=? n) && (n <=? 0x46) then Some (n - 0x37)
  else if (0x61 <=? n) && (n <=? 0x66) then Some (n - 0x57)
  else None.

End CodePoints.

Definition is_ws (u : uchar) : bool :=
  match u with Cp c => is_ws_cp c | Raw _ => false end.

Fixpoint drop_ws (l : list uchar) : list uchar :=
  match l with
  | [] => []
  | u :: l' => if is_ws u then drop_ws l' else l
  end.

(** [String.prototype.trim] *)
Definition trim (s : string) : string :=
  encode (rev (drop_ws (rev (drop_ws (decode s))))).

(** [s.startsWith(p)] *)
Definition startsWith (s p : string) : bool := String.prefix p s.

(** [s.endsWith(p)] *)
Definition endsWith (s p : string) : bool :=
  String.prefix (string_of_list_ascii (rev (list_ascii_of_string p)))
                (string_of_list_ascii (rev (list_ascii_of_string s))).

(** The class [[^@\s]] of the email regular expression. *)
Definition not_at_ws (u : uchar) : bool :=
  negb (is_cp 64 u) && negb (is_ws u).

(** [[^@\s]+] followed by the continuation [k], with the backtracking of
    the regular-expression engine: every split point is tried. *)
Fixpoint plus_class (k : list uchar -> bool) (l : list uchar) : bool :=
  match l with
  | [] => false
  | u :: l' => not_at_ws u && (k l' || plus_class k l')
  end.

(** [/^[^@\s]+@[^@\s]+\.[^@\s]+$/.test(s)]. Without the [u] flag the
    engine reads UTF-16 units, but both halves of a surrogate pair are in
    [[^@\s]] and a split between them is followed by neither [@], [.] nor
    the end: matching code points gives the same answer. *)
Definition emailRegex_test (s : string) : bool :=
  plus_class
    (fun r => match r with
              | u :: r' =>
                  is_cp 64 u
                  && plus_class
                       (fun r2 => match r2 with
                                  | u2 :: r3 =>
                                      is_cp 46 u2
                                      && plus_class (fun r4 => match r4 with
                                                               | [] => true
                                                               | _ => false
                                                               end) r3
                                  | [] => false
                                  end) r'
              | [] => false
              end)
    (decode s).

Definition is_alnum (c : ascii) : bool :=
  ((48 <=? code c) && (code c <=? 57)) || is_upper c
  || ((97 <=? code c) && (code c <=? 122)).

Definition uri_unreserved (c : ascii) : bool :=
  is_alnum c || existsb (Ascii.eqb c) (list_ascii_of_string "-_.!~*'()").

Definition hex_digit (d : nat) : ascii :=
  if d <? 10 then ascii_of_nat (48 + d) else ascii_of_nat (55 + d).

(** [encodeURIComponent]: every byte of the UTF-8 encoding outside the
    unreserved set becomes [%XX]. *)
Fixpoint encodeURIComponent (s : string) : string :=
  match s with
  | EmptyString => EmptyString
  | String c s' =>
      if uri_unreserved c then String c (encodeURIComponent s')
      else String "%" (String (hex_digit (code c / 16))
                        (String (hex_digit (code c mod 16))
                          (encodeURIComponent s')))
  end.

(** The input of [decodeURIComponent] read as literal bytes and [%XX]
    escapes; a [%] not followed by two hex digits is a [URIError]. *)
Inductive tok := Lit (b : ascii) | Esc (b : ascii).

Fixpoint unescape (l : list ascii) : option (list tok) :=
  match l with
  | [] => Some []
  | "%"%char :: r =>
      match r with
      | h1 :: h2 :: r' =>
          match hex_val h1, hex_val h2 with
          | Some a, Some b =>
              option_map (cons (Esc (byte (a * 16 + b)%Z))) (unescape r')
          | _, _ => None
          end
      | _ => None
      end
  | b :: r => option_map (cons (Lit b)) (unescape r)
  end.

Fixpoint esc_prefix (ts : list tok) : list ascii :=
  match ts with
  | Esc b :: r => b :: esc_prefix r
  | _ => []
  end.

(** An escaped byte below [0x80] is its character; one above starts a
    UTF-8 sequence whose continuation bytes must be escaped too, and which
    must be shortest-form and no surrogate, or it is a [URIError]. *)
Fixpoint decode_toks (fuel : nat) (ts : list tok) : option (list ascii) :=
  match fuel with
  | O => Some []
  | S f =>
      match ts with
      | [] => Some []
      | Lit b :: r => option_map (cons b) (decode_toks f r)
      | Esc b :: r =>
          if (bz b <? 0x80)%Z then option_map (cons b) (decode_toks f r)
          else match lead_ok b (esc_prefix r) with
               | Some (cp, _) =>
                   if ((0xD800 <=? cp) && (cp <=? 0xDFFF))%Z then None
                   else option_map (app (enc_cp cp))
                          (decode_toks f (skipn (List.length (enc_cp cp) - 1) r))
               | None => None
               end
      end
  end.

(** [decodeURIComponent]; [None] is a thrown [URIError]. *)
Definition decodeURIComponent (s : string) : option string :=
  match unescape (list_ascii_of_string s) with
  | None => None
  | Some ts => option_map string_of_list_ascii (decode_toks (List.length ts) ts)
  end.

Fixpoint digits (fuel n : nat) (acc : string) : string :=
  match fuel with
  | 0 => acc
  | S f =>
      let acc' := String (ascii_of_nat (48 + n mod 10)) acc in
      if n <? 10 then acc' else digits f (n / 10) acc'
  end.

(** Template-literal interpolation of a non-negative integer. *)
Definition string_of_nat (n : nat) : string := digits (S n) n "".

(** [s.length]: UTF-16 code units, two for a code point above U+FFFF. *)
Definition units (u : uchar) : nat :=
  match u with Cp c => if (c <? 0x10000)%Z then 1 else 2 | Raw _ => 1 end.

Definition length (s : string) : nat := list_sum (map units (decode s)).

End JS.

(** ** Node's [path] module (POSIX) *)
Module Path.

Fixpoint split_on (sep : ascii) (s : string) : list string :=
  match s with
  | EmptyString => [""]
  | String c s' =>
      let rest := split_on sep s' in
      if Ascii.eqb c sep then "" :: rest
      else match rest with
           | p :: ps => String c p :: ps
           | [] => [String c ""]
           end
  end.

(** [normalizeString]: resolves [.] and [..] segments; [acc] is reversed. *)
Fixpoint norm_segs (abs : bool) (acc : list string) (segs : list string)
  : list string :=
  match segs with
  | [] => rev acc
  | seg :: rest =>
      if (seg == "") || (seg == ".") then norm_segs abs acc rest
      else if seg == ".." then
        match acc with
        | x :: acc' =>
            if x == ".." then norm_segs abs (".." :: acc) rest
            else norm_segs abs acc' rest
        | [] => if abs then norm_segs abs [] rest
                else norm_segs abs [".."] rest
        end
      else norm_segs abs (seg :: acc) rest
  end.

Definition isAbsolute (p : string) : bool := String.prefix "/" p.

(** [path.normalize] *)
Definition normalize (p : string) : string :=
  if p == "" then "."
  else
    let abs := isAbsolute p in
    let trailing := JS.endsWith p "/" in
    let s := String.concat "/" (norm_segs abs [] (split_on "/" p)) in
    let s := if (s == "") && negb abs then "." else s in
    let s := if negb (s == "") && trailing then s ++ "/" else s in
    if abs then "/" ++ s else s.

(** [path.join(...parts)] *)
Definition join (parts : list string) : string :=
  match filter (fun p => negb (p == "")) parts with
  | [] => "."
  | ps => normalize (String.concat "/" ps)
  end.

Fixpoint last_nonempty (l : list string) (cur : string) : string :=
  match l with
  | [] => cur
  | x :: l' => last_nonempty l' (if x == "" then cur else x)
  end.

(** [path.basename] *)
Definition basename (p : string) : string := last_nonempty (split_on "/" p) "".

Fixpoint last_dot (i : nat) (l : list ascii) (best : option nat) : option nat :=
  match l with
  | [] => best
  | c :: l' => last_dot (S i) l' (if Ascii.eqb c "." then Some i else best)
  end.

(** [path.extname]: from the last dot of the base name, unless that dot
    starts the base name or the base name is [..]. *)
Definition extname (p : string) : string :=
  let b := basename p in
  if b == ".." then ""
  else match last_dot 0 (list_ascii_of_string b) None with
       | None | Some 0 => ""
       | Some i => substring i (String.length b - i) b
       end.

End Path.

(** The byte string of a list of code points, for the examples. *)
Definition cps (l : list Z) : string := Utf8.encode (map Utf8.Cp l).

Example trim_ex : JS.trim "  Bob	 " = "Bob".
Proof. vm_compute. reflexivity. Qed.
Example trim_ex2 : JS.trim (cps [0xA0; 0x42; 0x6F; 0x62; 0x3000; 0xFEFF]%Z) = "Bob".
Proof. vm_compute. reflexivity. Qed.
Example lower_ex : JS.toLowerCase "AbC9" = "abc9".
Proof. vm_compute. reflexivity. Qed.
(** ['Dave@X.ÍO'.toLowerCase() === 'dave@x.ío'] *)
Example lower_ex2 : JS.toLowerCase (cps [0x44; 0x61; 0x76; 0x65; 0x40; 0x58; 0x2E; 0xCD; 0x4F]%Z)
                    = cps [0x64; 0x61; 0x76; 0x65; 0x40; 0x78; 0x2E; 0xED; 0x6F]%Z.
Proof. vm_compute. reflexivity. Qed.
(** ['Kabcd'.toLowerCase() === 'kabcd'] (KELVIN SIGN) *)
Example lower_ex3 : JS.toLowerCase (cps [0x212A; 0x61; 0x62; 0x63; 0x64]%Z) = "kabcd".
Proof. vm_compute. reflexivity. Qed.
(** ['ΑΣ'] becomes ['ας'], ['ΣΑ'] becomes ['σα'], ['İ'] becomes ['i̇']. *)
Example lower_ex4 :
  map JS.toLowerCase [cps [0x391; 0x3A3]%Z; cps [0x3A3; 0x391]%Z; cps [0x130]%Z]
  = [cps [0x3B1; 0x3C2]%Z; cps [0x3C3; 0x3B1]%Z; cps [0x69; 0x307]%Z].
Proof. vm_compute. reflexivity. Qed.
(** ['ёж'.length === 2], ['😀'.length === 2] *)
Example length_ex : map JS.length ["ab"; cps [0x451; 0x436]%Z; cps [0x1F600]%Z] = [2; 2; 2].
Proof. vm_compute. reflexivity. Qed.
Example email_ex1 : JS.emailRegex_test "a@b.c" = true.
Proof. vm_compute. reflexivity. Qed.
Example email_ex2 : JS.emailRegex_test "a@b.c.d" = true.
Proof. vm_compute. reflexivity. Qed.
Example email_ex3 : JS.emailRegex_test "a@bc" = false.
Proof. vm_compute. reflexivity. Qed.
Example email_ex4 : JS.emailRegex_test "a b@c.d" = false.
Proof. vm_compute. reflexivity. Qed.
Example email_ex5 : JS.emailRegex_test (cps [0x61; 0xA0; 0x62; 0x40; 0x63; 0x2E; 0x64]%Z) = false.
Proof. vm_compute. reflexivity. Qed.
Example encode_ex : JS.encodeURIComponent "/download?x=1" = "%2Fdownload%3Fx%3D1".
Proof. reflexivity. Qed.
Example decode_uri_ex :
  map JS.decodeURIComponent ["a%20b"; "%D1%91"; "%e2%82%ac"; "%"; "%zz"; "%C0%80"; "%ED%A0%80"; "%D1"]
  = [Some "a b"; Some (cps [0x451]%Z); Some (cps [0x20AC]%Z); None; None; None; None; None].
Proof. vm_compute. reflexivity. Qed.
Example join_ex1 : Path.join ["/app"; "downloads/whitecore-1.zip"] = "/app/downloads/whitecore-1.zip".
Proof. reflexivity. Qed.
Example join_ex2 : Path.join ["/app/"; "./a/../b//c/"] = "/app/b/c/".
Proof. reflexivity. Qed.
Example join_ex3 : Path.join ["downloads"; "whitecore-default.zip"] = "downloads/whitecore-default.zip".
Proof. reflexivity. Qed.
Example ext_ex : map Path.extname ["a.zip"; ".zip"; ".."; "..."; "a."; "x/y.tar.gz"; "noext"]
                 = [".zip"; ""; ""; "."; "."; ".gz"; ""].
Proof. reflexivity. Qed.
Example base_ex : Path.basename "/app/downloads/w.zip" = "w.zip".
Proof. reflexivity. Qed.
Example nat_ex : JS.string_of_nat 1700 = "1700".
Proof. reflexivity. Qed.

(** ** Password hashing ([bcryptjs]) *)

(** [bcrypt.hash(pw, 10)] and [bcrypt.compare(pw, hash)]: a salted one-way
    hash is not modelled; every theorem below holds for any instance. *)
Class Bcrypt := {
  bcrypt_hash : string -> string;
  bcrypt_compare : string -> string -> bool
}.

(** ** Tables ([bootstrap]) *)

(** A row of [users]; [email] is NULL for the seeded admin. *)
Record user_row := mkUserRow {
  id : nat;
  username : string;
  email : option string;
  password_hash : string;
  is_admin : bool
}.

(** [settings (key TEXT PRIMARY KEY, value TEXT NOT NULL)], in row order. *)
Definition settings_table := list (string * string).

(** [SELECT value FROM settings WHERE key = ?] *)
Definition select_setting (t : settings_table) (key : string) : option string :=
  match find (fun r => fst r == key) t with
  | Some r => Some (snd r)
  | None => None
  end.

(** [INSERT INTO settings (key, value) VALUES (?, ?)]: [None] is the
    PRIMARY KEY violation, a rejected promise. *)
Definition insert_setting (t : settings_table) (key value : string)
  : option settings_table :=
  if existsb (fun r => fst r == key) t then None else Some (app t [(key, value)]).

(** [INSERT ... ON CONFLICT(key) DO UPDATE SET value = excluded.value] *)
Definition upsert_setting (t : settings_table) (key value : string)
  : settings_table :=
  if existsb (fun r => fst r == key) t
  then map (fun r => if fst r == key then (key, value) else r) t
  else app t [(key, value)].

(** [ensureSetting]: [None] when the INSERT rejects. *)
Definition ensureSetting (t : settings_table) (key fallback : string)
  : option (string * settings_table) :=
  match select_setting t key with
  | None =>
      match insert_setting t key fallback with
      | Some t' => Some (fallback, t')
      | None => None
      end
  | Some v => Some (v, t)
  end.

(** [setSetting] *)
Definition setSetting (t : settings_table) (key value : string) : settings_table :=
  upsert_setting t key value.

(** [getSetting]: a read, the table is unchanged. *)
Definition getSetting (t : settings_table) (key fallback : string) : string :=
  match select_setting t key with
  | Some v => v
  | None => fallback
  end.

Definition email_is (e : string) (u : user_row) : bool :=
  match email u with Some e' => e' == e | None => false end.

(** [SELECT id FROM users WHERE username = ?] *)
Definition select_user_by_username (us : list user_row) (name : string)
  : option user_row := find (fun u => username u == name) us.

(** [SELECT id FROM users WHERE email = ?] (NULL never compares equal) *)
Definition select_user_by_email (us : list user_row) (e : string)
  : option user_row := find (email_is e) us.

(** [SELECT id, username, email, password_hash, is_admin FROM users
     WHERE username = ? OR email = ?]: [dbGet] returns the first row SQLite
    produces. Both terms are indexed (the UNIQUE constraint on [username],
    the partial index [idx_users_email], which [email = ?] implies), so the
    planner runs the OR as the union of the two index lookups, the
    [username] term first: a row with that username comes before a row with
    that email. *)
Definition select_user_login (us : list user_row) (ident identLower : string)
  : option user_row :=
  match select_user_by_username us ident with
  | Some u => Some u
  | None => select_user_by_email us identLower
  end.

(** ** Sessions, files and the server state *)

Record session_user := mkSessionUser {
  su_id : nat;
  su_username : string;
  su_email : string;
  su_isAdmin : bool
}.

Record flash := mkFlash { flash_type : string; flash_message : string }.

(** [req.session]: [user], [captcha] and [flash] (absent = [None]). *)
Record session := mkSession {
  sess_user : option session_user;
  sess_captcha : option string;
  sess_flash : option flash
}.

Definition empty_session : session := mkSession None None None.

(** The state one browser's requests act on: the two tables, the
    AUTOINCREMENT counter of [users], the files on disk (absolute paths)
    and the browser's session. *)
Record world := mkWorld {
  users : list user_row;
  next_id : nat;
  settings : settings_table;
  files : list string;
  sess : session
}.

Definition set_sess (w : world) (s : session) : world :=
  mkWorld (users w) (next_id w) (settings w) (files w) s.

Definition set_user (w : world) (u : option session_user) : world :=
  set_sess w (mkSession u (sess_captcha (sess w)) (sess_flash (sess w))).

Definition set_captcha (w : world) (c : option string) : world :=
  set_sess w (mkSession (sess_user (sess w)) c (sess_flash (sess w))).

Definition set_flash_field (w : world) (f : option flash) : world :=
  set_sess w (mkSession (sess_user (sess w)) (sess_captcha (sess w)) f).

(** [setFlash(req, type, message)] *)
Definition setFlash (w : world) (type message : string) : world :=
  set_flash_field w (Some (mkFlash type message)).

Definition set_settings (w : world) (t : settings_table) : world :=
  mkWorld (users w) (next_id w) t (files w) (sess w).

Definition file_exists (w : world) (p : string) : bool :=
  existsb (fun f => f == p) (files w).

(** A multer disk write: the file at [p] is created or overwritten. *)
Definition write_file (w : world) (p : string) : world :=
  mkWorld (users w) (next_id w) (settings w)
          (if file_exists w p then files w else app (files w) [p]) (sess w).

(** [fs.unlink(p, () => {})] *)
Definition unlink (w : world) (p : string) : world :=
  mkWorld (users w) (next_id w) (settings w)
          (filter (fun f => negb (f == p)) (files w)) (sess w).

(** [INSERT INTO users (...) VALUES (...)] with the UNIQUE constraints on
    [username] and on non-NULL [email]; returns the new world and
    [lastID]. *)
Definition insert_user (w : world) (name : string) (e : option string)
  (hash : string) (admin : bool) : option (world * nat) :=
  let clash_email := match e with
                     | Some e' => existsb (email_is e') (users w)
                     | None => false
                     end in
  if existsb (fun u => username u == name) (users w) || clash_email then None
  else Some (mkWorld (app (users w) [mkUserRow (next_id w) name e hash admin])
                     (S (next_id w)) (settings w) (files w) (sess w),
             next_id w).

(** ** Responses and requests *)

Inductive response :=
| Redirect (url : string)
| Render (view : string) (flash : option flash)
| SendCaptcha (cache_control : string)
| Download (path filename cache_control : string)
| StaticFile (path : string)
| MovedPermanently (url : string)  (** [serve-static]'s redirect of a folder *)
| NotFound
| NoResponse.  (** a rejected async handler: Express 4 never answers *)

Record register_form := mkRegisterForm {
  rf_username : string; rf_email : string; rf_password : string;
  rf_captcha : string; rf_next : string
}.

Record login_form := mkLoginForm {
  lf_username : string; lf_password : string; lf_captcha : string;
  lf_next : string
}.

Record file_part := mkFilePart { originalname : string; mimetype : string }.

(** What [multer(...).single(field)] sees in the multipart body. *)
Inductive multer_input :=
| NoFilePart
| FilePart (f : file_part)
| UnexpectedFilePart.  (** a file under another field name *)

Inductive route :=
| GetCaptcha (text : string)  (** [svgCaptcha.create(...).text] *)
| GetIndex
| GetRegister
| PostRegister (f : register_form)
| GetLogin
| PostLogin (f : login_form)
| PostLogout
| GetDownload
| GetAdmin
| PostUploadImage (m : multer_input) (now : nat)  (** [now] = [Date.now()] *)
| PostUploadZip (m : multer_input) (now : nat)
| GetOther
| PostOther.

Record request := mkRequest { originalUrl : string; rroute : route }.

Definition is_get (r : route) : bool :=
  match r with
  | GetCaptcha _ | GetIndex | GetRegister | GetLogin | GetDownload | GetAdmin
  | GetOther => true
  | _ => false
  end.

Definition DEFAULT_IMAGE_URL : string := "/img/whitecore-placeholder.svg".
Definition DEFAULT_ZIP_PATH : string := Path.join ["downloads"; "whitecore-default.zip"].

Definition msg_bad_captcha := "Неверная капча".
Definition msg_required := "Логин, email и пароль обязательны".
Definition msg_short_login := "Логин должен быть длиннее 3 символов".
Definition msg_bad_email := "Укажите корректный email".
Definition msg_login_taken := "Такой логин уже существует".
Definition msg_email_taken := "Такой email уже зарегистрирован".
Definition msg_account_created := "Аккаунт создан, добро пожаловать!".
Definition msg_user_not_found := "Пользователь не найден".
Definition msg_wrong_password := "Неверный пароль".
Definition msg_logged_in := "Вы вошли в систему".
Definition msg_file_unavailable := "Файл пока недоступен, свяжитесь с админом".
Definition msg_only_images := "Допустимы только изображения".
Definition msg_need_zip := "Нужен ZIP архив".
Definition msg_unexpected_field := "Unexpected field".
Definition msg_no_image := "Файл не получен".
Definition msg_no_zip := "Архив не получен".
Definition msg_image_updated := "Картинка чита обновлена".
Definition msg_zip_updated := "Файл чита обновлен".

(** [res.locals] as the flash middleware fills it. *)
Record locals := mkLocals { currentUser : option session_user; l_flash : option flash }.

(** ** The path checks of the static-file middleware ([serve-static] 1.x
    over [send] 0.x, as Express 4 ships them) *)

Definition is_sep (c : ascii) : bool := Ascii.eqb c "/" || Ascii.eqb c "\".

(** [UP_PATH_REGEXP = /(?:^|[\\/])\.\.(?:[\\/]|$)/]: a [..] segment; [start]
    says whether the text read so far is empty or ends in a separator. *)
Fixpoint up_path_aux (start : bool) (l : list ascii) : bool :=
  match l with
  | [] => false
  | c :: r =>
      (start && match l with
                | "."%char :: "."%char :: r' =>
                    match r' with [] => true | d :: _ => is_sep d end
                | _ => false
                end)
      || up_path_aux (is_sep c) r
  end.

Definition up_path (p : string) : bool := up_path_aux true (list_ascii_of_string p).

(** [containsDotFile(parts)] *)
Definition containsDotFile (parts : list string) : bool :=
  existsb (fun part => (1 <? JS.length part) && JS.startsWith part ".") parts.

(** [~path.indexOf('\0')] *)
Definition has_nul (p : string) : bool :=
  existsb (fun c => Ascii.eqb c (ascii_of_nat 0)) (list_ascii_of_string p).

Fixpoint drop_slashes (s : string) : string :=
  match s with
  | String c s' => if Ascii.eqb c "/" then drop_slashes s' else s
  | EmptyString => s
  end.

(** [collapseLeadingSlashes]: a run of leading slashes becomes one. *)
Definition collapseLeadingSlashes (s : string) : string :=
  if String.prefix "//" s then String "/" (drop_slashes s) else s.

Definition ascii_lower (s : string) : string :=
  string_of_list_ascii
    (map (fun c => if JS.is_upper c then ascii_of_nat (JS.code c + 32) else c)
         (list_ascii_of_string s)).

(** Express's mount match for [app.use('/uploads', ...)]: the path matches
    [/^\/uploads\/?(?=\/|$)/i] (ASCII case folding: the pattern is ASCII and
    has no [u] flag); the matched prefix is cut from the URL and a [/] put
    back in front when none is left. The result is the path the mounted
    handler sees. *)
Definition mount_uploads (p : string) : option string :=
  if ascii_lower (substring 0 8 p) == "/uploads" then
    let rest := substring 8 (String.length p - 8) p in
    match rest with
    | EmptyString => Some "/"
    | String c r =>
        if Ascii.eqb c "/" then
          match r with
          | EmptyString => Some "/"
          | String d _ => if Ascii.eqb d "/" then Some r else Some rest
          end
        else None
    end
  else None.

(** What [send] does with a request: stream a file, redirect a folder, or
    fail with a status below 500, on which [serve-static] calls [next()]
    ([fallthrough] defaults to true). *)
Inductive send_result :=
| SendFile (path : string)
| SendRedirect (url : string)
| SendNext.

Section App.

Context {BC : Bcrypt}.

(** [__dirname] *)
Variable dirname : string.

Definition UPLOADS_DIR : string := Path.join [dirname; "uploads"].
Definition DOWNLOADS_DIR : string := Path.join [dirname; "downloads"].

(** [storedPath.replace(/^[\\/]/, '')] *)
Definition strip_leading_sep (s : string) : string :=
  match s with
  | String c s' => if Ascii.eqb c "/" || Ascii.eqb c "\" then s' else s
  | EmptyString => s
  end.

(** [toAbsolutePath] *)
Definition toAbsolutePath (storedPath : string) : option string :=
  if storedPath == "" then None
  else if Path.isAbsolute storedPath then Some storedPath
  else Some (Path.join [dirname; strip_leading_sep storedPath]).

(** [!sessionCaptcha || captcha.toLowerCase() !== sessionCaptcha] *)
Definition captcha_rejects (sessionCaptcha : option string) (captcha : string) : bool :=
  match sessionCaptcha with
  | None => true
  | Some sc => (sc == "") || negb (JS.toLowerCase captcha == sc)
  end.

(** [res.redirect(next || '/')] *)
Definition redirect_next (next : string) : response :=
  Redirect (if next == "" then "/" else next).

(** [app.post('/register', ...)] *)
Definition post_register (w : world) (f : register_form) : world * response :=
  let normalizedUser := JS.trim (rf_username f) in
  let normalizedEmail := JS.toLowerCase (JS.trim (rf_email f)) in
  let sessionCaptcha := sess_captcha (sess w) in
  let w := set_captcha w None in
  if captcha_rejects sessionCaptcha (rf_captcha f) then
    (setFlash w "error" msg_bad_captcha, Redirect "/register")
  else if (normalizedUser == "") || (rf_password f == "") || (normalizedEmail == "") then
    (setFlash w "error" msg_required, Redirect "/register")
  else if JS.length normalizedUser <? 3 then
    (setFlash w "error" msg_short_login, Redirect "/register")
  else if negb (JS.emailRegex_test normalizedEmail) then
    (setFlash w "error" msg_bad_email, Redirect "/register")
  else match select_user_by_username (users w) normalizedUser with
  | Some _ => (setFlash w "error" msg_login_taken, Redirect "/register")
  | None =>
  match select_user_by_email (users w) normalizedEmail with
  | Some _ => (setFlash w "error" msg_email_taken, Redirect "/register")
  | None =>
  let passwordHash := bcrypt_hash (rf_password f) in
  match insert_user w normalizedUser (Some normalizedEmail) passwordHash false with
  | None => (w, NoResponse)
  | Some (w, lastID) =>
      let w := set_user w (Some (mkSessionUser lastID normalizedUser normalizedEmail false)) in
      (setFlash w "success" msg_account_created, redirect_next (rf_next f))
  end end end.

(** [app.post('/login', ...)] *)
Definition post_login (w : world) (f : login_form) : world * response :=
  let sessionCaptcha := sess_captcha (sess w) in
  let w := set_captcha w None in
  if captcha_rejects sessionCaptcha (lf_captcha f) then
    (setFlash w "error" msg_bad_captcha, Redirect "/login")
  else
  let identifier := JS.trim (lf_username f) in
  let identifierLower := JS.toLowerCase identifier in
  match select_user_login (users w) identifier identifierLower with
  | None => (setFlash w "error" msg_user_not_found, Redirect "/login")
  | Some user =>
      if bcrypt_compare (lf_password f) (password_hash user) then
        let w := set_user w (Some (mkSessionUser (id user) (username user)
                   (match email user with Some e => e | None => "" end)
                   (is_admin user))) in
        (setFlash w "success" msg_logged_in, redirect_next (lf_next f))
      else (setFlash w "error" msg_wrong_password, Redirect "/login")
  end.

(** [app.get('/download', requireAuth, ...)], the handler after the gate *)
Definition get_download (w : world) : world * response :=
  let zipPath := getSetting (settings w) "cheat_zip_path" DEFAULT_ZIP_PATH in
  let unavailable := (setFlash w "error" msg_file_unavailable, Redirect "/") in
  match toAbsolutePath zipPath with
  | None => unavailable
  | Some absoluteZip =>
      if negb (file_exists w absoluteZip) then unavailable
      else (w, Download absoluteZip
                 (let b := Path.basename absoluteZip in
                  if b == "" then "whitecore.zip" else b)
                 "no-store")
  end.

(** [uploadImage]'s [fileFilter] *)
Definition image_filter (f : file_part) : bool := JS.startsWith (mimetype f) "image/".

(** [uploadZip]'s [fileFilter] *)
Definition zip_filter (f : file_part) : bool :=
  JS.endsWith (JS.toLowerCase (originalname f)) ".zip".

(** [imageStorage]'s [filename] *)
Definition image_filename (f : file_part) (now : nat) : string :=
  let e := Path.extname (originalname f) in
  "cheat-" ++ JS.string_of_nat now ++ (if e == "" then ".png" else e).

(** [zipStorage]'s [filename] *)
Definition zip_filename (f : file_part) (now : nat) : string :=
  let e := Path.extname (originalname f) in
  "whitecore-" ++ JS.string_of_nat now ++ (if e == "" then ".zip" else e).

(** The deletion step shared in shape by both upload handlers:
    [if (prev && prev.startsWith(area)) { ... fs.unlink(prevAbsolute) }] *)
Definition delete_previous (w : world) (prev area : string) : world :=
  if negb (prev == "") && JS.startsWith prev area then
    match toAbsolutePath prev with
    | Some prevAbsolute =>
        if file_exists w prevAbsolute then unlink w prevAbsolute else w
    | None => w
    end
  else w.

(** [app.post('/admin/upload-image', requireAdmin, ...)] after the gate:
    multer runs the filter and writes the file, then the callback runs. *)
Definition upload_image (w : world) (m : multer_input) (now : nat) : world * response :=
  match m with
  | UnexpectedFilePart => (setFlash w "error" msg_unexpected_field, Redirect "/admin")
  | NoFilePart => (setFlash w "error" msg_no_image, Redirect "/admin")
  | FilePart f =>
      if negb (image_filter f) then (setFlash w "error" msg_only_images, Redirect "/admin")
      else
        let filename := image_filename f now in
        let w := write_file w (Path.join [UPLOADS_DIR; filename]) in
        let newUrl := "/uploads/" ++ filename in
        let prev := getSetting (settings w) "cheat_image_url" DEFAULT_IMAGE_URL in
        let w := delete_previous w prev "/uploads/" in
        let w := set_settings w (setSetting (settings w) "cheat_image_url" newUrl) in
        (setFlash w "success" msg_image_updated, Redirect "/admin")
  end.

(** [app.post('/admin/upload-zip', requireAdmin, ...)] after the gate *)
Definition upload_zip (w : world) (m : multer_input) (now : nat) : world * response :=
  match m with
  | UnexpectedFilePart => (setFlash w "error" msg_unexpected_field, Redirect "/admin")
  | NoFilePart => (setFlash w "error" msg_no_zip, Redirect "/admin")
  | FilePart f =>
      if negb (zip_filter f) then (setFlash w "error" msg_need_zip, Redirect "/admin")
      else
        let filename := zip_filename f now in
        let w := write_file w (Path.join [DOWNLOADS_DIR; filename]) in
        let newPath := Path.join ["downloads"; filename] in
        let prev := getSetting (settings w) "cheat_zip_path" DEFAULT_ZIP_PATH in
        let w := delete_previous w prev "downloads" in
        let w := set_settings w (setSetting (settings w) "cheat_zip_path" newPath) in
        (setFlash w "success" msg_zip_updated, Redirect "/admin")
  end.

(** [requireAuth] *)
Definition requireAuth (s : session) (url : string) : option response :=
  match sess_user s with
  | None => Some (Redirect ("/login?next=" ++ JS.encodeURIComponent url))
  | Some _ => None
  end.

(** [requireAdmin] *)
Definition requireAdmin (s : session) : option response :=
  match sess_user s with
  | Some u => if su_isAdmin u then None else Some (Redirect "/login?next=/admin")
  | None => Some (Redirect "/login?next=/admin")
  end.

(** A gate in front of a handler: [Some r] ends the request with [r],
    [None] is [next()]. *)
Definition gated (gate : option response) (w : world) (handler : world * response)
  : world * response :=
  match gate with
  | Some r => (w, r)
  | None => handler
  end.

(** The route handlers, reached after the flash middleware. *)
Definition route_handle (l : locals) (w : world) (rq : request) : world * response :=
  match rroute rq with
  | GetCaptcha text => (set_captcha w (Some (JS.toLowerCase text)), SendCaptcha "no-store")
  | GetIndex => (w, Render "index" (l_flash l))
  | GetRegister => (w, Render "register" (l_flash l))
  | PostRegister f => post_register w f
  | GetLogin => (w, Render "login" (l_flash l))
  | PostLogin f => post_login w f
  | PostLogout =>
      gated (requireAuth (sess w) (originalUrl rq)) w (set_sess w empty_session, Redirect "/")
  | GetDownload => gated (requireAuth (sess w) (originalUrl rq)) w (get_download w)
  | GetAdmin => gated (requireAdmin (sess w)) w (w, Render "admin" (l_flash l))
  | PostUploadImage m now => gated (requireAdmin (sess w)) w (upload_image w m now)
  | PostUploadZip m now => gated (requireAdmin (sess w)) w (upload_zip w m now)
  | GetOther | PostOther => (w, NotFound)
  end.

Fixpoint url_path (s : string) : string :=
  match s with
  | String c s' => if Ascii.eqb c "?" then "" else String c (url_path s')
  | EmptyString => EmptyString
  end.

(** [parseurl(req).search]: from the first [?] on. *)
Fixpoint url_search (s : string) : string :=
  match s with
  | String c s' => if Ascii.eqb c "?" then s else url_search s'
  | EmptyString => EmptyString
  end.

(** [fs.stat(p).isDirectory()]: the two folders the server creates, and
    every folder that holds a file; [p] may end in [/]. *)
Definition dir_exists (w : world) (p : string) : bool :=
  let d := if JS.endsWith p "/" then substring 0 (String.length p - 1) p else p in
  (d == UPLOADS_DIR) || (d == DOWNLOADS_DIR)
  || existsb (fun f => JS.startsWith f (d ++ "/")) (files w).

(** [send(req, path, { root, index: ['index.html'] }).pipe(res)] with
    [serve-static]'s [directory] listener ([redirect] defaults to true):
    [decodeURIComponent] failing or a NUL byte is a 400, a [..] segment a
    403, a dot-file as last segment a 404 (the [dotfiles] option is unset);
    a path ending in [/] serves its [index.html]; a folder is redirected to
    its path with a [/] added ([orig] and [search] are the path and query
    of [req.originalUrl]; [encodeUrl] is not applied to the location). *)
Definition send (w : world) (root path orig search : string) : send_result :=
  match JS.decodeURIComponent path with
  | None => SendNext
  | Some dpath =>
      if has_nul dpath then SendNext
      else
        let rel := if dpath == "" then dpath else Path.normalize ("./" ++ dpath) in
        if up_path rel then SendNext
        else
          let parts := Path.split_on "/" rel in
          let full := Path.normalize (Path.join [root; rel]) in
          if containsDotFile parts && JS.startsWith (last parts "") "." then SendNext
          else if JS.endsWith path "/" then
            let p := Path.join [full; "index.html"] in
            if file_exists w p then SendFile p else SendNext
          else if file_exists w full then SendFile full
          else if dir_exists w full then
            SendRedirect (collapseLeadingSlashes (orig ++ "/") ++ search)
          else SendNext
  end.

(** [express.static(path.join(__dirname, 'public'))] then
    [app.use('/uploads', express.static(UPLOADS_DIR))], mounted before the
    locals middleware. Only GET requests are served (HEAD is not modelled);
    any other request, and any request [send] fails, falls through. *)
Definition static_layer (w : world) (rq : request) : option response :=
  if negb (is_get (rroute rq)) then None
  else
    let p := url_path (originalUrl rq) in
    let search := url_search (originalUrl rq) in
    let serve (root inner : string) : option response :=
      (* [if (path === '/' && originalUrl.pathname.substr(-1) !== '/') path = ''] *)
      let inner := if (inner == "/") && negb (JS.endsWith p "/") then "" else inner in
      match send w root inner p search with
      | SendFile f => Some (StaticFile f)
      | SendRedirect url => Some (MovedPermanently url)
      | SendNext => None
      end in
    match serve (Path.join [dirname; "public"]) p with
    | Some r => Some r
    | None =>
        match mount_uploads p with
        | Some inner => serve UPLOADS_DIR inner
        | None => None
        end
    end.

(** The locals middleware: copy [user] and [flash], then [delete req.session.flash]. *)
Definition flash_middleware (w : world) : locals * world :=
  (mkLocals (sess_user (sess w)) (sess_flash (sess w)), set_flash_field w None).

(** One request through the stack: static files, the locals middleware,
    the routes. *)
Definition app_step (w : world) (rq : request) : world * response :=
  match static_layer w rq with
  | Some r => (w, r)
  | None => let (l, w') := flash_middleware w in route_handle l w' rq
  end.

(** A sequence of requests from the same browser. *)
Fixpoint run (w : world) (rqs : list request) : world :=
  match rqs with
  | [] => w
  | rq :: rqs' => run (fst (app_step w rq)) rqs'
  end.

End App.

(** ** The Telegram bot ([startTelegramBot]) *)

Record bot_user := mkBotUser { bu_id : nat; bu_username : string; bu_isAdmin : bool }.

(** [sessions = new Map()]: chat id to user. *)
Definition bot_sessions := list (Z * bot_user).

Definition map_get (m : bot_sessions) (k : Z) : option bot_user :=
  match find (fun e => Z.eqb (fst e) k) m with Some e => Some (snd e) | None => None end.

Definition map_set (m : bot_sessions) (k : Z) (v : bot_user) : bot_sessions :=
  if existsb (fun e => Z.eqb (fst e) k) m
  then map (fun e => if Z.eqb (fst e) k then (k, v) else e) m
  else app m [(k, v)].

Definition map_delete (m : bot_sessions) (k : Z) : bot_sessions :=
  filter (fun e => negb (Z.eqb (fst e) k)) m.

(** [credentials.split(/\s+/)]: split at every run of [\s] code points
    ([\s] holds no code point above U+FFFF, so reading UTF-16 units gives
    the same runs). *)
Fixpoint split_ws_aux (l : list Utf8.uchar) (cur : list Utf8.uchar) (in_run : bool)
  : list string :=
  match l with
  | [] => [Utf8.encode (rev cur)]
  | u :: l' =>
      if JS.is_ws u then
        if in_run then split_ws_aux l' cur true
        else Utf8.encode (rev cur) :: split_ws_aux l' [] true
      else split_ws_aux l' (u :: cur) false
  end.

Definition split_ws (s : string) : list string := split_ws_aux (Utf8.decode s) [] false.

Inductive bot_command :=
| BotStart
| BotLogin (credentials : string)  (** the capture of [/\/login (.+)/] *)
| BotDownload
| BotLogout.

Inductive bot_reply :=
| SendMessage (text : string)
| SendDocument (path filename : string).

Definition bot_msg_help :=
  "Whitecore bot готов. Используйте:
/login <логин> <пароль>
/download — получить текущий файл
/logout — выйти".
Definition bot_msg_format := "Формат: /login <логин> <пароль>".
Definition bot_msg_bad_credentials := "Неверные данные".
Definition bot_msg_login_first := "Сначала залогиньтесь: /login <логин> <пароль>".
Definition bot_msg_logged_out := "Вы вышли.".

(** [user.username], named apart from the parameter [username] below. *)
Definition user_row_username (u : user_row) : string := username u.

Section Bot.

Context {BC : Bcrypt}.
Variable dirname : string.

(** [loginWithCredentials] *)
Definition loginWithCredentials (us : list user_row) (username password : string)
  : option bot_user :=
  let identifier := JS.trim username in
  let identifierLower := JS.toLowerCase identifier in
  match select_user_login us identifier identifierLower with
  | None => None
  | Some user =>
      if bcrypt_compare password (password_hash user)
      then Some (mkBotUser (id user) (user_row_username user) (is_admin user))
      else None
  end.

(** The tables and files the bot reads; it shares them with the web app
    but not the web sessions. *)
Record bot_env := mkBotEnv {
  b_users : list user_row;
  b_settings : settings_table;
  b_files : list string
}.

(** The four [bot.onText] handlers for one message of chat [chat]. *)
Definition bot_step (env : bot_env) (sessions : bot_sessions) (chat : Z)
  (cmd : bot_command) : bot_sessions * bot_reply :=
  match cmd with
  | BotStart => (sessions, SendMessage bot_msg_help)
  | BotLogin credentials =>
      let parts := split_ws credentials in
      let username := nth 0 parts "" in
      let password := nth 1 parts "" in
      if (username == "") || (password == "") then (sessions, SendMessage bot_msg_format)
      else match loginWithCredentials (b_users env) username password with
           | None => (sessions, SendMessage bot_msg_bad_credentials)
           | Some user =>
               (map_set sessions chat user,
                SendMessage ("Вход выполнен. Привет, " ++ bu_username user ++ "!"))
           end
  | BotDownload =>
      match map_get sessions chat with
      | None => (sessions, SendMessage bot_msg_login_first)
      | Some _ =>
          let zipPath := getSetting (b_settings env) "cheat_zip_path" DEFAULT_ZIP_PATH in
          match toAbsolutePath dirname zipPath with
          | Some absoluteZip =>
              if existsb (fun f => f == absoluteZip) (b_files env)
              then (sessions, SendDocument absoluteZip (Path.basename absoluteZip))
              else (sessions, SendMessage msg_file_unavailable)
          | None => (sessions, SendMessage msg_file_unavailable)
          end
      end
  | BotLogout => (map_delete sessions chat, SendMessage bot_msg_logged_out)
  end.

End Bot.

(** ** Concrete evaluation *)

(** A toy hashing instance, used only to run the model on concrete inputs. *)
#[local] Instance toy_bcrypt : Bcrypt := {
  bcrypt_hash := fun pw => "$2a$10$" ++ pw;
  bcrypt_compare := fun pw h => h == ("$2a$10$" ++ pw)
}.

Definition app_dir : string := "/app".

(** The state right after [bootstrap()]: the two settings and the admin. *)
Definition boot_world : world :=
  mkWorld [mkUserRow 1 "RURI" None (bcrypt_hash "Wat3hahak") true] 2
          [("cheat_image_url", DEFAULT_IMAGE_URL); ("cheat_zip_path", DEFAULT_ZIP_PATH)]
          [] empty_session.

Definition rq (url : string) (r : route) : request := mkRequest url r.

Example ex_register_flow :
  let w1 := fst (app_step app_dir boot_world (rq "/captcha" (GetCaptcha "AbCdE"))) in
  let (w2, r2) := app_step app_dir w1
        (rq "/register" (PostRegister (mkRegisterForm " bob " "Bob@X.io" "pw" "abcde" ""))) in
  r2 = Redirect "/" /\ length (users w2) = 2
  /\ sess_user (sess w2) = Some (mkSessionUser 2 "bob" "bob@x.io" false).
Proof. vm_compute. repeat split. Qed.

Example ex_login_flow :
  let w1 := fst (app_step app_dir boot_world (rq "/captcha" (GetCaptcha "XYZ12"))) in
  let (w2, r2) := app_step app_dir w1
        (rq "/login" (PostLogin (mkLoginForm "RURI" "Wat3hahak" "xyz12" "/admin"))) in
  r2 = Redirect "/admin" /\ sess_user (sess w2) = Some (mkSessionUser 1 "RURI" "" true).
Proof. vm_compute. split; reflexivity. Qed.

Example ex_download_default_missing :
  app_step app_dir (set_user boot_world (Some (mkSessionUser 1 "RURI" "" true)))
    (rq "/download" GetDownload)
  = (setFlash (set_user boot_world (Some (mkSessionUser 1 "RURI" "" true)))
       "error" msg_file_unavailable, Redirect "/").
Proof. vm_compute. reflexivity. Qed.

Example ex_bot_split : split_ws "bob  pw x" = ["bob"; "pw"; "x"] /\ split_ws " a" = [""; "a"].
Proof. split; reflexivity. Qed.

(** ** Settings store *)
Module SettingsFacts.

Lemma find_key_none (t : settings_table) (key : string) :
  find (fun r => fst r == key) t = None <-> ~ In key (map fst t).
Proof.
  induction t as [|[k v] t IH]; simpl; [tauto|].
  destruct (String.eqb_spec k key) as [->|Hne].
  - split; [discriminate | intros H; exfalso; apply H; left; reflexivity].
  - rewrite IH. split; [intros H [E|E]; [congruence|tauto] | tauto].
Qed.

Lemma select_none (t : settings_table) (key : string) :
  select_setting t key = None <-> ~ In key (map fst t).
Proof.
  unfold select_setting. rewrite <- find_key_none.
  destruct (find _ t); split; congruence.
Qed.

Lemma existsb_key (t : settings_table) (key : string) :
  existsb (fun r => fst r == key) t = true <-> In key (map fst t).
Proof.
  rewrite existsb_exists. rewrite in_map_iff. split.
  - intros [r [Hr E]]. apply String.eqb_eq in E. exists r; auto.
  - intros [r [E Hr]]. exists r. split; [auto|apply String.eqb_eq; auto].
Qed.

Lemma map_fst_update (t : settings_table) (key value : string) :
  map fst (map (fun r => if fst r == key then (key, value) else r) t) = map fst t.
Proof.
  induction t as [|[k v] t IH]; simpl; [reflexivity|].
  destruct (String.eqb_spec k key); simpl; congruence.
Qed.

Lemma nodup_app_fresh (t : settings_table) (key value : string) :
  NoDup (map fst t) -> ~ In key (map fst t) -> NoDup (map fst (app t [(key, value)])).
Proof.
  intros Hd Hn. rewrite map_app. simpl.
  apply NoDup_app; auto.
  - constructor; [tauto | constructor].
  - intros x Hx [E|[]]. subst. contradiction.
Qed.

Lemma upsert_rows (t : settings_table) (key value : string) (r : string * string) :
  In r (upsert_setting t key value) -> fst r = key -> r = (key, value).
Proof.
  unfold upsert_setting. destruct (existsb _ t) eqn:Ex.
  - rewrite in_map_iff. intros [r0 [E Hin]] Hk. subst r.
    destruct (String.eqb_spec (fst r0) key); [reflexivity|contradiction].
  - rewrite in_app_iff. intros [Hin|[E|[]]] Hk; [|congruence].
    exfalso. assert (Hx : In key (map fst t)) by (rewrite <- Hk; apply in_map; auto).
    apply existsb_key in Hx. congruence.
Qed.

Lemma upsert_in (t : settings_table) (key value : string) :
  In (key, value) (upsert_setting t key value).
Proof.
  unfold upsert_setting. destruct (existsb _ t) eqn:E.
  - apply existsb_key in E. apply in_map_iff in E as [[k v] [Ek Hin]]. simpl in Ek. subst k.
    apply in_map_iff. exists (key, v). split; [|auto]. simpl. rewrite String.eqb_refl. reflexivity.
  - apply in_or_app. right. left. reflexivity.
Qed.

Lemma upsert_nodup (t : settings_table) (key value : string) :
  NoDup (map fst t) -> NoDup (map fst (upsert_setting t key value)).
Proof.
  intros Hd. unfold upsert_setting. destruct (existsb _ t) eqn:E.
  - rewrite map_fst_update. exact Hd.
  - apply nodup_app_fresh; auto. intros Hin. apply existsb_key in Hin. congruence.
Qed.

Lemma select_in (t : settings_table) (key v : string) :
  NoDup (map fst t) -> In (key, v) t -> select_setting t key = Some v.
Proof.
  unfold select_setting. induction t as [|[k v'] t IH]; simpl; [tauto|].
  intros Hd [E|Hin]; inversion Hd as [|? ? Hn Hd']; subst.
  - injection E as <- <-. rewrite String.eqb_refl. reflexivity.
  - destruct (String.eqb_spec k key) as [->|]; [|auto].
    exfalso. apply Hn. change key with (fst (key, v)). apply in_map. exact Hin.
Qed.

End SettingsFacts.

(** * The claims *)

(** C7. Against the [settings] table, whose keys are pairwise distinct:
    [ensureSetting] returns the stored value when the key is present and
    otherwise inserts the fallback and returns it; [getSetting] returns the
    stored value or the fallback and writes nothing (it returns no table);
    [setSetting] upserts, so that afterwards the key holds exactly the new
    value in one row; every operation keeps the keys pairwise distinct. *)
Theorem settings_accessors_contract (t : settings_table) (key fallback value : string)
  (Hinv : NoDup (map fst t)) :
  (forall v, select_setting t key = Some v ->
     ensureSetting t key fallback = Some (v, t) /\ getSetting t key fallback = v)
  /\ (select_setting t key = None ->
        ensureSetting t key fallback = Some (fallback, app t [(key, fallback)])
        /\ select_setting (app t [(key, fallback)]) key = Some fallback
        /\ getSetting t key fallback = fallback)
  /\ (forall v t', ensureSetting t key fallback = Some (v, t') -> NoDup (map fst t'))
  /\ NoDup (map fst (setSetting t key value))
  /\ select_setting (setSetting t key value) key = Some value
  /\ (forall r, In r (setSetting t key value) -> fst r = key -> r = (key, value)).
Proof.
  assert (Hset : NoDup (map fst (setSetting t key value)))
    by (apply SettingsFacts.upsert_nodup; exact Hinv).
  assert (Hfresh : select_setting t key = None -> NoDup (map fst (app t [(key, fallback)])))
    by (intros Hn; apply SettingsFacts.nodup_app_fresh; [exact Hinv|];
        apply SettingsFacts.select_none; exact Hn).
  assert (Hins : select_setting t key = None ->
                 insert_setting t key fallback = Some (app t [(key, fallback)])).
  { intros Hn. unfold insert_setting.
    apply SettingsFacts.select_none in Hn.
    destruct (existsb _ t) eqn:E; [|reflexivity].
    apply SettingsFacts.existsb_key in E. contradiction. }
  split; [|split; [|split; [|split; [|split]]]].
  - intros v Hv. unfold ensureSetting, getSetting. rewrite Hv. split; reflexivity.
  - intros Hn. unfold ensureSetting, getSetting. rewrite Hn, (Hins Hn).
    split; [reflexivity|split; [|reflexivity]].
    apply SettingsFacts.select_in; [apply Hfresh; exact Hn|].
    apply in_or_app. right. left. reflexivity.
  - intros v t'. unfold ensureSetting.
    destruct (select_setting t key) eqn:Hs.
    + intros E. injection E as _ <-. exact Hinv.
    + rewrite (Hins eq_refl). intros E. injection E as _ <-. apply Hfresh. reflexivity.
  - exact Hset.
  - apply SettingsFacts.select_in; [exact Hset|]. apply SettingsFacts.upsert_in.
  - apply SettingsFacts.upsert_rows.
Qed.

Lemma settings_accessors_contract_witness :
  NoDup (map fst [("cheat_zip_path", DEFAULT_ZIP_PATH)])
  /\ select_setting (setSetting [("cheat_zip_path", DEFAULT_ZIP_PATH)]
                                "cheat_zip_path" "downloads/whitecore-5.zip") "cheat_zip_path"
     = Some "downloads/whitecore-5.zip".
Proof.
  assert (H : NoDup (map fst [("cheat_zip_path", DEFAULT_ZIP_PATH)]))
    by (simpl; constructor; [simpl; tauto | constructor]).
  split; [exact H|].
  exact (proj1 (proj2 (proj2 (proj2 (proj2
    (settings_accessors_contract [("cheat_zip_path", DEFAULT_ZIP_PATH)]
       "cheat_zip_path" DEFAULT_ZIP_PATH "downloads/whitecore-5.zip" H)))))).
Defined.

(** ** UTF-8 decoding and encoding *)

Module Utf8Facts.
Import Utf8.
Local Open Scope Z_scope.

Ltac bounds := repeat match goal with
  | H : (_ && _)%bool = true |- _ => apply andb_prop in H as [? ?]
  | H : (_ <=? _) = true |- _ => apply Z.leb_le in H
  | H : (_ <? _) = true |- _ => apply Z.ltb_lt in H
  | H : (_ <=? _) = false |- _ => apply Z.leb_gt in H
  | H : (_ <? _) = false |- _ => apply Z.ltb_ge in H
  | H : (_ =? _) = true |- _ => apply Z.eqb_eq in H
  | H : (_ =? _) = false |- _ => apply Z.eqb_neq in H
  end.

Ltac zlia := Z.div_mod_to_equations; lia.

Ltac zdec := repeat match goal with
  | |- context [?x <=? ?y] =>
      first [rewrite (proj2 (Z.leb_le x y)) by zlia | rewrite (proj2 (Z.leb_gt x y)) by zlia]
  | |- context [?x <? ?y] =>
      first [rewrite (proj2 (Z.ltb_lt x y)) by zlia | rewrite (proj2 (Z.ltb_ge x y)) by zlia]
  | |- context [?x =? ?y] =>
      first [rewrite (proj2 (Z.eqb_eq x y)) by zlia | rewrite (proj2 (Z.eqb_neq x y)) by zlia]
  end; cbn [andb orb negb].

Ltac split_ifs H := repeat match goal with
  | H' : context [if ?x then _ else _] |- _ => let E := fresh "E" in destruct x eqn:E
  end.

Lemma bz_bound b : 0 <= bz b < 256.
Proof. unfold bz. pose proof (Ascii.nat_ascii_bounded b). lia. Qed.

Lemma byte_bz b : byte (bz b) = b.
Proof. unfold byte, bz. rewrite Nat2Z.id. apply ascii_nat_embedding. Qed.

Lemma byte_eq z b : z = bz b -> byte z = b.
Proof. intros ->. apply byte_bz. Qed.

Lemma bz_byte z : 0 <= z < 256 -> bz (byte z) = z.
Proof. intros H. unfold bz, byte. rewrite nat_ascii_embedding by lia. lia. Qed.

Lemma lead_ok_len b l c r :
  lead_ok b l = Some (c, r) -> (List.length r < List.length l)%nat.
Proof.
  unfold lead_ok. intros H.
  destruct l as [|b1 [|b2 [|b3 l]]]; split_ifs H; try discriminate;
    injection H as <- <-; simpl; lia.
Qed.

Lemma decode_fuel_irrel n m l :
  (List.length l <= n)%nat -> (List.length l <= m)%nat -> decode_fuel n l = decode_fuel m l.
Proof.
  revert m l. induction n as [|n IH]; intros m l Hn Hm.
  - destruct l as [|b l]; [destruct m; reflexivity | simpl in Hn; lia].
  - destruct m as [|m]; [destruct l as [|b l]; [reflexivity | simpl in Hm; lia]|].
    destruct l as [|b l]; [reflexivity|]. simpl in Hn, Hm. simpl.
    destruct (bz b <? 0x80); [f_equal; apply IH; lia|].
    destruct (lead_ok b l) as [[c r]|] eqn:E; [|f_equal; apply IH; lia].
    pose proof (lead_ok_len _ _ _ _ E). f_equal; apply IH; lia.
Qed.

Lemma decode_l_nil : decode_l [] = [].
Proof. reflexivity. Qed.

Lemma decode_l_cons b l :
  decode_l (b :: l) =
  if bz b <? 0x80 then Cp (bz b) :: decode_l l
  else match lead_ok b l with
       | Some (c, r) => Cp c :: decode_l r
       | None => Raw b :: decode_l l
       end.
Proof.
  unfold decode_l at 1. simpl.
  destruct (bz b <? 0x80); [f_equal; apply decode_fuel_irrel; lia|].
  destruct (lead_ok b l) as [[c r]|] eqn:E; [|f_equal; apply decode_fuel_irrel; lia].
  pose proof (lead_ok_len _ _ _ _ E). f_equal; apply decode_fuel_irrel; lia.
Qed.

Lemma list_len_ind (P : list ascii -> Prop) :
  (forall l, (forall l', (List.length l' < List.length l)%nat -> P l') -> P l) ->
  forall l, P l.
Proof.
  intros H l. remember (List.length l) as n eqn:En. revert l En.
  induction n as [n IH] using lt_wf_ind. intros l ->.
  apply H. intros l' Hl. exact (IH _ Hl l' eq_refl).
Qed.

Ltac bytes := cbn [app]; repeat match goal with
  | |- cons _ _ = cons _ _ => refine (f_equal2 (@cons ascii) _ _); [first [apply byte_eq; zlia | reflexivity] | ]
  end; try reflexivity.

Lemma lead_ok_enc b l c r :
  lead_ok b l = Some (c, r) -> app (enc_cp c) r = b :: l /\ 0x80 <= c <= 0x10FFFF.
Proof.
  unfold lead_ok, is_cont, in_range, cv. intros H.
  pose proof (bz_bound b).
  destruct l as [|b1 [|b2 [|b3 l]]]; split_ifs H; try discriminate;
    injection H as <- <-; bounds;
    try pose proof (bz_bound b1); try pose proof (bz_bound b2); try pose proof (bz_bound b3);
    first [exfalso; lia | split; [unfold enc_cp; zdec; bytes | lia]].
Qed.

Lemma flat_decode l : flat_map enc_u (decode_l l) = l.
Proof.
  revert l. apply list_len_ind. intros [|b l] IH; [reflexivity|].
  rewrite decode_l_cons. destruct (bz b <? 0x80) eqn:E.
  - simpl. rewrite IH by (simpl; lia). unfold enc_cp. rewrite E. simpl. rewrite byte_bz. reflexivity.
  - destruct (lead_ok b l) as [[c r]|] eqn:El.
    + simpl. rewrite IH by (simpl; pose proof (lead_ok_len _ _ _ _ El); lia).
      apply (lead_ok_enc _ _ _ _ El).
    + simpl. rewrite IH by (simpl; lia). reflexivity.
Qed.

Lemma encode_decode s : encode (decode s) = s.
Proof.
  unfold encode, decode. rewrite flat_decode. apply string_of_list_ascii_of_string.
Qed.

Lemma decode_enc c y :
  0 <= c <= 0x10FFFF -> decode_l (app (enc_cp c) y) = Cp c :: decode_l y.
Proof.
  intros Hc. unfold enc_cp.
  destruct (Z.ltb_spec c 0x80).
  - cbn [app]. rewrite decode_l_cons, bz_byte by lia. zdec. reflexivity.
  - destruct (Z.ltb_spec c 0x800); [|destruct (Z.ltb_spec c 0x10000)];
      cbn [app]; rewrite decode_l_cons; unfold lead_ok, is_cont, in_range, cv;
      rewrite !bz_byte by zlia.
    + zdec. f_equal. f_equal. zlia.
    + destruct (Z.ltb_spec c 0x1000); zdec; f_equal; f_equal; zlia.
    + destruct (Z.ltb_spec c 0x40000); [|destruct (Z.ltb_spec c 0x100000)];
        zdec; f_equal; f_equal; zlia.
Qed.


Lemma list_ascii_encode us : list_ascii_of_string (encode us) = flat_map enc_u us.
Proof. apply list_ascii_of_string_of_list_ascii. Qed.

Lemma lead_ok_app b x c y :
  bz c < 0x80 ->
  lead_ok b (app x (c :: y)) =
  match lead_ok b x with Some (cp, r) => Some (cp, app r (c :: y)) | None => None end.
Proof.
  intros Hc. pose proof (bz_bound b).
  unfold lead_ok, is_cont, in_range.
  destruct x as [|b1 [|b2 [|b3 x]]]; destruct y as [|y1 [|y2 y]]; cbn [app];
    repeat match goal with |- context [if ?x then _ else _] => destruct x eqn:? end;
    bounds; try reflexivity; split_ifs Hc; bounds; lia.
Qed.

Lemma decode_app_ascii x c y :
  bz c < 0x80 -> decode_l (app x (c :: y)) = app (decode_l x) (Cp (bz c) :: decode_l y).
Proof.
  intros Hc. revert x. apply list_len_ind. intros [|b x] IH.
  - cbn [app]. rewrite decode_l_cons. rewrite (proj2 (Z.ltb_lt _ _) Hc). reflexivity.
  - cbn [app]. rewrite !decode_l_cons. destruct (bz b <? 0x80).
    + cbn [app]. f_equal. apply IH. simpl. lia.
    + rewrite lead_ok_app by exact Hc.
      destruct (lead_ok b x) as [[cp r]|] eqn:E; cbn [app]; f_equal; apply IH.
      * simpl. pose proof (lead_ok_len _ _ _ _ E). lia.
      * simpl. lia.
Qed.

(** The bytes after a lead byte that [lead_ok] may look at: the run of
    continuation bytes. *)
Fixpoint conts (l : list ascii) : list ascii :=
  match l with
  | b :: r => if is_cont b then b :: conts r else []
  | [] => []
  end.

Lemma lead_ok_conts b l : lead_ok b l = None <-> lead_ok b (conts l) = None.
Proof.
  pose proof (bz_bound b).
  destruct l as [|b1 [|b2 [|b3 l]]]; cbn [conts];
    repeat match goal with |- context [if is_cont ?x then _ else _] => destruct (is_cont x) eqn:? end;
    unfold lead_ok, is_cont, in_range in *;
    repeat match goal with |- context [if ?x then _ else _] => destruct x eqn:? end;
    bounds; try (split; reflexivity); try (split; discriminate);
    repeat match goal with H : (_ && _)%bool = false |- _ => apply andb_false_iff in H as [H|H] end;
    bounds; split_ifs H; bounds; lia.
Qed.

Definition cp_ok (c : Z) : Prop := 0 <= c <= 0x10FFFF.

(** A list of characters that [decode] gives back from its encoding. *)
Fixpoint canon (us : list uchar) : Prop :=
  match us with
  | [] => True
  | Cp c :: r => cp_ok c /\ canon r
  | Raw b :: r => 0x80 <= bz b /\ lead_ok b (flat_map enc_u r) = None /\ canon r
  end.

Lemma decode_encode_canon us : canon us -> decode_l (flat_map enc_u us) = us.
Proof.
  induction us as [|[c|b] r IH]; simpl; [reflexivity| |].
  - intros [Hc Hr]. rewrite decode_enc by exact Hc. f_equal. auto.
  - intros (Hb & Hl & Hr). rewrite decode_l_cons. zdec. rewrite Hl. f_equal. auto.
Qed.

Lemma canon_decode l : canon (decode_l l).
Proof.
  revert l. apply list_len_ind. intros [|b l] IH; [rewrite decode_l_nil; exact I|].
  rewrite decode_l_cons. destruct (bz b <? 0x80) eqn:E.
  - split; [pose proof (bz_bound b); unfold cp_ok; lia | apply IH; simpl; lia].
  - destruct (lead_ok b l) as [[c r]|] eqn:El.
    + split; [unfold cp_ok; pose proof (proj2 (lead_ok_enc _ _ _ _ El)); lia|].
      apply IH. simpl. pose proof (lead_ok_len _ _ _ _ El). lia.
    + bounds. split; [lia|]. split; [rewrite flat_decode; exact El|]. apply IH. simpl. lia.
Qed.

Lemma enc_cp_head c : cp_ok c -> exists b0 t, enc_cp c = b0 :: t /\ is_cont b0 = false.
Proof.
  unfold cp_ok, enc_cp, is_cont, in_range. intros Hc.
  destruct (Z.ltb_spec c 0x80); [|destruct (Z.ltb_spec c 0x800);
    [|destruct (Z.ltb_spec c 0x10000)]]; eexists _, _; (split; [reflexivity|]);
    rewrite bz_byte by zlia; zdec; reflexivity.
Qed.

Lemma conts_enc c t : cp_ok c -> conts (app (enc_cp c) t) = [].
Proof.
  intros Hc. destruct (enc_cp_head c Hc) as (b0 & t' & -> & Hb). simpl. rewrite Hb. reflexivity.
Qed.

Lemma canon_cps ds r : Forall cp_ok ds -> canon r -> canon (app (map Cp ds) r).
Proof. induction 1; simpl; auto. Qed.

(** Two character lists with the same raw bytes at the same places, each
    code point replaced by a non-empty list of code points. *)
Inductive same_raw : list uchar -> list uchar -> Prop :=
| same_raw_nil : same_raw [] []
| same_raw_raw b r r' : same_raw r r' -> same_raw (Raw b :: r) (Raw b :: r')
| same_raw_cp c d ds r r' :
    cp_ok c -> Forall cp_ok (d :: ds) -> same_raw r r' ->
    same_raw (Cp c :: r) (app (map Cp (d :: ds)) r').

Lemma same_raw_conts us vs :
  same_raw us vs -> conts (flat_map enc_u us) = conts (flat_map enc_u vs).
Proof.
  induction 1 as [|b r r' _ IH|c d ds r r' Hc Hd _ _].
  - reflexivity.
  - simpl. destruct (is_cont b); [f_equal; exact IH | reflexivity].
  - inversion Hd; subst. simpl. rewrite !conts_enc by assumption. reflexivity.
Qed.

Lemma same_raw_canon us vs : same_raw us vs -> canon us -> canon vs.
Proof.
  induction 1 as [|b r r' Hr IH|c d ds r r' Hc Hd Hr IH]; cbn [canon].
  - auto.
  - intros (Hb & Hl & Hc). split; [exact Hb|]. split; [|auto].
    apply (proj2 (lead_ok_conts _ _)). rewrite <- (same_raw_conts _ _ Hr).
    apply (proj1 (lead_ok_conts _ _)). exact Hl.
  - intros [_ Hc']. apply (canon_cps (d :: ds)); auto.
Qed.

(** [canon] holds of the two parts of a [canon] list. *)
Lemma lead_ok_prefix b x z c r :
  lead_ok b x = Some (c, r) -> lead_ok b (app x z) = Some (c, app r z).
Proof.
  unfold lead_ok. intros H.
  destruct (in_range 0xC2 0xDF b); [|destruct (in_range 0xE0 0xEF b);
    [|destruct (in_range 0xF0 0xF4 b)]];
  destruct x as [|b1 [|b2 [|b3 x]]]; cbn [app] in *; try discriminate H;
  repeat match goal with H' : context [if ?t then _ else _] |- _ => destruct t end;
  try discriminate H; injection H as <- <-; reflexivity.
Qed.

Lemma lead_ok_prefix_none b x z : lead_ok b (app x z) = None -> lead_ok b x = None.
Proof.
  intros H. destruct (lead_ok b x) as [[c r]|] eqn:E; [|reflexivity].
  rewrite (lead_ok_prefix b x z c r E) in H. discriminate.
Qed.

Lemma canon_app_l x y : canon (app x y) -> canon x.
Proof.
  induction x as [|[c|b] x IH]; cbn [app canon]; [auto| |].
  - intros [Hc H]. auto.
  - rewrite flat_map_app. intros [Hb [Hl H]]. split; [exact Hb|split; [|auto]].
    exact (lead_ok_prefix_none _ _ _ Hl).
Qed.

Lemma canon_app_r x y : canon (app x y) -> canon y.
Proof.
  induction x as [|[c|b] x IH]; cbn [app canon]; [auto| |]; intros H; apply IH; apply H.
Qed.

Lemma decode_encode_canon' us : canon us -> decode (encode us) = us.
Proof.
  intros H. unfold decode. rewrite list_ascii_encode. apply decode_encode_canon. exact H.
Qed.

End Utf8Facts.

(** ** [toLowerCase] is idempotent *)

Module LowerFacts.
Import Utf8.
Import Utf8Facts.
Local Open Scope Z_scope.

Definition fixed (d : Z) : bool :=
  negb (d =? 0x3A3) && negb (d =? 0x130) &&
  match JS.simple_lower d with None => true | Some _ => false end &&
  (0 <=? d) && (d <=? 0x10FFFF).

Fixpoint walk (n : nat) (x step : Z) : list Z :=
  match n with O => [] | S n' => x :: walk n' (x + step) step end.

Definition members (e : Z * Z * Z * Z) : list Z :=
  let '(lo, hi, step, _) := e in walk (S (Z.to_nat ((hi - lo) / step))) lo step.

Definition table_closed : bool :=
  forallb (fun e => let '(lo, hi, step, delta) := e in
             (0 <? step) && forallb (fun c => fixed (c + delta)) (members e))
          Uni.lower_ranges.

Lemma table_closed_ok : table_closed = true.
Proof. vm_compute. reflexivity. Qed.

Lemma specials_fixed : forallb fixed [0x3C2; 0x3C3; 0x69; 0x307] = true.
Proof. vm_compute. reflexivity. Qed.

Lemma walk_in n x step k : (k < n)%nat -> In (x + Z.of_nat k * step) (walk n x step).
Proof.
  revert x k. induction n as [|n IH]; intros x k Hk; [lia|].
  destruct k as [|k]; cbn [walk In]; [left; lia|right].
  replace (x + Z.of_nat (S k) * step) with ((x + step) + Z.of_nat k * step) by lia.
  apply IH. lia.
Qed.

Lemma simple_lower_fixed c d : JS.simple_lower c = Some d -> fixed d = true.
Proof.
  unfold JS.simple_lower.
  destruct (find (JS.in_entry c) Uni.lower_ranges) as [[[[lo hi] step] delta]|] eqn:E;
    [|discriminate].
  intros [= <-]. apply find_some in E as [Hin He].
  pose proof table_closed_ok as T. unfold table_closed in T.
  rewrite forallb_forall in T. specialize (T _ Hin). cbn beta iota in T.
  apply andb_prop in T as [Hs T]. apply Z.ltb_lt in Hs.
  rewrite forallb_forall in T. apply T.
  unfold JS.in_entry in He. bounds. unfold members.
  pose proof (Z.div_mod (c - lo) step ltac:(lia)) as Hdm.
  pose proof (Z.div_le_mono (c - lo) (hi - lo) step Hs ltac:(lia)).
  pose proof (Z.div_pos (c - lo) step ltac:(lia) Hs).
  replace c with (lo + Z.of_nat (Z.to_nat ((c - lo) / step)) * step) at 1
    by (rewrite Z2Nat.id by lia; nia).
  apply walk_in. lia.
Qed.

Lemma fixed_cp_ok d : fixed d = true -> cp_ok d.
Proof. unfold fixed, cp_ok. intros H. bounds. lia. Qed.

Lemma lower_cp_fixed c bf af :
  cp_ok c -> Forall (fun d => fixed d = true) (JS.lower_cp c bf af).
Proof.
  intros Hc. pose proof specials_fixed as S. cbn [forallb] in S. bounds.
  unfold JS.lower_cp.
  destruct (c =? 0x3A3) eqn:E1; [destruct (bf && negb af); repeat constructor; assumption|].
  destruct (c =? 0x130) eqn:E2; [repeat constructor; assumption|].
  destruct (JS.simple_lower c) as [d|] eqn:E.
  - constructor; [exact (simple_lower_fixed _ _ E)|constructor].
  - constructor; [|constructor]. unfold fixed, cp_ok in *. rewrite E1, E2, E. zdec. reflexivity.
Qed.

Lemma lower_cp_id d bf af : fixed d = true -> JS.lower_cp d bf af = [d].
Proof.
  unfold fixed, JS.lower_cp. intros H.
  destruct (d =? 0x3A3); [discriminate H|]. destruct (d =? 0x130); [discriminate H|].
  destruct (JS.simple_lower d); [bounds; discriminate|reflexivity].
Qed.

Lemma lower_cp_cons c bf af : exists d ds, JS.lower_cp c bf af = d :: ds.
Proof.
  unfold JS.lower_cp. destruct (c =? 0x3A3); [eauto|]. destruct (c =? 0x130); [eauto|].
  destruct (JS.simple_lower c); eauto.
Qed.

Definition fixed_u (u : uchar) : bool := match u with Cp c => fixed c | Raw _ => true end.

Lemma lower_units_fixed p us : canon us -> forallb fixed_u (JS.lower_units p us) = true.
Proof.
  revert p. induction us as [|[c|b] r IH]; intros p; cbn [canon JS.lower_units];
    [reflexivity| |].
  - intros [Hc Hr]. rewrite forallb_app. apply andb_true_intro. split; [|apply IH; exact Hr].
    induction (lower_cp_fixed c (JS.cased_context p) (JS.cased_context r) Hc) as [|d ds Hd _ IHd];
      [reflexivity|]. cbn [map forallb fixed_u]. rewrite Hd, IHd. reflexivity.
  - intros (_ & _ & Hr). cbn [forallb fixed_u]. apply IH. exact Hr.
Qed.

Lemma lower_units_id p us : forallb fixed_u us = true -> JS.lower_units p us = us.
Proof.
  revert p. induction us as [|[c|b] r IH]; intros p H; [reflexivity| |];
    cbn [forallb fixed_u] in H; apply andb_prop in H as [H1 H2]; cbn [JS.lower_units].
  - rewrite lower_cp_id by exact H1. cbn [map app]. f_equal. apply IH. exact H2.
  - f_equal. apply IH. exact H2.
Qed.

Lemma lower_same_raw p us : canon us -> same_raw us (JS.lower_units p us).
Proof.
  revert p. induction us as [|[c|b] r IH]; intros p; cbn [canon JS.lower_units].
  - constructor.
  - intros [Hc Hr].
    pose proof (lower_cp_fixed c (JS.cased_context p) (JS.cased_context r) Hc) as F.
    destruct (lower_cp_cons c (JS.cased_context p) (JS.cased_context r)) as (d & ds & E).
    rewrite E in F |- *. constructor; auto.
    eapply Forall_impl; [|exact F]. intros x. apply fixed_cp_ok.
  - intros (_ & _ & Hr). constructor. auto.
Qed.

Lemma toLowerCase_idem s : JS.toLowerCase (JS.toLowerCase s) = JS.toLowerCase s.
Proof.
  unfold JS.toLowerCase. unfold decode at 1. rewrite list_ascii_encode.
  pose proof (canon_decode (list_ascii_of_string s)) as C.
  rewrite decode_encode_canon by exact (same_raw_canon _ _ (lower_same_raw [] _ C) C).
  rewrite lower_units_id by exact (lower_units_fixed [] _ C). reflexivity.
Qed.

End LowerFacts.

(** ** Lookups in [users] *)
Module UserFacts.

Lemma find_none_iff {A} (p : A -> bool) (l : list A) :
  find p l = None <-> (forall x, In x l -> p x = false).
Proof.
  induction l as [|a l IH]; simpl; [split; [intros _ x []|reflexivity]|].
  destruct (p a) eqn:E; split.
  - discriminate.
  - intros H. rewrite (H a (or_introl eq_refl)) in E. discriminate.
  - intros H x [<-|Hx]; [exact E|]. apply IH; auto.
  - intros H. apply IH. intros x Hx. apply H. right. exact Hx.
Qed.

Lemma email_is_iff (e : string) (u : user_row) : email_is e u = true <-> email u = Some e.
Proof.
  unfold email_is. destruct (email u) as [e'|]; [|split; discriminate].
  rewrite String.eqb_eq. split; congruence.
Qed.

Lemma select_login_none (us : list user_row) (i il : string) :
  select_user_login us i il = None <->
  (forall u, In u us -> username u <> i /\ email u <> Some il).
Proof.
  unfold select_user_login, select_user_by_username, select_user_by_email.
  destruct (find (fun u => username u == i) us) as [v|] eqn:Ev.
  - split; [discriminate|]. intros H.
    apply find_some in Ev as [Hin Hp]. apply String.eqb_eq in Hp.
    destruct (H v Hin). contradiction.
  - rewrite find_none_iff in Ev. rewrite find_none_iff.
    split; intros H u Hu.
    + specialize (H u Hu). split.
      * intros E. specialize (Ev u Hu).
        rewrite (proj2 (String.eqb_eq _ _) E) in Ev. discriminate.
      * intros E. apply email_is_iff in E. congruence.
    + destruct (H u Hu) as [_ H2].
      destruct (email_is il u) eqn:E; [apply email_is_iff in E; contradiction|reflexivity].
Qed.

Lemma select_login_some (us : list user_row) (i il : string) (u : user_row) :
  select_user_login us i il = Some u -> In u us /\ (username u = i \/ email u = Some il).
Proof.
  unfold select_user_login, select_user_by_username, select_user_by_email.
  destruct (find (fun u => username u == i) us) as [v|] eqn:Ev.
  - intros [= <-]. apply find_some in Ev as [Hin Hp].
    split; [exact Hin|]. left. apply String.eqb_eq. exact Hp.
  - intros H. apply find_some in H as [Hin Hp].
    split; [exact Hin|]. right. apply email_is_iff. exact Hp.
Qed.

(** The row [select_user_login] returns: one with the username if there is
    one, else one with the email. *)
Lemma select_login_username (us : list user_row) (i il : string) (u : user_row) :
  In u us -> username u = i ->
  exists v, select_user_login us i il = Some v /\ In v us /\ username v = i.
Proof.
  intros Hu Hn. unfold select_user_login, select_user_by_username.
  destruct (find (fun u => username u == i) us) as [v|] eqn:Ev.
  - apply find_some in Ev as [Hin Hp]. exists v. split; [reflexivity|].
    split; [exact Hin|]. apply String.eqb_eq. exact Hp.
  - rewrite find_none_iff in Ev. specialize (Ev u Hu).
    rewrite (proj2 (String.eqb_eq _ _) Hn) in Ev. discriminate.
Qed.

Lemma select_login_email (us : list user_row) (i il : string) :
  (forall u, In u us -> username u <> i) ->
  select_user_login us i il = select_user_by_email us il.
Proof.
  intros H. unfold select_user_login, select_user_by_username.
  destruct (find (fun u => username u == i) us) as [v|] eqn:Ev; [|reflexivity].
  apply find_some in Ev as [Hin Hp]. apply String.eqb_eq in Hp.
  destruct (H v Hin Hp).
Qed.

Lemma existsb_username (us : list user_row) (n : string) :
  existsb (fun u => username u == n) us = true <-> exists u, In u us /\ username u = n.
Proof.
  rewrite existsb_exists. split; intros [u [Hu E]]; exists u; split; auto;
    apply String.eqb_eq; auto.
Qed.

Lemma existsb_email (us : list user_row) (e : string) :
  existsb (email_is e) us = true <-> exists u, In u us /\ email u = Some e.
Proof.
  rewrite existsb_exists. split; intros [u [Hu E]]; exists u; split; auto;
    apply email_is_iff; auto.
Qed.

End UserFacts.

Definition is_admin_route (r : route) : bool :=
  match r with GetAdmin | PostUploadImage _ _ | PostUploadZip _ _ => true | _ => false end.

Definition is_auth_route (r : route) : bool :=
  match r with PostLogout | GetDownload => true | _ => false end.

(** C5. An admin route ([GET /admin], [POST /admin/upload-image],
    [POST /admin/upload-zip]) reached by a session with no user, or with a
    user whose admin flag is false, is answered by [requireAdmin] with a
    redirect to [/login?next=/admin] and the state is left as it is: the
    admin handler never runs. A route behind [requireAuth] reached with no
    user is answered with [/login?next=] followed by the original URL
    passed through [encodeURIComponent]. *)
Theorem gates_redirect_to_login `{Bcrypt} (dirname : string) (l : locals) (w : world)
  (rq : request) :
  (is_admin_route (rroute rq) = true ->
   (sess_user (sess w) = None
    \/ exists u, sess_user (sess w) = Some u /\ su_isAdmin u = false) ->
   route_handle dirname l w rq = (w, Redirect "/login?next=/admin"))
  /\ (is_auth_route (rroute rq) = true -> sess_user (sess w) = None ->
      route_handle dirname l w rq
      = (w, Redirect ("/login?next=" ++ JS.encodeURIComponent (originalUrl rq)))).
Proof.
  split.
  - intros Hr Hu.
    assert (Hg : requireAdmin (sess w) = Some (Redirect "/login?next=/admin")).
    { unfold requireAdmin. destruct Hu as [-> | [u [-> Ha]]]; [reflexivity|].
      rewrite Ha. reflexivity. }
    unfold route_handle. destruct (rroute rq); try discriminate; rewrite Hg; reflexivity.
  - intros Hr Hu. unfold route_handle, requireAuth.
    destruct (rroute rq); try discriminate; rewrite Hu; reflexivity.
Qed.

Lemma gates_redirect_to_login_witness :
  route_handle app_dir (mkLocals None None)
    (set_user boot_world (Some (mkSessionUser 2 "bob" "bob@x.io" false)))
    (rq "/admin" GetAdmin)
  = (set_user boot_world (Some (mkSessionUser 2 "bob" "bob@x.io" false)),
     Redirect "/login?next=/admin")
  /\ route_handle app_dir (mkLocals None None) boot_world (rq "/download" GetDownload)
     = (boot_world, Redirect "/login?next=%2Fdownload").
Proof.
  split.
  - apply (proj1 (gates_redirect_to_login app_dir (mkLocals None None)
             (set_user boot_world (Some (mkSessionUser 2 "bob" "bob@x.io" false)))
             (rq "/admin" GetAdmin))); [reflexivity|].
    right. exists (mkSessionUser 2 "bob" "bob@x.io" false). split; reflexivity.
  - apply (proj2 (gates_redirect_to_login app_dir (mkLocals None None) boot_world
             (rq "/download" GetDownload))); reflexivity.
Defined.



(** The session snapshot [POST /login] stores for a row. *)
Definition login_snapshot (u : user_row) : session_user :=
  mkSessionUser (id u) (username u) (match email u with Some e => e | None => "" end)
                (is_admin u).

Lemma post_login_after_captcha `{Bcrypt} (w : world) (f : login_form) (c : string)
  (Hc : sess_captcha (sess w) = Some c) (Hne : c <> "")
  (Hm : JS.toLowerCase (lf_captcha f) = c) :
  let w0 := set_captcha w None in
  let ident := JS.trim (lf_username f) in
  post_login w f =
  match select_user_login (users w) ident (JS.toLowerCase ident) with
  | None => (setFlash w0 "error" msg_user_not_found, Redirect "/login")
  | Some u =>
      if bcrypt_compare (lf_password f) (password_hash u)
      then (setFlash (set_user w0 (Some (login_snapshot u))) "success" msg_logged_in,
            redirect_next (lf_next f))
      else (setFlash w0 "error" msg_wrong_password, Redirect "/login")
  end.
Proof.
  intros w0 ident. unfold post_login. rewrite Hc.
  assert (Hr : captcha_rejects (Some c) (lf_captcha f) = false).
  { unfold captcha_rejects. rewrite Hm, String.eqb_refl.
    destruct (String.eqb_spec c ""); [contradiction|reflexivity]. }
  rewrite Hr. reflexivity.
Qed.

(** C6. Once the captcha check passes, [POST /login] looks the user up by
    exact username on the trimmed identifier or by email on its lowercase
    form. No matching row: the "user not found" flash and a redirect to
    [/login]. A row whose hash does not verify the password: the distinct
    "wrong password" flash and a redirect to [/login]. Only a verified
    password stores the snapshot (id, username, email, admin flag) in the
    session and redirects to [next] (or [/] when [next] is empty); on the
    two failures the session user is left as it was. *)
Theorem login_outcomes `{Bcrypt} (w : world) (f : login_form) (c : string)
  (Hc : sess_captcha (sess w) = Some c) (Hne : c <> "")
  (Hm : JS.toLowerCase (lf_captcha f) = c) :
  let ident := JS.trim (lf_username f) in
  let identLower := JS.toLowerCase ident in
  let (w', r) := post_login w f in
  msg_user_not_found <> msg_wrong_password
  /\ ((forall u, In u (users w) -> username u <> ident /\ email u <> Some identLower) ->
      r = Redirect "/login"
      /\ sess_flash (sess w') = Some (mkFlash "error" msg_user_not_found)
      /\ sess_user (sess w') = sess_user (sess w))
  /\ (forall u, select_user_login (users w) ident identLower = Some u ->
      In u (users w) /\ (username u = ident \/ email u = Some identLower)
      /\ (bcrypt_compare (lf_password f) (password_hash u) = false ->
          r = Redirect "/login"
          /\ sess_flash (sess w') = Some (mkFlash "error" msg_wrong_password)
          /\ sess_user (sess w') = sess_user (sess w))
      /\ (bcrypt_compare (lf_password f) (password_hash u) = true ->
          r = redirect_next (lf_next f)
          /\ sess_user (sess w') = Some (login_snapshot u))).
Proof.
  intros ident identLower.
  pose proof (post_login_after_captcha w f c Hc Hne Hm) as E. simpl in E.
  fold ident in E. fold identLower in E.
  destruct (post_login w f) as [w' r]. split; [discriminate|split].
  - intros Hnone. apply UserFacts.select_login_none in Hnone. rewrite Hnone in E.
    injection E as -> ->. repeat split.
  - intros u Hu. pose proof (UserFacts.select_login_some _ _ _ _ Hu) as [Hin Hmatch].
    rewrite Hu in E. split; [exact Hin|split; [exact Hmatch|split]].
    + intros Hb. rewrite Hb in E. injection E as -> ->. repeat split.
    + intros Hb. rewrite Hb in E. injection E as -> ->. repeat split.
Qed.

Lemma login_outcomes_witness :
  sess_captcha (sess (set_captcha boot_world (Some "xyz12"))) = Some "xyz12"
  /\ "xyz12" <> ""
  /\ JS.toLowerCase "XYZ12" = "xyz12"
  /\ snd (post_login (set_captcha boot_world (Some "xyz12"))
            (mkLoginForm " RURI " "nope" "XYZ12" "/")) = Redirect "/login".
Proof.
  assert (H1 : sess_captcha (sess (set_captcha boot_world (Some "xyz12"))) = Some "xyz12")
    by reflexivity.
  assert (H2 : "xyz12" <> "") by discriminate.
  assert (H3 : JS.toLowerCase "XYZ12" = "xyz12") by reflexivity.
  split; [exact H1|split; [exact H2|split; [exact H3|]]].
  pose proof (login_outcomes (set_captcha boot_world (Some "xyz12"))
                (mkLoginForm " RURI " "nope" "XYZ12" "/") "xyz12" H1 H2 H3) as T.
  revert T. destruct (post_login _ _) as [w' r] eqn:E. intros T.
  destruct T as [_ [_ T]].
  assert (Hs : select_user_login (users (set_captcha boot_world (Some "xyz12")))
                 (JS.trim " RURI ") (JS.toLowerCase (JS.trim " RURI "))
               = Some (mkUserRow 1 "RURI" None (bcrypt_hash "Wat3hahak") true))
    by reflexivity.
  destruct (T _ Hs) as [_ [_ [Tf _]]].
  simpl. apply (proj1 (Tf ltac:(reflexivity))).
Defined.

(** ** The bot's session map *)
Module BotMapFacts.

Lemma map_get_set (m : bot_sessions) (k : Z) (v : bot_user) :
  map_get (map_set m k v) k = Some v.
Proof.
  unfold map_get, map_set. destruct (existsb _ m) eqn:E.
  - induction m as [|[k' v'] m IH]; simpl in *; [discriminate|].
    destruct (Z.eqb_spec k' k) as [->|Hne]; simpl.
    + rewrite Z.eqb_refl. reflexivity.
    + destruct (Z.eqb_spec k' k); [contradiction|]. apply IH. exact E.
  - induction m as [|[k' v'] m IH]; simpl in *.
    + rewrite Z.eqb_refl. reflexivity.
    + apply orb_false_iff in E as [E1 E2]. rewrite E1. apply IH. exact E2.
Qed.

Lemma map_get_delete (m : bot_sessions) (k : Z) : map_get (map_delete m k) k = None.
Proof.
  unfold map_get, map_delete.
  induction m as [|[k' v'] m IH]; simpl; [reflexivity|].
  destruct (Z.eqb_spec k' k) as [->|Hne]; simpl; [exact IH|].
  destruct (Z.eqb_spec k' k); [contradiction|exact IH].
Qed.

End BotMapFacts.

(** C9. Against the same [users] rows, [loginWithCredentials] accepts
    exactly when the web [POST /login] (its captcha check passed) accepts,
    and for the same row: same id, username and admin flag; the bot itself
    has no captcha step. The bot's [/download] sends a document only for a
    chat id present in its session map. That map changes only by a
    successful [/login] (which stores the user under the chat id) and by
    [/logout] (which removes the chat id); [bot_step] neither reads nor
    writes a web session, and [app_step] never touches the map. *)
Theorem bot_login_parity `{Bcrypt} (dirname : string) (w : world) (f : login_form)
  (c : string) (Hc : sess_captcha (sess w) = Some c) (Hne : c <> "")
  (Hm : JS.toLowerCase (lf_captcha f) = c) :
  (match loginWithCredentials (users w) (lf_username f) (lf_password f) with
   | Some bu =>
       exists su, sess_user (sess (fst (post_login w f))) = Some su
         /\ su_id su = bu_id bu /\ su_username su = bu_username bu
         /\ su_isAdmin su = bu_isAdmin bu
         /\ snd (post_login w f) = redirect_next (lf_next f)
   | None =>
       sess_user (sess (fst (post_login w f))) = sess_user (sess w)
       /\ snd (post_login w f) = Redirect "/login"
   end)
  /\ (forall env s chat p fn,
        snd (bot_step dirname env s chat BotDownload) = SendDocument p fn ->
        exists bu, map_get s chat = Some bu)
  /\ (forall env s chat cmd,
        let s' := fst (bot_step dirname env s chat cmd) in
        match cmd with
        | BotLogin cr =>
            s' = s
            \/ exists bu, loginWithCredentials (b_users env) (nth 0 (split_ws cr) "")
                            (nth 1 (split_ws cr) "") = Some bu
                          /\ s' = map_set s chat bu /\ map_get s' chat = Some bu
        | BotLogout => s' = map_delete s chat /\ map_get s' chat = None
        | _ => s' = s
        end).
Proof.
  split; [|split].
  - rewrite (post_login_after_captcha w f c Hc Hne Hm). unfold loginWithCredentials.
    destruct (select_user_login _ _ _) as [u|]; [|split; reflexivity].
    destruct (bcrypt_compare _ _); [|split; reflexivity].
    exists (login_snapshot u). repeat split.
  - intros env s chat p fn. unfold bot_step.
    destruct (map_get s chat) as [bu|]; [intros _; exists bu; reflexivity|].
    simpl. discriminate.
  - intros env s chat cmd. destruct cmd as [|cr| |]; simpl.
    + reflexivity.
    + destruct (_ || _); [left; reflexivity|].
      destruct (loginWithCredentials _ _ _) as [bu|] eqn:E; [right|left; reflexivity].
      exists bu. split; [reflexivity|split; [reflexivity|apply BotMapFacts.map_get_set]].
    + destruct (map_get s chat); [|reflexivity].
      destruct (toAbsolutePath _ _); [|reflexivity].
      destruct (existsb _ _); reflexivity.
    + split; [reflexivity|apply BotMapFacts.map_get_delete].
Qed.

Lemma bot_login_parity_witness :
  loginWithCredentials (users boot_world) "RURI" "Wat3hahak"
    = Some (mkBotUser 1 "RURI" true)
  /\ exists su, sess_user (sess (fst (post_login (set_captcha boot_world (Some "xyz12"))
                                     (mkLoginForm "RURI" "Wat3hahak" "xyz12" "/"))))
                = Some su /\ su_id su = 1 /\ su_isAdmin su = true.
Proof.
  assert (T := bot_login_parity app_dir (set_captcha boot_world (Some "xyz12"))
                 (mkLoginForm "RURI" "Wat3hahak" "xyz12" "/") "xyz12"
                 eq_refl ltac:(discriminate) eq_refl).
  split; [reflexivity|].
  destruct T as [T _]. vm_compute in T. destruct T as [su [Hsu [Hid [_ [Hadm _]]]]].
  exists su. split; [vm_compute; exact Hsu|split; [exact Hid|exact Hadm]].
Defined.

(** ** Registration *)

(** The rejection conditions of [POST /register], in the terms of the spec. *)
Definition register_rejected (w : world) (f : register_form) : Prop :=
  let nu := JS.trim (rf_username f) in
  let ne := JS.toLowerCase (JS.trim (rf_email f)) in
  captcha_rejects (sess_captcha (sess w)) (rf_captcha f) = true
  \/ nu = "" \/ rf_password f = "" \/ ne = ""
  \/ JS.length nu < 3
  \/ JS.emailRegex_test ne = false
  \/ (exists u, In u (users w) /\ username u = nu)
  \/ (exists u, In u (users w) /\ email u = Some ne).

Definition register_rejected_b (w : world) (f : register_form) : bool :=
  let nu := JS.trim (rf_username f) in
  let ne := JS.toLowerCase (JS.trim (rf_email f)) in
  captcha_rejects (sess_captcha (sess w)) (rf_captcha f)
  || (nu == "") || (rf_password f == "") || (ne == "")
  || (JS.length nu <? 3)
  || negb (JS.emailRegex_test ne)
  || existsb (fun u => username u == nu) (users w)
  || existsb (email_is ne) (users w).

Lemma register_rejected_reflect (w : world) (f : register_form) :
  register_rejected w f <-> register_rejected_b w f = true.
Proof.
  unfold register_rejected, register_rejected_b.
  rewrite <- UserFacts.existsb_username, <- UserFacts.existsb_email.
  repeat rewrite orb_true_iff. rewrite !String.eqb_eq, Nat.ltb_lt, negb_true_iff.
  tauto.
Qed.

Lemma existsb_find {A} (p : A -> bool) (l : list A) :
  existsb p l = match find p l with Some _ => true | None => false end.
Proof.
  induction l as [|a l IH]; simpl; [reflexivity|]. destruct (p a); [reflexivity|exact IH].
Qed.

Lemma post_register_cases `{Bcrypt} (w : world) (f : register_form) :
  let nu := JS.trim (rf_username f) in
  let ne := JS.toLowerCase (JS.trim (rf_email f)) in
  let w0 := set_captcha w None in
  if register_rejected_b w f
  then exists msg, post_register w f = (setFlash w0 "error" msg, Redirect "/register")
  else post_register w f =
       (setFlash (set_user
          (mkWorld (app (users w) [mkUserRow (next_id w) nu (Some ne)
                                     (bcrypt_hash (rf_password f)) false])
                   (S (next_id w)) (settings w) (files w) (sess w0))
          (Some (mkSessionUser (next_id w) nu ne false)))
          "success" msg_account_created,
        redirect_next (rf_next f)).
Proof.
  intros nu ne w0. unfold register_rejected_b, post_register. fold nu ne w0.
  destruct (captcha_rejects _ _); [eexists; reflexivity|]. simpl orb.
  destruct (nu == ""); [eexists; reflexivity|]. simpl orb.
  destruct (rf_password f == ""); [eexists; reflexivity|]. simpl orb.
  destruct (ne == ""); [eexists; reflexivity|]. simpl orb.
  destruct (JS.length nu <? 3); [eexists; reflexivity|]. simpl orb.
  destruct (JS.emailRegex_test ne); [|eexists; reflexivity]. simpl orb.
  rewrite !existsb_find. unfold select_user_by_username, select_user_by_email.
  change (users w0) with (users w).
  destruct (find (fun u => username u == nu) (users w)) eqn:E1; [eexists; reflexivity|].
  destruct (find (email_is ne) (users w)) eqn:E2; [eexists; reflexivity|].
  unfold insert_user. change (users w0) with (users w). rewrite !existsb_find.
  rewrite E1, E2. reflexivity.
Qed.

(** C2. A [POST /register] that fails a check (captcha wrong or absent;
    trimmed username, password or trimmed lowercased email empty; trimmed
    username shorter than 3 characters; email not matching the email
    regular expression; username, or lowercased email, already in [users])
    answers with a redirect to [/register] and an error flash, and leaves
    [users] (and its id counter) unchanged; in particular an existing
    username never yields a new row. An attempt passing every check
    appends exactly one row and stores that user in the session. *)
Theorem register_validation `{Bcrypt} (w : world) (f : register_form) :
  let nu := JS.trim (rf_username f) in
  let ne := JS.toLowerCase (JS.trim (rf_email f)) in
  let (w', r) := post_register w f in
  (register_rejected w f ->
     r = Redirect "/register" /\ users w' = users w /\ next_id w' = next_id w
     /\ exists msg, sess_flash (sess w') = Some (mkFlash "error" msg))
  /\ (~ register_rejected w f ->
      users w' = app (users w) [mkUserRow (next_id w) nu (Some ne)
                                  (bcrypt_hash (rf_password f)) false]
      /\ sess_user (sess w') = Some (mkSessionUser (next_id w) nu ne false)
      /\ r = redirect_next (rf_next f)).
Proof.
  intros nu ne. pose proof (post_register_cases w f) as E. simpl in E. fold nu ne in E.
  destruct (register_rejected_b w f) eqn:Eb.
  - destruct E as [msg E]. rewrite E. split.
    + intros _. split; [reflexivity|split; [reflexivity|split; [reflexivity|]]].
      exists msg. reflexivity.
    + intros Hn. exfalso. apply Hn. apply register_rejected_reflect. exact Eb.
  - rewrite E. split.
    + intros Hr. apply register_rejected_reflect in Hr. congruence.
    + intros _. split; [reflexivity|split; reflexivity].
Qed.

(** The length check counts UTF-16 units: ['ёж'] (two units, four bytes)
    is too short, ['ёжи'] is long enough. *)
Example register_short_unicode :
  register_rejected_b (set_captcha boot_world (Some "abcde"))
    (mkRegisterForm (cps [0x451; 0x436]%Z) "yo@x.io" "pw" "abcde" "") = true
  /\ register_rejected_b (set_captcha boot_world (Some "abcde"))
    (mkRegisterForm (cps [0x451; 0x436; 0x438]%Z) "yo@x.io" "pw" "abcde" "") = false.
Proof. vm_compute. split; reflexivity. Qed.

(** ** Uploads *)

Lemma select_upsert (t : settings_table) (key value : string) :
  select_setting (upsert_setting t key value) key = Some value.
Proof.
  unfold select_setting, upsert_setting. destruct (existsb _ t) eqn:E.
  - induction t as [|[k v] t IH]; simpl in *; [discriminate|].
    destruct (String.eqb_spec k key) as [->|Hne]; simpl.
    + rewrite String.eqb_refl. reflexivity.
    + destruct (String.eqb_spec k key); [contradiction|]. apply IH. exact E.
  - induction t as [|[k v] t IH]; simpl in *.
    + rewrite String.eqb_refl. reflexivity.
    + apply orb_false_iff in E as [E1 E2]. rewrite E1. apply IH. exact E2.
Qed.

Lemma delete_previous_settings `{Bcrypt} (dirname : string) (w : world) (prev area : string) :
  settings (delete_previous dirname w prev area) = settings w.
Proof.
  unfold delete_previous. destruct (_ && _); [|reflexivity].
  destruct (toAbsolutePath dirname prev); [|reflexivity].
  destruct (file_exists w _); reflexivity.
Qed.

Definition image_upload_rejected (m : multer_input) : bool :=
  match m with FilePart f => negb (image_filter f) | _ => true end.

Definition zip_upload_rejected (m : multer_input) : bool :=
  match m with FilePart f => negb (zip_filter f) | _ => true end.

(** C8. The image slot accepts a file exactly when its MIME type starts
    with [image/], the archive slot exactly when its lowercased original
    name ends with [.zip]. An accepted file becomes the slot's setting and
    is answered with the success flash. A rejected file, a missing file (or
    a file under another field name) is answered with an error flash and a
    redirect to [/admin], with the settings and the files on disk as they
    were: no setting changed, no file deleted or written. *)
Theorem upload_allow_lists `{Bcrypt} (dirname : string) (w : world) (now : nat) :
  (forall f, image_upload_rejected (FilePart f) = true
             <-> JS.startsWith (mimetype f) "image/" = false)
  /\ (forall f, zip_upload_rejected (FilePart f) = true
                <-> JS.endsWith (JS.toLowerCase (originalname f)) ".zip" = false)
  /\ (forall m, image_upload_rejected m = true ->
        let (w', r) := upload_image dirname w m now in
        r = Redirect "/admin" /\ settings w' = settings w /\ files w' = files w
        /\ exists msg, sess_flash (sess w') = Some (mkFlash "error" msg))
  /\ (forall m, zip_upload_rejected m = true ->
        let (w', r) := upload_zip dirname w m now in
        r = Redirect "/admin" /\ settings w' = settings w /\ files w' = files w
        /\ exists msg, sess_flash (sess w') = Some (mkFlash "error" msg))
  /\ (forall f, JS.startsWith (mimetype f) "image/" = true ->
        let (w', r) := upload_image dirname w (FilePart f) now in
        r = Redirect "/admin"
        /\ select_setting (settings w') "cheat_image_url"
           = Some ("/uploads/" ++ image_filename f now)
        /\ sess_flash (sess w') = Some (mkFlash "success" msg_image_updated))
  /\ (forall f, JS.endsWith (JS.toLowerCase (originalname f)) ".zip" = true ->
        let (w', r) := upload_zip dirname w (FilePart f) now in
        r = Redirect "/admin"
        /\ select_setting (settings w') "cheat_zip_path"
           = Some (Path.join ["downloads"; zip_filename f now])
        /\ sess_flash (sess w') = Some (mkFlash "success" msg_zip_updated)).
Proof.
  split; [|split; [|split; [|split; [|split]]]].
  - intros f. simpl. unfold image_filter. rewrite negb_true_iff. reflexivity.
  - intros f. simpl. unfold zip_filter. rewrite negb_true_iff. reflexivity.
  - intros m Hm. destruct m as [|f|]; simpl in Hm |- *.
    + repeat split. eexists. reflexivity.
    + rewrite negb_true_iff in Hm. rewrite Hm. simpl. repeat split. eexists. reflexivity.
    + repeat split. eexists. reflexivity.
  - intros m Hm. destruct m as [|f|]; simpl in Hm |- *.
    + repeat split. eexists. reflexivity.
    + rewrite negb_true_iff in Hm. rewrite Hm. simpl. repeat split. eexists. reflexivity.
    + repeat split. eexists. reflexivity.
  - intros f Hf. unfold upload_image, image_filter. rewrite Hf. simpl negb. cbv iota.
    split; [reflexivity|split; [|reflexivity]]. simpl settings.
    apply select_upsert.
  - intros f Hf. unfold upload_zip, zip_filter. rewrite Hf. simpl negb. cbv iota.
    split; [reflexivity|split; [|reflexivity]]. simpl settings.
    apply select_upsert.
Qed.

Lemma upload_allow_lists_witness :
  image_upload_rejected (FilePart (mkFilePart "cheat.exe" "application/octet-stream")) = true
  /\ settings (fst (upload_image app_dir boot_world
                      (FilePart (mkFilePart "cheat.exe" "application/octet-stream")) 7))
     = settings boot_world.
Proof.
  assert (Hr : image_upload_rejected
                 (FilePart (mkFilePart "cheat.exe" "application/octet-stream")) = true)
    by reflexivity.
  split; [exact Hr|].
  pose proof (proj1 (proj2 (proj2 (upload_allow_lists app_dir boot_world 7))) _ Hr) as T.
  destruct (upload_image _ _ _ _) as [w' r]. exact (proj1 (proj2 T)).
Defined.

Definition admin_user : session_user := mkSessionUser 1 "RURI" "" true.

(** An install at [/app] after one image and one archive upload. *)
Definition uploaded_world : world :=
  mkWorld (users boot_world) 2
    [("cheat_image_url", "/uploads/cheat-1.png"); ("cheat_zip_path", "downloads/whitecore-1.zip")]
    ["/app/uploads/cheat-1.png"; "/app/downloads/whitecore-1.zip"]
    (mkSession (Some admin_user) None None).

(** C3 (evaluation at the failing input). With [__dirname = /app], the
    image setting [/uploads/cheat-1.png] and its file at
    [/app/uploads/cheat-1.png], uploading a new image points the setting to
    [/uploads/cheat-2.png] but leaves the old file on disk:
    [toAbsolutePath] returns [/uploads/cheat-1.png] unchanged because it is
    already absolute, and no file exists there. The archive slot, at the
    same point, does delete [/app/downloads/whitecore-1.zip]. *)
Theorem image_replacement_keeps_old_upload :
  let (w1, r1) := app_step app_dir uploaded_world
        (rq "/admin/upload-image"
            (PostUploadImage (FilePart (mkFilePart "new.png" "image/png")) 2)) in
  let (w2, r2) := app_step app_dir uploaded_world
        (rq "/admin/upload-zip"
            (PostUploadZip (FilePart (mkFilePart "new.zip" "application/zip")) 2)) in
  r1 = Redirect "/admin"
  /\ select_setting (settings w1) "cheat_image_url" = Some "/uploads/cheat-2.png"
  /\ toAbsolutePath app_dir "/uploads/cheat-1.png" = Some "/uploads/cheat-1.png"
  /\ In "/app/uploads/cheat-1.png" (files w1)
  /\ In "/app/uploads/cheat-2.png" (files w1)
  /\ r2 = Redirect "/admin"
  /\ select_setting (settings w2) "cheat_zip_path" = Some "downloads/whitecore-2.zip"
  /\ ~ In "/app/downloads/whitecore-1.zip" (files w2).
Proof.
  vm_compute. split; [reflexivity|split; [reflexivity|split; [reflexivity|]]].
  split; [tauto|split; [tauto|split; [reflexivity|split; [reflexivity|]]]].
  intros [E|[E|[]]]; discriminate.
Qed.

(** ** The captcha *)

Definition captcha_check_target (r : route) : option string :=
  match r with
  | PostRegister _ => Some "/register"
  | PostLogin _ => Some "/login"
  | _ => None
  end.

Definition fetches_captcha (r : route) : bool :=
  match r with GetCaptcha _ => true | _ => false end.

Module CaptchaFacts.

Lemma post_register_captcha `{Bcrypt} (w : world) (f : register_form) :
  sess_captcha (sess (fst (post_register w f))) = None.
Proof.
  pose proof (post_register_cases w f) as E. simpl in E.
  destruct (register_rejected_b w f).
  - destruct E as [msg E]. rewrite E. reflexivity.
  - rewrite E. reflexivity.
Qed.

Lemma post_login_captcha `{Bcrypt} (w : world) (f : login_form) :
  sess_captcha (sess (fst (post_login w f))) = None.
Proof.
  unfold post_login. destruct (captcha_rejects _ _); [reflexivity|].
  destruct (select_user_login _ _ _); [|reflexivity].
  destruct (bcrypt_compare _ _); reflexivity.
Qed.

Lemma delete_previous_sess `{Bcrypt} (dirname : string) (w : world) (prev area : string) :
  sess (delete_previous dirname w prev area) = sess w.
Proof.
  unfold delete_previous. destruct (_ && _); [|reflexivity].
  destruct (toAbsolutePath dirname prev); [|reflexivity].
  destruct (file_exists w _); reflexivity.
Qed.

Lemma upload_image_captcha `{Bcrypt} (dirname : string) (w : world) (m : multer_input) (now : nat) :
  sess_captcha (sess (fst (upload_image dirname w m now))) = sess_captcha (sess w).
Proof.
  unfold upload_image. destruct m as [|f|]; [reflexivity| |reflexivity].
  destruct (negb (image_filter f)); [reflexivity|]. simpl.
  rewrite delete_previous_sess. reflexivity.
Qed.

Lemma upload_zip_captcha `{Bcrypt} (dirname : string) (w : world) (m : multer_input) (now : nat) :
  sess_captcha (sess (fst (upload_zip dirname w m now))) = sess_captcha (sess w).
Proof.
  unfold upload_zip. destruct m as [|f|]; [reflexivity| |reflexivity].
  destruct (negb (zip_filter f)); [reflexivity|]. simpl.
  rewrite delete_previous_sess. reflexivity.
Qed.

Lemma get_download_captcha `{Bcrypt} (dirname : string) (w : world) :
  sess_captcha (sess (fst (get_download dirname w))) = sess_captcha (sess w).
Proof.
  unfold get_download. destruct (toAbsolutePath _ _); [|reflexivity].
  destruct (negb (file_exists w _)); reflexivity.
Qed.

Lemma gated_captcha (g : option response) (w : world) (h : world * response) :
  sess_captcha (sess (fst h)) = sess_captcha (sess w) ->
  sess_captcha (sess (fst (gated g w h))) = sess_captcha (sess w).
Proof. destruct g; simpl; auto. Qed.

(** Only [GET /captcha] stores an answer. *)
Lemma step_keeps_no_captcha `{Bcrypt} (dirname : string) (w : world) (rq : request) :
  fetches_captcha (rroute rq) = false -> sess_captcha (sess w) = None ->
  sess_captcha (sess (fst (app_step dirname w rq))) = None.
Proof.
  intros Hf Hw. unfold app_step. destruct (static_layer _ _ _); [exact Hw|].
  simpl. unfold route_handle.
  set (w0 := set_flash_field w None).
  assert (H0 : sess_captcha (sess w0) = None) by exact Hw.
  destruct (rroute rq); try discriminate; try exact H0.
  - apply post_register_captcha.
  - apply post_login_captcha.
  - unfold gated. destruct (requireAuth _ _); [exact H0|reflexivity].
  - rewrite gated_captcha; [exact H0|]. apply get_download_captcha.
  - rewrite gated_captcha; [exact H0|]. reflexivity.
  - rewrite gated_captcha; [exact H0|]. apply upload_image_captcha.
  - rewrite gated_captcha; [exact H0|]. apply upload_zip_captcha.
Qed.

Lemma run_keeps_no_captcha `{Bcrypt} (dirname : string) (rqs : list request) :
  forall w, forallb (fun r => negb (fetches_captcha (rroute r))) rqs = true ->
  sess_captcha (sess w) = None -> sess_captcha (sess (run dirname w rqs)) = None.
Proof.
  induction rqs as [|r rqs IH]; intros w Hall Hw; simpl in *; [exact Hw|].
  apply andb_true_iff in Hall as [Hr Hall]. apply negb_true_iff in Hr.
  apply IH; [exact Hall|]. apply step_keeps_no_captcha; assumption.
Qed.

Lemma check_clears_captcha `{Bcrypt} (dirname : string) (w : world) (rq : request) :
  captcha_check_target (rroute rq) <> None ->
  sess_captcha (sess (fst (app_step dirname w rq))) = None.
Proof.
  intros Ht. unfold app_step, static_layer.
  destruct (rroute rq) eqn:R; try (exfalso; apply Ht; reflexivity); simpl;
    unfold route_handle; rewrite R.
  - apply post_register_captcha.
  - apply post_login_captcha.
Qed.

Lemma check_without_captcha `{Bcrypt} (dirname : string) (w : world) (rq : request)
  (target : string) :
  sess_captcha (sess w) = None -> captcha_check_target (rroute rq) = Some target ->
  app_step dirname w rq
  = (setFlash (set_captcha (set_flash_field w None) None) "error" msg_bad_captcha,
     Redirect target).
Proof.
  intros Hw Ht. unfold app_step, static_layer.
  destruct (rroute rq) eqn:R; try discriminate; simpl in Ht; injection Ht as <-;
    simpl; unfold route_handle; rewrite R.
  - unfold post_register. simpl. rewrite Hw. reflexivity.
  - unfold post_login. simpl. rewrite Hw. reflexivity.
Qed.

End CaptchaFacts.

(** C1. The answer stored by [GET /captcha] (lowercased) passes at most one
    check. Every [POST /register] and [POST /login] nulls the session's
    answer before comparing, whatever the comparison gives; the comparison
    lowercases the submitted text and needs a non-empty stored answer.
    Hence after one check, and any further requests none of which is
    [GET /captcha], the next check fails with the bad-captcha flash and a
    redirect back to its form; a check with no answer outstanding fails the
    same way. *)
Theorem captcha_single_use `{Bcrypt} (dirname : string) (w : world) (rq1 rq2 : request)
  (between : list request) (target : string)
  (H1 : captcha_check_target (rroute rq1) <> None)
  (Hb : forallb (fun r => negb (fetches_captcha (rroute r))) between = true)
  (H2 : captcha_check_target (rroute rq2) = Some target) :
  (forall s c, captcha_rejects (Some s) c = false <-> s <> "" /\ JS.toLowerCase c = s)
  /\ (sess_captcha (sess w) = None ->
      app_step dirname w rq2
      = (setFlash (set_captcha (set_flash_field w None) None) "error" msg_bad_captcha,
         Redirect target))
  /\ (let w1 := fst (app_step dirname w rq1) in
      let w2 := run dirname w1 between in
      sess_captcha (sess w1) = None
      /\ snd (app_step dirname w2 rq2) = Redirect target
      /\ sess_flash (sess (fst (app_step dirname w2 rq2)))
         = Some (mkFlash "error" msg_bad_captcha)).
Proof.
  split; [|split].
  - intros s c. unfold captcha_rejects.
    rewrite orb_false_iff, negb_false_iff, String.eqb_eq.
    destruct (String.eqb_spec s "") as [->|Hne]; split.
    + intros [E _]. discriminate.
    + intros [E _]. contradiction.
    + intros [_ E]. split; assumption.
    + intros [_ E]. split; [reflexivity|exact E].
  - intros Hw. apply CaptchaFacts.check_without_captcha; assumption.
  - intros w1 w2.
    assert (Hw1 : sess_captcha (sess w1) = None)
      by (apply CaptchaFacts.check_clears_captcha; exact H1).
    assert (Hw2 : sess_captcha (sess w2) = None)
      by (apply CaptchaFacts.run_keeps_no_captcha; assumption).
    rewrite (CaptchaFacts.check_without_captcha dirname w2 rq2 target Hw2 H2).
    split; [exact Hw1|split; reflexivity].
Qed.

Lemma captcha_single_use_witness :
  snd (app_step app_dir
         (run app_dir
            (fst (app_step app_dir (set_captcha boot_world (Some "abcde"))
                    (rq "/login" (PostLogin (mkLoginForm "RURI" "Wat3hahak" "ABCDE" "/")))))
            [rq "/" GetIndex])
         (rq "/register" (PostRegister (mkRegisterForm "bob" "bob@x.io" "pw" "ABCDE" "/"))))
  = Redirect "/register".
Proof.
  refine (proj1 (proj2 (proj2 (proj2
    (captcha_single_use app_dir (set_captcha boot_world (Some "abcde"))
       (rq "/login" (PostLogin (mkLoginForm "RURI" "Wat3hahak" "ABCDE" "/")))
       (rq "/register" (PostRegister (mkRegisterForm "bob" "bob@x.io" "pw" "ABCDE" "/")))
       [rq "/" GetIndex] "/register" _ _ _)))));
    [discriminate | reflexivity | reflexivity].
Defined.

(** ** The flash message *)



(** The static-file handlers on a few paths: a folder of [public/] and the
    mount point [/uploads] are redirected with a [/] added (the query kept),
    files are served (percent-decoded, the mount matched in any letter
    case), and a dot-file, a folder without [index.html] or a [..] segment
    falls through to the routes. *)
Example static_layer_ex :
  let w := mkWorld (users boot_world) (next_id boot_world) (settings boot_world)
             ["/app/public/img/logo.png"; "/app/public/.env"; "/app/uploads/cheat 1.png"]
             empty_session in
  map (static_layer app_dir w)
    [rq "/img?v=2" GetOther; rq "/uploads" GetOther; rq "/img/logo.png" GetOther;
     rq "/uploads/cheat%201.png" GetOther; rq "/UPLOADS/cheat%201.png?x" GetOther;
     rq "/.env" GetOther; rq "/img/../.env" GetOther; rq "/img/" GetOther;
     rq "/../app/public/img/logo.png" GetOther]
  = [Some (MovedPermanently "/img/?v=2"); Some (MovedPermanently "/uploads/");
     Some (StaticFile "/app/public/img/logo.png"); Some (StaticFile "/app/uploads/cheat 1.png");
     Some (StaticFile "/app/uploads/cheat 1.png"); None; None; None; None].
Proof. vm_compute. reflexivity. Qed.



(** * Beyond the claims *)

(** ** Start-up ([ensureAdminUser], [bootstrap]) *)

(** [ensureAdminUser]: the seeded admin, inserted with a NULL email unless a
    row named [RURI] exists. *)
Definition ensureAdminUser `{Bcrypt} (w : world) : option (world * nat) :=
  match select_user_by_username (users w) "RURI" with
  | Some existing => Some (w, id existing)
  | None => insert_user w "RURI" None (bcrypt_hash "Wat3hahak") true
  end.

(** The non-NULL emails of [users], in row order. *)
Definition emails (us : list user_row) : list string :=
  flat_map (fun u => match email u with Some e => [e] | None => [] end) us.

(** Two equal entries in the list. *)
Fixpoint has_dup (l : list string) : bool :=
  match l with
  | [] => false
  | x :: r => existsb (String.eqb x) r || has_dup r
  end.

(** [bootstrap]. Of the schema statements only
    [CREATE UNIQUE INDEX IF NOT EXISTS idx_users_email ... WHERE email IS NOT NULL]
    can fail on the data: when two rows share a non-NULL email (the index
    cannot exist then). The other statements change no rows. Then the two
    [ensureSetting] calls and [ensureAdminUser]. [None] is a rejected
    promise, on which the process exits. *)
Definition bootstrap `{Bcrypt} (w : world) : option world :=
  if has_dup (emails (users w)) then None else
  match ensureSetting (settings w) "cheat_image_url" DEFAULT_IMAGE_URL with
  | None => None
  | Some (_, t1) =>
      match ensureSetting t1 "cheat_zip_path" DEFAULT_ZIP_PATH with
      | None => None
      | Some (_, t2) =>
          match ensureAdminUser (set_settings w t2) with
          | None => None
          | Some (w', _) => Some w'
          end
      end
  end.

Module BootFacts.

Lemma ensure_some (t : settings_table) (key fallback : string) :
  ensureSetting t key fallback
  = Some (getSetting t key fallback,
          match select_setting t key with Some _ => t | None => app t [(key, fallback)] end).
Proof.
  unfold ensureSetting, getSetting. destruct (select_setting t key) eqn:E; [reflexivity|].
  unfold insert_setting. apply SettingsFacts.select_none in E.
  destruct (existsb _ t) eqn:Ex; [apply SettingsFacts.existsb_key in Ex; contradiction|].
  reflexivity.
Qed.

Lemma select_app_some (t x : settings_table) (key v : string) :
  select_setting t key = Some v -> select_setting (app t x) key = Some v.
Proof.
  unfold select_setting. induction t as [|[k v'] t IH]; simpl; [discriminate|].
  destruct (k == key); [tauto|exact IH].
Qed.

Lemma select_app_new (t : settings_table) (key v : string) :
  select_setting t key = None -> select_setting (app t [(key, v)]) key = Some v.
Proof.
  unfold select_setting. induction t as [|[k v'] t IH]; simpl.
  - rewrite String.eqb_refl. reflexivity.
  - destruct (k == key); [discriminate|exact IH].
Qed.

Lemma select_after_ensure (t : settings_table) (key fb k : string) :
  select_setting t k <> None ->
  select_setting (match select_setting t key with Some _ => t
                  | None => app t [(key, fb)] end) k <> None.
Proof.
  destruct (select_setting t key); [tauto|].
  destruct (select_setting t k) eqn:E; [|tauto]. intros _.
  rewrite (select_app_some _ _ _ _ E). discriminate.
Qed.

Lemma select_ensured (t : settings_table) (key fb : string) :
  select_setting (match select_setting t key with Some _ => t
                  | None => app t [(key, fb)] end) key <> None.
Proof.
  destruct (select_setting t key) eqn:E; [rewrite E; discriminate|].
  rewrite select_app_new by exact E. discriminate.
Qed.

Lemma admin_some `{Bcrypt} (w : world) :
  exists w' n, ensureAdminUser w = Some (w', n)
    /\ settings w' = settings w /\ sess w' = sess w /\ files w' = files w
    /\ (exists u, In u (users w') /\ username u = "RURI")
    /\ (select_user_by_username (users w) "RURI" = None ->
        users w' = app (users w) [mkUserRow (next_id w) "RURI" None (bcrypt_hash "Wat3hahak") true])
    /\ (select_user_by_username (users w) "RURI" <> None -> w' = w).
Proof.
  unfold ensureAdminUser. destruct (select_user_by_username (users w) "RURI") as [u|] eqn:E.
  - exists w, (id u). split; [reflexivity|]. repeat split.
    + unfold select_user_by_username in E. apply find_some in E as [Hin Hu].
      exists u. split; [exact Hin|apply String.eqb_eq; exact Hu].
    + discriminate.
  - unfold insert_user. rewrite existsb_find. unfold select_user_by_username in E.
    rewrite E. simpl.
    eexists; eexists. split; [reflexivity|]. repeat split.
    + exists (mkUserRow (next_id w) "RURI" None (bcrypt_hash "Wat3hahak") true).
      split; [apply in_or_app; right; left; reflexivity|reflexivity].
    + intros C. contradiction.
Qed.

Lemma select_app_other (t : settings_table) (key k v : string) :
  k <> key -> select_setting (app t [(key, v)]) k = select_setting t k.
Proof.
  intros Hk. unfold select_setting. induction t as [|[k' v'] t IH]; simpl.
  - destruct (String.eqb_spec key k); [congruence|reflexivity].
  - destruct (k' == k); [reflexivity|exact IH].
Qed.

Lemma select_ensured_other (t : settings_table) (key fb k : string) :
  k <> key ->
  select_setting (match select_setting t key with Some _ => t
                  | None => app t [(key, fb)] end) k = select_setting t k.
Proof.
  intros Hk. destruct (select_setting t key); [reflexivity|].
  apply select_app_other. exact Hk.
Qed.

Lemma get_ensured (t : settings_table) (key fb : string) :
  getSetting (match select_setting t key with Some _ => t
              | None => app t [(key, fb)] end) key fb = getSetting t key fb.
Proof.
  unfold getSetting. destruct (select_setting t key) eqn:E; [rewrite E; reflexivity|].
  rewrite select_app_new by exact E. reflexivity.
Qed.

Lemma has_dup_false (l : list string) : has_dup l = false <-> NoDup l.
Proof.
  induction l as [|x l IH]; cbn [has_dup].
  - split; [constructor|reflexivity].
  - rewrite orb_false_iff, IH. split.
    + intros [Hx Hl]. constructor; [|exact Hl]. intros Hin.
      assert (existsb (String.eqb x) l = true)
        by (apply existsb_exists; exists x; split; [exact Hin|apply String.eqb_refl]).
      congruence.
    + intros Hn. inversion Hn as [|? ? Hx Hl]; subst. split; [|exact Hl].
      destruct (existsb (String.eqb x) l) eqn:E; [|reflexivity].
      apply existsb_exists in E as [y [Hy Ey]]. apply String.eqb_eq in Ey. subst y.
      contradiction.
Qed.

Lemma ensure_present (t : settings_table) (key fb : string) :
  select_setting t key <> None -> ensureSetting t key fb = Some (getSetting t key fb, t).
Proof.
  intros Hs. rewrite ensure_some. destruct (select_setting t key); [reflexivity|].
  contradiction.
Qed.

End BootFacts.

(** Start-up fails (and the process exits) exactly when two rows share a
    non-NULL email, as the unique index on [email] cannot be created then.
    Otherwise it leaves both settings present (a stored value is kept, an
    absent one gets its default) and a [RURI] row in [users]; when no
    [RURI] row existed, exactly the admin row (admin flag set, NULL email)
    is appended. A second start-up on the result changes nothing. *)
Theorem bootstrap_establishes_and_idempotent `{Bcrypt} (w : world) :
  (~ NoDup (emails (users w)) -> bootstrap w = None)
  /\ (NoDup (emails (users w)) ->
  exists w', bootstrap w = Some w'
    /\ getSetting (settings w') "cheat_image_url" DEFAULT_IMAGE_URL
       = getSetting (settings w) "cheat_image_url" DEFAULT_IMAGE_URL
    /\ getSetting (settings w') "cheat_zip_path" DEFAULT_ZIP_PATH
       = getSetting (settings w) "cheat_zip_path" DEFAULT_ZIP_PATH
    /\ select_setting (settings w') "cheat_image_url" <> None
    /\ select_setting (settings w') "cheat_zip_path" <> None
    /\ (exists u, In u (users w') /\ username u = "RURI")
    /\ (select_user_by_username (users w) "RURI" = None ->
        users w' = app (users w)
                     [mkUserRow (next_id w) "RURI" None (bcrypt_hash "Wat3hahak") true])
    /\ bootstrap w' = Some w').
Proof.
  split.
  - intros Hd. unfold bootstrap. destruct (has_dup (emails (users w))) eqn:E; [reflexivity|].
    exfalso. apply Hd. apply BootFacts.has_dup_false. exact E.
  - intros Hd.
    assert (E0 : has_dup (emails (users w)) = false) by (apply BootFacts.has_dup_false; exact Hd).
    unfold bootstrap. rewrite E0. rewrite BootFacts.ensure_some, BootFacts.ensure_some.
    set (t1 := match select_setting (settings w) "cheat_image_url" with
               | Some _ => settings w
               | None => app (settings w) [("cheat_image_url", DEFAULT_IMAGE_URL)] end).
    set (t2 := match select_setting t1 "cheat_zip_path" with
               | Some _ => t1
               | None => app t1 [("cheat_zip_path", DEFAULT_ZIP_PATH)] end).
    destruct (BootFacts.admin_some (set_settings w t2))
      as (w' & n & E & Hs & _ & _ & Hu & Hnew & Hold).
    rewrite E. simpl in Hs, Hnew, Hold. exists w'.
    assert (Ed : emails (users w') = emails (users w)).
    { destruct (select_user_by_username (users w) "RURI") eqn:Es.
      - rewrite Hold by discriminate. reflexivity.
      - rewrite (Hnew eq_refl). unfold emails. rewrite flat_map_app. cbn.
        apply app_nil_r. }
    assert (Ho : "cheat_image_url" <> "cheat_zip_path") by discriminate.
    assert (Hi1 : select_setting t2 "cheat_image_url" = select_setting t1 "cheat_image_url")
      by (apply BootFacts.select_ensured_other; exact Ho).
    assert (Hi2 : select_setting t1 "cheat_image_url" <> None)
      by apply BootFacts.select_ensured.
    assert (Hz : select_setting t2 "cheat_zip_path" <> None)
      by apply BootFacts.select_ensured.
    split; [reflexivity|]. rewrite Hs.
    split; [unfold getSetting at 1; rewrite Hi1; apply BootFacts.get_ensured|].
    split; [unfold t2; rewrite BootFacts.get_ensured; unfold getSetting, t1;
            rewrite BootFacts.select_ensured_other by congruence; reflexivity|].
    split; [rewrite Hi1; exact Hi2|].
    split; [exact Hz|].
    split; [exact Hu|].
    split; [exact Hnew|].
    rewrite Ed, E0.
    rewrite (BootFacts.ensure_present t2 "cheat_image_url" DEFAULT_IMAGE_URL)
      by (rewrite Hi1; exact Hi2).
    rewrite (BootFacts.ensure_present t2 "cheat_zip_path" DEFAULT_ZIP_PATH) by exact Hz.
    assert (Ew : set_settings w' t2 = w') by (rewrite <- Hs; destruct w'; reflexivity).
    rewrite Ew. unfold ensureAdminUser.
    destruct (select_user_by_username (users w') "RURI") as [u|] eqn:Es; [reflexivity|].
    exfalso. destruct Hu as [u [Hin Hn]].
    unfold select_user_by_username in Es. rewrite UserFacts.find_none_iff in Es.
    specialize (Es u Hin). rewrite Hn in Es. discriminate.
Qed.

(** Two rows with the email [a@b.c]: start-up fails. *)
Example bootstrap_duplicate_emails :
  bootstrap (mkWorld [mkUserRow 1 "ann" (Some "a@b.c") "h1" false;
                      mkUserRow 2 "bob" (Some "a@b.c") "h2" false] 3 [] [] empty_session)
  = None.
Proof. reflexivity. Qed.

(** The data start-up produces on an empty database is [boot_world]'s. *)
Example bootstrap_empty :
  bootstrap (mkWorld [] 1 [] [] empty_session) = Some boot_world.
Proof. vm_compute. reflexivity. Qed.

(** ** Invariants of the tables over any sequence of requests *)


(** The UNIQUE constraints and the AUTOINCREMENT counter, and emails stored
    in lower case. *)
Definition users_ok (w : world) : Prop :=
  NoDup (map username (users w))
  /\ NoDup (emails (users w))
  /\ NoDup (map id (users w))
  /\ (forall u, In u (users w) -> id u < next_id w)
  /\ (forall u e, In u (users w) -> email u = Some e -> JS.toLowerCase e = e).

Module DbFacts.

Lemma in_emails (us : list user_row) (e : string) :
  In e (emails us) <-> exists u, In u us /\ email u = Some e.
Proof.
  unfold emails. rewrite in_flat_map. split.
  - intros [u [Hu He]]. exists u. split; [exact Hu|].
    destruct (email u); [destruct He as [<-|[]]; reflexivity|destruct He].
  - intros [u [Hu He]]. exists u. split; [exact Hu|]. rewrite He. left. reflexivity.
Qed.

Lemma emails_app (us vs : list user_row) : emails (app us vs) = app (emails us) (emails vs).
Proof. unfold emails. apply flat_map_app. Qed.

Lemma nodup_snoc {A} (l : list A) (x : A) : NoDup l -> ~ In x l -> NoDup (app l [x]).
Proof.
  intros Hd Hn. apply NoDup_app; [exact Hd|constructor; [tauto|constructor]|].
  intros y Hy [E|[]]. subst. contradiction.
Qed.

Lemma insert_user_ok (w w' : world) (name : string) (e : option string) (h : string)
  (a : bool) (n : nat) :
  users_ok w -> (forall e', e = Some e' -> JS.toLowerCase e' = e') ->
  insert_user w name e h a = Some (w', n) -> users_ok w'.
Proof.
  intros (Hn & He & Hi & Hlt & Hl) Hel. unfold insert_user.
  destruct (existsb _ (users w)) eqn:Eu; [discriminate|].
  assert (Hfresh : ~ In name (map username (users w))).
  { rewrite in_map_iff. intros [u [Eun Hu]].
    assert (C : existsb (fun u => username u == name) (users w) = true)
      by (apply UserFacts.existsb_username; exists u; auto). congruence. }
  assert (Hid : ~ In (next_id w) (map id (users w))).
  { rewrite in_map_iff. intros [u [Eid Hu]]. specialize (Hlt u Hu). lia. }
  assert (Hem : match e with Some e0 => existsb (email_is e0) (users w) | None => false end
                = false -> NoDup (emails (app (users w) [mkUserRow (next_id w) name e h a]))).
  { intros Ec. rewrite emails_app. destruct e as [e0|]; simpl.
    - apply nodup_snoc; [exact He|]. rewrite in_emails. intros [u [Hu Eu']].
      assert (C : existsb (email_is e0) (users w) = true)
        by (apply UserFacts.existsb_email; exists u; auto). congruence.
    - rewrite app_nil_r. exact He. }
  destruct (match e with Some e0 => existsb (email_is e0) (users w) | None => false end)
    eqn:Ec; [discriminate|].
  simpl. intros Hs. injection Hs as <- _. unfold users_ok. simpl.
  split; [rewrite map_app; apply nodup_snoc; assumption|].
  split; [apply Hem; reflexivity|].
  split; [rewrite map_app; apply nodup_snoc; assumption|].
  split.
  - intros u Hu. apply in_app_or in Hu as [Hu|[<-|[]]]; [specialize (Hlt u Hu); lia|simpl; lia].
  - intros u e' Hu Hue. apply in_app_or in Hu as [Hu|[<-|[]]]; [exact (Hl u e' Hu Hue)|].
    apply Hel. exact Hue.
Qed.

(** How one step can change the tables. *)
Definition db_step (w w' : world) : Prop :=
  ((users w' = users w /\ next_id w' = next_id w)
   \/ exists name e h a n w'', insert_user w name e h a = Some (w'', n)
       /\ (forall e', e = Some e' -> JS.toLowerCase e' = e')
       /\ users w' = users w'' /\ next_id w' = next_id w'')
  /\ (settings w' = settings w
      \/ exists k v, settings w' = upsert_setting (settings w) k v).

Ltac db_same := left; split; reflexivity.

Lemma delete_previous_db `{Bcrypt} (dirname : string) (w : world) (prev area : string) :
  users (delete_previous dirname w prev area) = users w
  /\ next_id (delete_previous dirname w prev area) = next_id w.
Proof.
  unfold delete_previous. destruct (_ && _); [|split; reflexivity].
  destruct (toAbsolutePath dirname prev); [|split; reflexivity].
  destruct (file_exists w _); split; reflexivity.
Qed.

Lemma upload_image_db `{Bcrypt} (dirname : string) (w : world) (m : multer_input) (now : nat) :
  db_step w (fst (upload_image dirname w m now)).
Proof.
  unfold upload_image. destruct m as [|f|]; [split; [db_same|left; reflexivity]| |
                                            split; [db_same|left; reflexivity]].
  destruct (negb (image_filter f)); [split; [db_same|left; reflexivity]|]. simpl.
  set (w1 := write_file w _). set (w2 := delete_previous dirname w1 _ _).
  destruct (delete_previous_db dirname w1
              (getSetting (settings w1) "cheat_image_url" DEFAULT_IMAGE_URL) "/uploads/")
    as [E1 E2].
  split; [left; split; [exact E1|exact E2]|]. right.
  do 2 eexists. simpl. unfold setSetting. try unfold w2. rewrite delete_previous_settings.
  reflexivity.
Qed.

Lemma upload_zip_db `{Bcrypt} (dirname : string) (w : world) (m : multer_input) (now : nat) :
  db_step w (fst (upload_zip dirname w m now)).
Proof.
  unfold upload_zip. destruct m as [|f|]; [split; [db_same|left; reflexivity]| |
                                          split; [db_same|left; reflexivity]].
  destruct (negb (zip_filter f)); [split; [db_same|left; reflexivity]|]. simpl.
  set (w1 := write_file w _).
  destruct (delete_previous_db dirname w1
              (getSetting (settings w1) "cheat_zip_path" DEFAULT_ZIP_PATH) "downloads")
    as [E1 E2].
  split; [left; split; [exact E1|exact E2]|]. right.
  do 2 eexists. simpl. unfold setSetting. try unfold w2. rewrite delete_previous_settings.
  reflexivity.
Qed.

Lemma post_login_db `{Bcrypt} (w : world) (f : login_form) :
  db_step w (fst (post_login w f)).
Proof.
  unfold post_login. destruct (captcha_rejects _ _); [split; [db_same|left; reflexivity]|].
  destruct (select_user_login _ _ _); [|split; [db_same|left; reflexivity]].
  destruct (bcrypt_compare _ _); split; [db_same|left; reflexivity|db_same|left; reflexivity].
Qed.

Lemma post_register_db `{Bcrypt} (w : world) (f : register_form) :
  db_step w (fst (post_register w f)).
Proof.
  pose proof (post_register_cases w f) as E. simpl in E.
  destruct (register_rejected_b w f) eqn:Eb.
  - destruct E as [msg E]. rewrite E. split; [db_same|left; reflexivity].
  - rewrite E. split; [|left; reflexivity]. right.
    unfold register_rejected_b in Eb. repeat rewrite orb_false_iff in Eb.
    destruct Eb as [[[[[[[_ _] _] _] _] _] Eu] Ee].
    exists (JS.trim (rf_username f)), (Some (JS.toLowerCase (JS.trim (rf_email f)))),
      (bcrypt_hash (rf_password f)), false.
    do 2 eexists. split.
    + unfold insert_user. simpl. rewrite Eu, Ee. reflexivity.
    + split; [intros e' He'; injection He' as <-; apply LowerFacts.toLowerCase_idem|].
      split; reflexivity.
Qed.

Lemma get_download_db `{Bcrypt} (dirname : string) (w : world) :
  db_step w (fst (get_download dirname w)).
Proof.
  unfold get_download. destruct (toAbsolutePath _ _); [|split; [db_same|left; reflexivity]].
  destruct (negb (file_exists w _)); split; [db_same|left; reflexivity|db_same|left; reflexivity].
Qed.

Lemma db_step_flash (w w' : world) (fl : option flash) :
  db_step (set_flash_field w fl) w' -> db_step w w'.
Proof.
  intros [[A|(name & e & h & a & n & w'' & Ei & He & Eu & En)] S]; split; try exact S.
  - left. exact A.
  - right. unfold insert_user in Ei. simpl in Ei.
    destruct (_ || _) eqn:C in Ei; [discriminate|]. injection Ei as <- <-.
    exists name, e, h, a, (next_id w).
    eexists. split; [unfold insert_user; rewrite C; reflexivity|].
    split; [exact He|]. split; [exact Eu|exact En].
Qed.

Lemma gated_db (g : option response) (w : world) (h : world * response) :
  db_step w (fst h) -> db_step w (fst (gated g w h)).
Proof. destruct g; simpl; [split; [db_same|left; reflexivity]|exact (fun H => H)]. Qed.

Lemma app_step_db `{Bcrypt} (dirname : string) (w : world) (rq : request) :
  db_step w (fst (app_step dirname w rq)).
Proof.
  unfold app_step. destruct (static_layer _ _ _); [split; [db_same|left; reflexivity]|].
  simpl. apply (db_step_flash _ _ None). unfold route_handle.
  destruct (rroute rq); try (split; [db_same|left; reflexivity]).
  - apply post_register_db.
  - apply post_login_db.
  - apply gated_db. split; [db_same|left; reflexivity].
  - apply gated_db, get_download_db.
  - apply gated_db. split; [db_same|left; reflexivity].
  - apply gated_db, upload_image_db.
  - apply gated_db, upload_zip_db.
Qed.

End DbFacts.

(** Over any sequence of requests from a state whose [users] rows satisfy
    the UNIQUE constraints (usernames, non-NULL emails, ids below the
    AUTOINCREMENT counter, stored emails in lower case), the rows still do:
    registration only inserts after its own username and email checks and
    always stores the lowercased email, and no other request writes [users]. *)
Theorem users_invariant_run `{Bcrypt} (dirname : string) (rqs : list request) (w : world)
  (Hok : users_ok w) :
  users_ok (run dirname w rqs).
Proof.
  revert w Hok. induction rqs as [|r rqs IH]; intros w Hok; simpl; [exact Hok|].
  apply IH. destruct (DbFacts.app_step_db dirname w r) as [[[Eu En]|Hi] _].
  - unfold users_ok in *. rewrite Eu, En. exact Hok.
  - destruct Hi as (name & e & h & a & n & w'' & Ei & He & Eu & En).
    pose proof (DbFacts.insert_user_ok w w'' name e h a n Hok He Ei) as Hok'.
    unfold users_ok in *. rewrite Eu, En. exact Hok'.
Qed.

(** Over any sequence of requests, the keys of [settings] stay pairwise
    distinct: only the two upload handlers write the table, through the
    upsert. *)
Theorem settings_keys_invariant_run `{Bcrypt} (dirname : string) (rqs : list request)
  (w : world) (Hd : NoDup (map fst (settings w))) :
  NoDup (map fst (settings (run dirname w rqs))).
Proof.
  revert w Hd. induction rqs as [|r rqs IH]; intros w Hd; simpl; [exact Hd|].
  apply IH. destruct (DbFacts.app_step_db dirname w r) as [_ [E|[k [v E]]]]; rewrite E.
  - exact Hd.
  - apply SettingsFacts.upsert_nodup. exact Hd.
Qed.

Lemma boot_world_users_ok : users_ok boot_world.
Proof.
  unfold users_ok. simpl. split; [repeat constructor; simpl; tauto|].
  split; [constructor|]. split; [repeat constructor; simpl; tauto|].
  split; [intros u [<-|[]]; simpl; lia|]. intros u e [<-|[]]. discriminate.
Qed.

Definition register_bob : list request :=
  [rq "/captcha" (GetCaptcha "AbCdE");
   rq "/register" (PostRegister (mkRegisterForm " bob " "Bob@X.io" "pw" "abcde" ""))].

Lemma users_invariant_run_witness :
  users_ok boot_world /\ users_ok (run app_dir boot_world register_bob).
Proof.
  split; [exact boot_world_users_ok|].
  apply (users_invariant_run app_dir register_bob boot_world). exact boot_world_users_ok.
Defined.

Lemma settings_keys_invariant_run_witness :
  NoDup (map fst (settings boot_world))
  /\ NoDup (map fst (settings (run app_dir boot_world register_bob))).
Proof.
  assert (H0 : NoDup (map fst (settings boot_world))).
  { simpl. constructor; [simpl; intros [E|[]]; discriminate|].
    constructor; [simpl; tauto|constructor]. }
  split; [exact H0|]. apply (settings_keys_invariant_run app_dir register_bob boot_world).
  exact H0.
Defined.

(** ** Registration followed by a login *)

Module LoginFacts.

Lemma find_snoc {A} (p : A -> bool) (l : list A) (x : A) :
  (forall y, In y l -> p y = false) -> p x = true -> find p (app l [x]) = Some x.
Proof.
  intros Hl Hx. induction l as [|y l IH]; simpl; [rewrite Hx; reflexivity|].
  rewrite (Hl y (or_introl eq_refl)). apply IH. intros z Hz. apply Hl. right. exact Hz.
Qed.

Lemma find_app_first {A} (p : A -> bool) (l l' : list A) (y : A) :
  In y l -> p y = true -> exists z, find p (app l l') = Some z /\ In z l.
Proof.
  intros Hy Hp. induction l as [|a l IH]; [destruct Hy|]. simpl.
  destruct (p a) eqn:Ea; [exists a; split; [reflexivity|left; reflexivity]|].
  destruct Hy as [<-|Hy]; [congruence|]. destruct (IH Hy) as [z [Ez Hz]].
  exists z. split; [exact Ez|right; exact Hz].
Qed.

Lemma captcha_accepts (text c : string) :
  JS.toLowerCase text <> "" -> JS.toLowerCase c = JS.toLowerCase text ->
  captcha_rejects (Some (JS.toLowerCase text)) c = false.
Proof.
  intros Ht Hc. unfold captcha_rejects. rewrite Hc, String.eqb_refl.
  destruct (String.eqb_spec (JS.toLowerCase text) ""); [contradiction|reflexivity].
Qed.

Lemma register_accepted `{Bcrypt} (w : world) (f : register_form) :
  ~ register_rejected w f ->
  users (fst (post_register w f))
  = app (users w) [mkUserRow (next_id w) (JS.trim (rf_username f))
                     (Some (JS.toLowerCase (JS.trim (rf_email f))))
                     (bcrypt_hash (rf_password f)) false]
  /\ next_id (fst (post_register w f)) = S (next_id w).
Proof.
  intros Hn. pose proof (post_register_cases w f) as E. simpl in E.
  destruct (register_rejected_b w f) eqn:Eb.
  - exfalso. apply Hn. apply register_rejected_reflect. exact Eb.
  - rewrite E. split; reflexivity.
Qed.

End LoginFacts.

(** After an accepted registration and a fresh captcha (what [GET /captcha]
    stores, answered in any letter case), a login with the same username
    (untrimmed as typed) and password logs into the new account, provided
    the hash checks its own password: the username lookup comes first, so
    an older row whose email is the lowercased username does not matter. A
    login with any spelling of the email that trims and lowercases to the
    stored one does too, provided no older row has that trimmed spelling as
    its username. *)
Theorem register_then_login `{Bcrypt} (w : world) (f : register_form)
  (text c next : string)
  (Hbc : forall pw, bcrypt_compare pw (bcrypt_hash pw) = true)
  (Hacc : ~ register_rejected w f)
  (Ht : JS.toLowerCase text <> "")
  (Hc : JS.toLowerCase c = JS.toLowerCase text) :
  let nu := JS.trim (rf_username f) in
  let ne := JS.toLowerCase (JS.trim (rf_email f)) in
  let w2 := set_captcha (fst (post_register w f)) (Some (JS.toLowerCase text)) in
  let new_user := mkSessionUser (next_id w) nu ne false in
  (let (w3, r) := post_login w2 (mkLoginForm (rf_username f) (rf_password f) c next) in
   sess_user (sess w3) = Some new_user /\ r = redirect_next next)
  /\ (forall s, JS.toLowerCase (JS.trim s) = ne ->
      (forall u, In u (users w) -> username u <> JS.trim s) ->
      let (w3, r) := post_login w2 (mkLoginForm s (rf_password f) c next) in
      sess_user (sess w3) = Some new_user /\ r = redirect_next next).
Proof.
  intros nu ne w2 new_user.
  destruct (LoginFacts.register_accepted w f Hacc) as [Eu _].
  assert (Hold : forall u, In u (users w) -> username u <> nu /\ email u <> Some ne).
  { intros u Hu. split; intros E; apply Hacc; unfold register_rejected;
      do 6 right; [left|right]; exists u; split; assumption. }
  assert (Hcap : captcha_rejects (sess_captcha (sess w2)) c = false)
    by (apply LoginFacts.captcha_accepts; assumption).
  split.
  - unfold post_login. cbv zeta. cbn [lf_captcha lf_username lf_password lf_next]. rewrite Hcap.
    change (users (set_captcha w2 None)) with (users (fst (post_register w f))).
    unfold select_user_login, select_user_by_username. rewrite Eu. fold nu.
    rewrite LoginFacts.find_snoc.
    + simpl. rewrite Hbc. split; reflexivity.
    + intros u Hu. apply String.eqb_neq. apply (Hold u Hu).
    + simpl. apply String.eqb_refl.
  - intros s Hs Hun. unfold post_login. cbv zeta. cbn [lf_captcha lf_username lf_password lf_next]. rewrite Hcap.
    change (users (set_captcha w2 None)) with (users (fst (post_register w f))).
    unfold select_user_login, select_user_by_username, select_user_by_email. rewrite Eu, Hs.
    destruct (find (fun u => username u == JS.trim s) _) as [v|] eqn:Ev.
    + apply find_some in Ev as [Hin Hp]. apply String.eqb_eq in Hp.
      apply in_app_or in Hin as [Hin|[<-|[]]]; [destruct (Hun v Hin Hp)|].
      simpl. rewrite Hbc. split; reflexivity.
    + rewrite LoginFacts.find_snoc.
      * simpl. rewrite Hbc. split; reflexivity.
      * intros u Hu. destruct (email_is _ u) eqn:E; [|reflexivity].
        apply UserFacts.email_is_iff in E. exfalso. exact (proj2 (Hold u Hu) E).
      * unfold email_is. simpl. fold ne. apply String.eqb_refl.
Qed.

Lemma toy_bcrypt_checks : forall pw, bcrypt_compare pw (bcrypt_hash pw) = true.
Proof. intros pw. simpl. apply String.eqb_refl. Qed.

Definition captcha_world (w : world) : world := set_captcha w (Some "abcde").

Definition bob_form : register_form := mkRegisterForm " bob " "Bob@X.io" "pw" "abcde" "".

Lemma bob_accepted : ~ register_rejected (captcha_world boot_world) bob_form.
Proof. intros Hr. apply register_rejected_reflect in Hr. vm_compute in Hr. discriminate. Qed.

Lemma register_then_login_witness :
  ~ register_rejected (captcha_world boot_world) bob_form
  /\ (let w2 := set_captcha (fst (post_register (captcha_world boot_world) bob_form))
                            (Some (JS.toLowerCase "XyZ12")) in
      let (w3, r) := post_login w2 (mkLoginForm " bob " "pw" "xyz12" "/") in
      sess_user (sess w3) = Some (mkSessionUser 2 "bob" "bob@x.io" false)
      /\ r = redirect_next "/").
Proof.
  split; [exact bob_accepted|].
  refine (proj1 (register_then_login (captcha_world boot_world) bob_form "XyZ12" "xyz12" "/"
                   toy_bcrypt_checks bob_accepted _ _)).
  - vm_compute. discriminate.
  - vm_compute. reflexivity.
Defined.

(** A state with a second account whose email looks like a username. *)
Definition alice_world : world :=
  mkWorld [mkUserRow 1 "RURI" None (bcrypt_hash "Wat3hahak") true;
           mkUserRow 2 "alice" (Some "x@y.io") (bcrypt_hash "secret") false] 3
          (settings boot_world) [] (mkSession None (Some "abcde") None).

Definition shadow_form : register_form :=
  mkRegisterForm "x@y.io" "other@z.io" "pw" "abcde" "".

Lemma shadow_accepted : ~ register_rejected alice_world shadow_form.
Proof. intros Hr. apply register_rejected_reflect in Hr. vm_compute in Hr. discriminate. Qed.

Lemma nodup_map_inj {A B} (f : A -> B) (l : list A) (x y : A) :
  NoDup (map f l) -> In x l -> In y l -> f x = f y -> x = y.
Proof.
  induction l as [|a l IH]; simpl; [tauto|]. intros Hd Hx Hy E.
  inversion Hd as [|? ? Hn Hd']; subst.
  destruct Hx as [<-|Hx], Hy as [<-|Hy]; auto.
  - exfalso. apply Hn. rewrite E. apply in_map. exact Hy.
  - exfalso. apply Hn. rewrite <- E. apply in_map. exact Hx.
Qed.

(** Once the captcha passes, [POST /login] checks the password against the
    row whose username is the trimmed identifier whenever there is one
    (usernames being unique), even when another row has the lowercased
    identifier as its email: the username lookup comes first. *)
Theorem login_username_first `{Bcrypt} (w : world) (f : login_form) (c : string)
  (u : user_row)
  (Hc : sess_captcha (sess w) = Some c) (Hne : c <> "")
  (Hm : JS.toLowerCase (lf_captcha f) = c)
  (Hu : In u (users w)) (Hn : username u = JS.trim (lf_username f))
  (Huniq : NoDup (map username (users w))) :
  post_login w f
  = if bcrypt_compare (lf_password f) (password_hash u)
    then (setFlash (set_user (set_captcha w None) (Some (login_snapshot u)))
                   "success" msg_logged_in, redirect_next (lf_next f))
    else (setFlash (set_captcha w None) "error" msg_wrong_password, Redirect "/login").
Proof.
  pose proof (post_login_after_captcha w f c Hc Hne Hm) as E. cbv zeta in E. rewrite E.
  destruct (UserFacts.select_login_username (users w) (JS.trim (lf_username f))
              (JS.toLowerCase (JS.trim (lf_username f))) u Hu Hn) as (v & Ev & Hv & Hvn).
  rewrite Ev.
  assert (v = u) as -> by (apply (nodup_map_inj username (users w)); congruence).
  reflexivity.
Qed.

(** [alice_world] after [x@y.io] registered: row 2 has the email [x@y.io],
    row 3 the username [x@y.io]. *)
Definition shadow_world : world :=
  set_captcha (fst (post_register alice_world shadow_form)) (Some "qwert").

Lemma login_username_first_witness :
  In (mkUserRow 3 "x@y.io" (Some "other@z.io") (bcrypt_hash "pw") false) (users shadow_world)
  /\ post_login shadow_world (mkLoginForm "x@y.io" "secret" "QWERT" "/")
     = (setFlash (set_captcha shadow_world None) "error" msg_wrong_password, Redirect "/login").
Proof.
  assert (Hu : In (mkUserRow 3 "x@y.io" (Some "other@z.io") (bcrypt_hash "pw") false)
                  (users shadow_world))
    by (vm_compute; right; right; left; reflexivity).
  split; [exact Hu|].
  refine (eq_trans (login_username_first shadow_world (mkLoginForm "x@y.io" "secret" "QWERT" "/")
                      "qwert" _ eq_refl _ _ Hu _ _) _).
  - discriminate.
  - vm_compute. reflexivity.
  - vm_compute. reflexivity.
  - apply BootFacts.has_dup_false. vm_compute. reflexivity.
  - vm_compute. reflexivity.
Defined.

(** Registering the username [x@y.io] next to the row [alice] whose email
    is [x@y.io], then logging in with [x@y.io]: the username lookup finds
    the new row first. *)
Example username_hit_first :
  let w2 := set_captcha (fst (post_register alice_world shadow_form)) (Some "qwert") in
  sess_user (sess (fst (post_login w2 (mkLoginForm "x@y.io" "pw" "qwert" "/"))))
  = Some (mkSessionUser 3 "x@y.io" "other@z.io" false).
Proof. vm_compute. reflexivity. Qed.

(** ** Logout *)

(** [POST /logout] by a logged-in session destroys the session (user,
    captcha answer and flash are gone, the tables and files are untouched)
    and redirects to [/]; afterwards every admin route that reaches the
    routes is sent to the login page. Without a user, [requireAuth] answers
    and the session keeps everything but the consumed flash. *)
Theorem logout_destroys_session `{Bcrypt} (dirname : string) (w : world) (url : string) :
  let (w', r) := app_step dirname w (rq url PostLogout) in
  (sess_user (sess w) <> None ->
   w' = set_sess w empty_session /\ r = Redirect "/"
   /\ forall rq2, static_layer dirname w' rq2 = None -> is_admin_route (rroute rq2) = true ->
      app_step dirname w' rq2 = (set_flash_field w' None, Redirect "/login?next=/admin"))
  /\ (sess_user (sess w) = None ->
      w' = set_flash_field w None
      /\ r = Redirect ("/login?next=" ++ JS.encodeURIComponent url)).
Proof.
  assert (E : app_step dirname w (rq url PostLogout)
              = match sess_user (sess w) with
                | Some _ => (set_sess (set_flash_field w None) empty_session, Redirect "/")
                | None => (set_flash_field w None,
                           Redirect ("/login?next=" ++ JS.encodeURIComponent url))
                end)
    by (unfold app_step, route_handle, requireAuth, gated; simpl;
        destruct (sess_user (sess w)); reflexivity).
  rewrite E. destruct (sess_user (sess w)) as [u|] eqn:Hu; split; intros Hu'.
  - split; [reflexivity|]. split; [reflexivity|].
    intros rq2 Hs Ha. unfold app_step. rewrite Hs. simpl.
    unfold route_handle. destruct (rroute rq2); try discriminate; reflexivity.
  - discriminate.
  - contradiction.
  - split; reflexivity.
Qed.

Lemma logout_destroys_session_witness :
  let w := set_user boot_world (Some admin_user) in
  let (w', r) := app_step app_dir w (rq "/logout" PostLogout) in
  sess_user (sess w) <> None -> w' = set_sess w empty_session /\ r = Redirect "/"
   /\ forall rq2, static_layer app_dir w' rq2 = None -> is_admin_route (rroute rq2) = true ->
      app_step app_dir w' rq2 = (set_flash_field w' None, Redirect "/login?next=/admin").
Proof.
  intros w. pose proof (logout_destroys_session app_dir w "/logout") as T.
  destruct (app_step app_dir w (rq "/logout" PostLogout)). exact (proj1 T).
Defined.

(** ** The captcha round trip *)

Module CaptchaRound.

Ltac flash_differs :=
  simpl; let E := fresh in intros E; injection E;
  unfold msg_bad_captcha, msg_required, msg_short_login, msg_bad_email, msg_login_taken,
    msg_email_taken, msg_account_created, msg_user_not_found, msg_wrong_password,
    msg_logged_in; intros; discriminate.

Lemma register_flash_after_captcha `{Bcrypt} (w : world) (f : register_form) :
  sess_flash (sess w) = None ->
  captcha_rejects (sess_captcha (sess w)) (rf_captcha f) = false ->
  sess_flash (sess (fst (post_register w f))) <> Some (mkFlash "error" msg_bad_captcha).
Proof.
  intros Hf Hc. unfold post_register. cbv zeta. rewrite Hc.
  destruct (_ || _ || _); [flash_differs|].
  destruct (_ <? _); [flash_differs|].
  destruct (negb _); [flash_differs|].
  destruct (select_user_by_username _ _); [flash_differs|].
  destruct (select_user_by_email _ _); [flash_differs|].
  destruct (insert_user _ _ _ _ _) as [[w' n]|]; [flash_differs|].
  simpl. rewrite Hf. discriminate.
Qed.

Lemma login_flash_after_captcha `{Bcrypt} (w : world) (f : login_form) :
  captcha_rejects (sess_captcha (sess w)) (lf_captcha f) = false ->
  sess_flash (sess (fst (post_login w f))) <> Some (mkFlash "error" msg_bad_captcha).
Proof.
  intros Hc. unfold post_login. cbv zeta. rewrite Hc.
  destruct (select_user_login _ _ _); [|flash_differs].
  destruct (bcrypt_compare _ _); flash_differs.
Qed.

Lemma rejects_iff (text c : string) :
  JS.toLowerCase text <> "" ->
  captcha_rejects (Some (JS.toLowerCase text)) c = true
  <-> JS.toLowerCase c <> JS.toLowerCase text.
Proof.
  intros Ht. unfold captcha_rejects.
  destruct (String.eqb_spec (JS.toLowerCase text) ""); [contradiction|]. simpl.
  rewrite negb_true_iff, String.eqb_neq. reflexivity.
Qed.

Lemma login_rejected `{Bcrypt} (w : world) (f : login_form) :
  captcha_rejects (sess_captcha (sess w)) (lf_captcha f) = true ->
  sess_flash (sess (fst (post_login w f))) = Some (mkFlash "error" msg_bad_captcha).
Proof. intros Hc. unfold post_login. cbv zeta. rewrite Hc. reflexivity. Qed.

Lemma register_rejected_captcha `{Bcrypt} (w : world) (f : register_form) :
  captcha_rejects (sess_captcha (sess w)) (rf_captcha f) = true ->
  sess_flash (sess (fst (post_register w f))) = Some (mkFlash "error" msg_bad_captcha).
Proof. intros Hc. unfold post_register. cbv zeta. rewrite Hc. reflexivity. Qed.

End CaptchaRound.

(** [GET /captcha] (when no static file answers it) stores the lowercased
    answer; the next [POST /login] or [POST /register] fails with the
    bad-captcha flash exactly when the submitted text, lowercased, differs
    from it: the check is case-insensitive, and a correct answer never
    yields that flash. *)
Theorem captcha_round_trip `{Bcrypt} (dirname : string) (w : world) (url1 text : string)
  (Hs : static_layer dirname w (rq url1 (GetCaptcha text)) = None)
  (Ht : JS.toLowerCase text <> "") :
  let w1 := fst (app_step dirname w (rq url1 (GetCaptcha text))) in
  (forall url2 lf,
     sess_flash (sess (fst (app_step dirname w1 (rq url2 (PostLogin lf)))))
       = Some (mkFlash "error" msg_bad_captcha)
     <-> JS.toLowerCase (lf_captcha lf) <> JS.toLowerCase text)
  /\ (forall url2 f,
     sess_flash (sess (fst (app_step dirname w1 (rq url2 (PostRegister f)))))
       = Some (mkFlash "error" msg_bad_captcha)
     <-> JS.toLowerCase (rf_captcha f) <> JS.toLowerCase text).
Proof.
  intros w1.
  assert (E1 : w1 = set_captcha (set_flash_field w None) (Some (JS.toLowerCase text)))
    by (unfold w1, app_step; rewrite Hs; reflexivity).
  split.
  - intros url2 lf. unfold app_step at 1. simpl static_layer. cbv iota zeta.
    simpl fst. unfold route_handle. simpl rroute.
    destruct (captcha_rejects (Some (JS.toLowerCase text)) (lf_captcha lf)) eqn:Ec.
    + apply (CaptchaRound.rejects_iff text) in Ec; [|exact Ht].
      split; [intros _; exact Ec|intros _].
      apply CaptchaRound.login_rejected. rewrite E1.
      exact (proj2 (CaptchaRound.rejects_iff text _ Ht) Ec).
    + split; [intros Hb; exfalso; revert Hb; apply CaptchaRound.login_flash_after_captcha;
              rewrite E1; exact Ec|].
      intros Hn. exfalso. apply (CaptchaRound.rejects_iff text _ Ht) in Hn. congruence.
  - intros url2 f. unfold app_step at 1. simpl static_layer. cbv iota zeta.
    simpl fst. unfold route_handle. simpl rroute.
    destruct (captcha_rejects (Some (JS.toLowerCase text)) (rf_captcha f)) eqn:Ec.
    + apply (CaptchaRound.rejects_iff text) in Ec; [|exact Ht].
      split; [intros _; exact Ec|intros _].
      apply CaptchaRound.register_rejected_captcha. rewrite E1.
      exact (proj2 (CaptchaRound.rejects_iff text _ Ht) Ec).
    + split; [intros Hb; exfalso; revert Hb; apply CaptchaRound.register_flash_after_captcha;
              rewrite E1; [reflexivity|exact Ec]|].
      intros Hn. exfalso. apply (CaptchaRound.rejects_iff text _ Ht) in Hn. congruence.
Qed.

Lemma captcha_round_trip_witness :
  static_layer app_dir boot_world (rq "/captcha" (GetCaptcha "AbCdE")) = None
  /\ JS.toLowerCase "AbCdE" <> ""
  /\ (let w1 := fst (app_step app_dir boot_world (rq "/captcha" (GetCaptcha "AbCdE"))) in
      forall url2 lf,
        sess_flash (sess (fst (app_step app_dir w1 (rq url2 (PostLogin lf)))))
          = Some (mkFlash "error" msg_bad_captcha)
        <-> JS.toLowerCase (lf_captcha lf) <> JS.toLowerCase "AbCdE").
Proof.
  assert (Hs : static_layer app_dir boot_world (rq "/captcha" (GetCaptcha "AbCdE")) = None)
    by reflexivity.
  assert (Ht : JS.toLowerCase "AbCdE" <> "") by (vm_compute; discriminate).
  split; [exact Hs|]. split; [exact Ht|].
  exact (proj1 (captcha_round_trip app_dir boot_world "/captcha" "AbCdE" Hs Ht)).
Defined.

(** ** The page data of [GET /] and [GET /admin] *)



(** What [GET /admin] passes to [res.render('admin', ...)], apart from the
    [fs.statSync] result. *)
Record admin_view := mkAdminView {
  av_cheatImageUrl : string;
  av_zipPath : string;
  av_zipExists : bool;
  av_imageExists : bool
}.

Definition get_admin_view (dirname : string) (w : world) : admin_view :=
  let cheatImageUrl := getSetting (settings w) "cheat_image_url" DEFAULT_IMAGE_URL in
  let zipPath := getSetting (settings w) "cheat_zip_path" DEFAULT_ZIP_PATH in
  let absoluteZip := toAbsolutePath dirname zipPath in
  let normalizedImagePath := strip_leading_sep cheatImageUrl in
  let absoluteImage := if JS.startsWith cheatImageUrl "/uploads/"
                       then toAbsolutePath dirname cheatImageUrl
                       else toAbsolutePath dirname (Path.join ["public"; normalizedImagePath]) in
  let zipExists := match absoluteZip with Some a => file_exists w a | None => false end in
  mkAdminView cheatImageUrl zipPath zipExists
    (match absoluteImage with Some a => file_exists w a | None => false end).


(** After an accepted image upload the admin page's image flag checks the
    file named by the stored URL [/uploads/<name>] itself, an absolute path
    at the file-system root, and not the file the upload wrote under
    [__dirname/uploads]. *)
Theorem admin_image_check_after_upload `{Bcrypt} (dirname : string) (w : world)
  (f : file_part) (now : nat) (Hf : image_filter f = true) :
  let w' := fst (upload_image dirname w (FilePart f) now) in
  let name := image_filename f now in
  av_cheatImageUrl (get_admin_view dirname w') = "/uploads/" ++ name
  /\ av_imageExists (get_admin_view dirname w') = file_exists w' ("/uploads/" ++ name).
Proof.
  intros w' name.
  assert (Hs : select_setting (settings w') "cheat_image_url" = Some ("/uploads/" ++ name)).
  { unfold w', upload_image. rewrite Hf. simpl. apply select_upsert. }
  unfold get_admin_view. cbv zeta. simpl av_cheatImageUrl. simpl av_imageExists.
  unfold getSetting. rewrite Hs.
  split; reflexivity.
Qed.

Definition png_part : file_part := mkFilePart "new.png" "image/png".

Lemma admin_image_check_after_upload_witness :
  image_filter png_part = true
  /\ (let w' := fst (upload_image app_dir boot_world (FilePart png_part) 2) in
      av_cheatImageUrl (get_admin_view app_dir w') = "/uploads/cheat-2.png"
      /\ av_imageExists (get_admin_view app_dir w') = file_exists w' "/uploads/cheat-2.png").
Proof.
  assert (Hf : image_filter png_part = true) by reflexivity.
  split; [exact Hf|].
  exact (admin_image_check_after_upload app_dir boot_world png_part 2 Hf).
Defined.

(** Evaluated: the upload wrote [/app/uploads/cheat-2.png], the flag is false. *)
Example admin_image_flag_false :
  let w' := fst (upload_image app_dir boot_world (FilePart png_part) 2) in
  files w' = ["/app/uploads/cheat-2.png"] /\ av_imageExists (get_admin_view app_dir w') = false.
Proof. vm_compute. split; reflexivity. Qed.

(** ** The bot next to the web app *)

(** The tables and files of a web state, as the bot reads them. *)
Definition env_of (w : world) : bot_env := mkBotEnv (users w) (settings w) (files w).



(** A string with no code point of [\s]. *)
Definition ws_free (s : string) : bool :=
  forallb (fun u => negb (JS.is_ws u)) (Utf8.decode s).

Module SplitFacts.
Import Utf8 Utf8Facts.

(** The tokens are pieces of the decoded input ([canon] holds of them, so
    they decode back to themselves) with no [\s] in them. While [in_run]
    holds the current token is empty. *)
Lemma split_aux_tokens (l cur : list uchar) (b : bool) :
  canon (app (rev cur) l) -> (b = true -> cur = []) ->
  forallb (fun u => negb (JS.is_ws u)) cur = true ->
  forall t, In t (split_ws_aux l cur b) -> ws_free t = true.
Proof.
  revert cur b. induction l as [|u l IH]; intros cur b Hcan Hb Hc t; cbn [split_ws_aux].
  - intros [<-|[]]. unfold ws_free. rewrite app_nil_r in Hcan.
    rewrite decode_encode_canon' by exact Hcan.
    rewrite forallb_forall in *. intros x Hx. apply Hc. apply in_rev. exact Hx.
  - destruct (JS.is_ws u) eqn:Ew.
    + destruct b.
      * rewrite (Hb eq_refl) in *. apply IH; [|reflexivity|reflexivity].
        exact (canon_app_r [u] l Hcan).
      * intros [<-|Ht].
        -- unfold ws_free. rewrite decode_encode_canon' by exact (canon_app_l _ _ Hcan).
           rewrite forallb_forall in *. intros x Hx. apply Hc. apply in_rev. exact Hx.
        -- apply (IH [] true); [|reflexivity|reflexivity|exact Ht].
           apply (canon_app_r (app (rev cur) [u]) l). rewrite <- app_assoc. exact Hcan.
    + apply IH.
      * cbn [rev]. rewrite <- app_assoc. exact Hcan.
      * discriminate.
      * cbn [forallb]. rewrite Ew, Hc. reflexivity.
Qed.

Lemma split_aux_free (l cur : list uchar) (b : bool) :
  forallb (fun u => negb (JS.is_ws u)) l = true ->
  split_ws_aux l cur b = [encode (app (rev cur) l)].
Proof.
  revert cur b. induction l as [|u l IH]; intros cur b Hl; cbn [split_ws_aux].
  - rewrite app_nil_r. reflexivity.
  - cbn [forallb] in Hl. apply andb_true_iff in Hl as [Hu Hl]. apply negb_true_iff in Hu.
    rewrite Hu, IH by exact Hl. cbn [rev]. rewrite <- app_assoc. reflexivity.
Qed.

Lemma list_ascii_app (u v : string) :
  list_ascii_of_string (u ++ v) = app (list_ascii_of_string u) (list_ascii_of_string v).
Proof. induction u as [|c u IH]; simpl; [reflexivity|]. rewrite IH. reflexivity. Qed.

Lemma split_two (u p : string) :
  ws_free u = true -> ws_free p = true ->
  split_ws (u ++ " " ++ p) = [u; p].
Proof.
  intros Hu Hp. unfold split_ws, ws_free in *. unfold decode in *.
  rewrite list_ascii_app. cbn [list_ascii_of_string append].
  rewrite decode_app_ascii by reflexivity.
  remember (decode_l (list_ascii_of_string u)) as du eqn:Edu.
  assert (Hsp : JS.is_ws (Cp (bz " "%char)) = true) by reflexivity.
  assert (G : forall cur, split_ws_aux (app du (Cp (bz " "%char) :: decode_l (list_ascii_of_string p))) cur false
              = encode (app (rev cur) du)
                :: split_ws_aux (decode_l (list_ascii_of_string p)) [] true).
  { clear Edu. induction du as [|x du IH]; intros cur; cbn [app split_ws_aux].
    - rewrite Hsp, app_nil_r. reflexivity.
    - cbn [forallb] in Hu. apply andb_true_iff in Hu as [Hx Hu']. apply negb_true_iff in Hx.
      rewrite Hx, (IH Hu'). cbn [rev]. rewrite <- app_assoc. reflexivity. }
  rewrite G, split_aux_free by exact Hp. cbn [rev app]. subst du.
  pose proof (encode_decode u) as Eu. pose proof (encode_decode p) as Ep.
  unfold decode in Eu, Ep. rewrite Eu, Ep. reflexivity.
Qed.

Lemma nth_not_default (n : nat) (l : list string) :
  nth n l "" <> "" -> In (nth n l "") l.
Proof.
  intros H. destruct (Nat.lt_ge_cases n (length l)).
  - apply nth_In. assumption.
  - rewrite nth_overflow in H by assumption. contradiction.
Qed.

End SplitFacts.

(** [/login <credentials>] splits the credentials on runs of whitespace and
    keeps the first two tokens ([\\s] is Unicode white space, U+00A0
    included). Credentials that start with whitespace
    (as after [/login] followed by two spaces) give an empty username and
    the format reply. Otherwise, when the format check passes, the username
    and password handed to the credential check are non-empty and contain no
    whitespace (a password with a space can never be submitted), and the
    outcome is that of [/login <username> <password>]: further tokens are
    ignored. *)
Theorem bot_login_tokens `{Bcrypt} (dirname : string) (env : bot_env)
  (sessions : bot_sessions) (chat : Z) (cr : string) :
  (forall u rest, Utf8.decode cr = u :: rest -> JS.is_ws u = true ->
   bot_step dirname env sessions chat (BotLogin cr) = (sessions, SendMessage bot_msg_format))
  /\ (snd (bot_step dirname env sessions chat (BotLogin cr)) <> SendMessage bot_msg_format ->
      exists u p, u <> "" /\ p <> "" /\ ws_free u = true /\ ws_free p = true
        /\ bot_step dirname env sessions chat (BotLogin cr)
           = bot_step dirname env sessions chat (BotLogin (u ++ " " ++ p))).
Proof.
  split.
  - intros x rest Hd Hx. unfold bot_step, split_ws. rewrite Hd. cbn [split_ws_aux].
    rewrite Hx. reflexivity.
  - intros Hn. set (u := nth 0 (split_ws cr) ""). set (p := nth 1 (split_ws cr) "").
    assert (Hup : u <> "" /\ p <> "").
    { unfold bot_step in Hn. fold u p in Hn.
      destruct (String.eqb_spec u ""); [simpl in Hn; contradiction|].
      destruct (String.eqb_spec p ""); [simpl in Hn; contradiction|]. split; assumption. }
    destruct Hup as [Hu Hp].
    assert (Fu : ws_free u = true)
      by (apply (SplitFacts.split_aux_tokens (Utf8.decode cr) [] false
                   (Utf8Facts.canon_decode _) (fun _ => eq_refl) eq_refl);
          apply SplitFacts.nth_not_default; exact Hu).
    assert (Fp : ws_free p = true)
      by (apply (SplitFacts.split_aux_tokens (Utf8.decode cr) [] false
                   (Utf8Facts.canon_decode _) (fun _ => eq_refl) eq_refl);
          apply SplitFacts.nth_not_default; exact Hp).
    exists u, p. repeat (split; [assumption|]).
    unfold bot_step at 2. rewrite SplitFacts.split_two by assumption. simpl nth.
    reflexivity.
Qed.

Example bot_login_tokens_ex :
  let env := env_of boot_world in
  bot_step app_dir env [] 7%Z (BotLogin " RURI Wat3hahak") = ([], SendMessage bot_msg_format)
  /\ bot_step app_dir env [] 7%Z (BotLogin "RURI   Wat3hahak extra")
     = bot_step app_dir env [] 7%Z (BotLogin "RURI Wat3hahak")
  /\ bot_step app_dir env [] 7%Z (BotLogin ("RURI" ++ cps [0xA0]%Z ++ "Wat3hahak"))
     = bot_step app_dir env [] 7%Z (BotLogin "RURI Wat3hahak").
Proof. vm_compute. repeat split. Qed.

(** ** What the upload handlers write and delete *)

(** The file an upload may delete: the previous setting's path, when it is
    non-empty and starts with the handler's prefix. *)
Definition deleted_path (dirname prev area : string) : option string :=
  if negb (prev == "") && JS.startsWith prev area then toAbsolutePath dirname prev else None.

Module UploadFacts.

Lemma in_filter_neq (l : list string) (q p : string) :
  In p (filter (fun f => negb (f == q)) l) <-> In p l /\ p <> q.
Proof.
  rewrite filter_In. rewrite negb_true_iff, String.eqb_neq. reflexivity.
Qed.

Lemma write_files (w : world) (q p : string) :
  In p (files (write_file w q)) <-> In p (files w) \/ p = q.
Proof.
  unfold write_file, file_exists. simpl. destruct (existsb _ (files w)) eqn:E.
  - apply existsb_exists in E as [x [Hx Ex]]. apply String.eqb_eq in Ex. subst x.
    split; [tauto|intros [Hp|<-]; assumption].
  - rewrite in_app_iff. simpl. split; intros [Hp|Hp]; auto; destruct Hp as [<-|[]]; auto.
Qed.

Lemma delete_files `{Bcrypt} (dirname : string) (w : world) (prev area p : string) :
  In p (files (delete_previous dirname w prev area))
  <-> In p (files w) /\ deleted_path dirname prev area <> Some p.
Proof.
  unfold delete_previous, deleted_path. destruct (_ && _).
  - destruct (toAbsolutePath dirname prev) as [a|].
    + destruct (file_exists w a) eqn:E.
      * unfold unlink. simpl. rewrite in_filter_neq.
        split; intros [H1 H2]; split; auto; intros C; apply H2; congruence.
      * split; [intros Hp; split; [exact Hp|]|tauto].
        intros C. injection C as <-. unfold file_exists in E.
        assert (X : existsb (fun f => f == a) (files w) = true)
          by (apply existsb_exists; exists a; split; [exact Hp|apply String.eqb_refl]).
        congruence.
    + split; [intros Hp; split; [exact Hp|discriminate]|tauto].
  - split; [intros Hp; split; [exact Hp|discriminate]|tauto].
Qed.

Lemma select_map_other (t : settings_table) (key k v : string) :
  k <> key ->
  select_setting (map (fun r => if fst r == key then (key, v) else r) t) k
  = select_setting t k.
Proof.
  intros Hk. unfold select_setting. induction t as [|[k' v'] t IH]; simpl; [reflexivity|].
  destruct (String.eqb_spec k' key) as [->|Hne]; simpl.
  - destruct (String.eqb_spec key k); [congruence|]. exact IH.
  - destruct (k' == k); [reflexivity|exact IH].
Qed.

Lemma select_upsert_other (t : settings_table) (key k v : string) :
  k <> key -> select_setting (upsert_setting t key v) k = select_setting t k.
Proof.
  intros Hk. unfold upsert_setting. destruct (existsb _ t).
  - apply select_map_other. exact Hk.
  - apply BootFacts.select_app_other. exact Hk.
Qed.

End UploadFacts.

(** An accepted upload changes the files on disk in exactly two ways: it
    adds the new file under its directory and removes at most one file, the
    one the previous setting names when that setting starts with the
    handler's prefix ([/uploads/] for the image, [downloads] for the
    archive). Every other file stays. *)
Theorem upload_files_effect `{Bcrypt} (dirname : string) (w : world) (f : file_part)
  (now : nat) (p : string) :
  (image_filter f = true ->
   let prev := getSetting (settings w) "cheat_image_url" DEFAULT_IMAGE_URL in
   In p (files (fst (upload_image dirname w (FilePart f) now)))
   <-> (In p (files w) \/ p = Path.join [UPLOADS_DIR dirname; image_filename f now])
       /\ deleted_path dirname prev "/uploads/" <> Some p)
  /\ (zip_filter f = true ->
   let prev := getSetting (settings w) "cheat_zip_path" DEFAULT_ZIP_PATH in
   In p (files (fst (upload_zip dirname w (FilePart f) now)))
   <-> (In p (files w) \/ p = Path.join [DOWNLOADS_DIR dirname; zip_filename f now])
       /\ deleted_path dirname prev "downloads" <> Some p).
Proof.
  split.
  - intros Hf prev. unfold upload_image. rewrite Hf. simpl.
    rewrite UploadFacts.delete_files, UploadFacts.write_files. reflexivity.
  - intros Hf prev. unfold upload_zip. rewrite Hf. simpl.
    rewrite UploadFacts.delete_files, UploadFacts.write_files. reflexivity.
Qed.

(** The two settings are independent slots: an image upload request, whatever
    its outcome, leaves the archive setting as it was, and an archive upload
    leaves the image setting; neither touches [users] or the session user. *)
Theorem upload_slots_independent `{Bcrypt} (dirname : string) (w : world)
  (m : multer_input) (now : nat) :
  let wi := fst (upload_image dirname w m now) in
  let wz := fst (upload_zip dirname w m now) in
  select_setting (settings wi) "cheat_zip_path" = select_setting (settings w) "cheat_zip_path"
  /\ select_setting (settings wz) "cheat_image_url" = select_setting (settings w) "cheat_image_url"
  /\ users wi = users w /\ users wz = users w
  /\ sess_user (sess wi) = sess_user (sess w) /\ sess_user (sess wz) = sess_user (sess w).
Proof.
  intros wi wz. unfold wi, wz, upload_image, upload_zip.
  destruct m as [|f|]; [repeat split| |repeat split].
  destruct (negb (image_filter f)); destruct (negb (zip_filter f)); simpl;
    rewrite ?UploadFacts.select_upsert_other, ?delete_previous_settings by discriminate;
    repeat split; try reflexivity;
    first [rewrite (proj1 (DbFacts.delete_previous_db _ _ _ _))
          |rewrite CaptchaFacts.delete_previous_sess]; reflexivity.
Qed.

(** ** Accepted emails *)

(** No [@] and no [\s] code point in the string. *)
Definition at_ws_free (s : string) : bool := forallb JS.not_at_ws (Utf8.decode s).

Module EmailFacts.
Import Utf8 Utf8Facts.

Lemma plus_class_sound (k : list uchar -> bool) (l : list uchar) :
  JS.plus_class k l = true ->
  exists p r, l = app p r /\ p <> [] /\ forallb JS.not_at_ws p = true /\ k r = true.
Proof.
  induction l as [|c l IH]; simpl; [discriminate|].
  intros H. apply andb_true_iff in H as [Hc H]. apply orb_true_iff in H as [Hk|Hp].
  - exists [c], l. split; [reflexivity|]. split; [discriminate|].
    simpl. rewrite Hc. split; [reflexivity|exact Hk].
  - destruct (IH Hp) as (p & r & -> & Hne & Hall & Hk).
    exists (c :: p), r. split; [reflexivity|]. split; [discriminate|].
    simpl. rewrite Hc, Hall. split; [reflexivity|exact Hk].
Qed.

Lemma string_of_app (l1 l2 : list ascii) :
  string_of_list_ascii (app l1 l2) = string_of_list_ascii l1 ++ string_of_list_ascii l2.
Proof. induction l1 as [|c l1 IH]; simpl; [reflexivity|]. rewrite IH. reflexivity. Qed.

Lemma encode_app (x y : list uchar) : encode (app x y) = encode x ++ encode y.
Proof. unfold encode. rewrite flat_map_app. apply string_of_app. Qed.

Lemma free_of_list (p : list uchar) :
  canon p -> forallb JS.not_at_ws p = true -> at_ws_free (encode p) = true.
Proof. intros C H. unfold at_ws_free. rewrite decode_encode_canon' by exact C. exact H. Qed.

Lemma nonempty_of_list (p : list uchar) : p <> [] -> encode p <> "".
Proof.
  destruct p as [|[c|b] p]; intros Hn; [contradiction| |discriminate].
  unfold encode. cbn [flat_map enc_u]. unfold enc_cp.
  destruct (c <? 0x80)%Z; [|destruct (c <? 0x800)%Z; [|destruct (c <? 0x10000)%Z]];
    discriminate.
Qed.

Lemma regex_shape (s : string) :
  JS.emailRegex_test s = true ->
  exists a b c, s = a ++ "@" ++ b ++ "." ++ c
    /\ a <> "" /\ b <> "" /\ c <> ""
    /\ at_ws_free a = true /\ at_ws_free b = true /\ at_ws_free c = true.
Proof.
  unfold JS.emailRegex_test. intros H.
  assert (C : canon (decode s)) by apply canon_decode.
  destruct (plus_class_sound _ _ H) as (pa & r1 & E1 & Na & Fa & K1).
  destruct r1 as [|x r1]; [discriminate|].
  apply andb_true_iff in K1 as [Kx K1].
  destruct x as [x|x]; [|discriminate]. cbn in Kx. apply Z.eqb_eq in Kx. subst x.
  destruct (plus_class_sound _ _ K1) as (pb & r2 & E2 & Nb & Fb & K2).
  destruct r2 as [|y r2]; [discriminate|].
  apply andb_true_iff in K2 as [Ky K2].
  destruct y as [y|y]; [|discriminate]. cbn in Ky. apply Z.eqb_eq in Ky. subst y.
  destruct (plus_class_sound _ _ K2) as (pc & r3 & E3 & Nc & Fc & K3).
  destruct r3; [|discriminate]. rewrite app_nil_r in E3. subst r1 r2.
  rewrite E1 in C.
  assert (Ca : canon pa) by exact (canon_app_l _ _ C).
  assert (Cr : canon (app pb (Cp 46 :: pc))) by exact (proj2 (canon_app_r _ _ C)).
  assert (Cb : canon pb) by exact (canon_app_l _ _ Cr).
  assert (Cc : canon pc) by exact (proj2 (canon_app_r _ _ Cr)).
  exists (encode pa), (encode pb), (encode pc).
  split.
  - rewrite <- (encode_decode s), E1.
    change (Cp 64 :: app pb (Cp 46 :: pc)) with (app [Cp 64] (app pb (app [Cp 46] pc))).
    rewrite !encode_app. reflexivity.
  - repeat split; first [apply nonempty_of_list; assumption
                        | apply free_of_list; assumption].
Qed.

End EmailFacts.

(** An email that registration accepts and stores (trimmed, lowercased) has
    the form [a@b.c] with non-empty parts [a], [b], [c] none of which
    contains [@] or a [\s] code point: it holds exactly one [@], and a dot after it
    that is neither its last character nor directly after the [@]. *)
Theorem registered_email_shape `{Bcrypt} (w : world) (f : register_form)
  (Hacc : ~ register_rejected w f) :
  let ne := JS.toLowerCase (JS.trim (rf_email f)) in
  In (Some ne) (map email (users (fst (post_register w f))))
  /\ exists a b c, ne = a ++ "@" ++ b ++ "." ++ c
       /\ a <> "" /\ b <> "" /\ c <> ""
       /\ at_ws_free a = true /\ at_ws_free b = true /\ at_ws_free c = true.
Proof.
  intros ne. split.
  - rewrite (proj1 (LoginFacts.register_accepted w f Hacc)). rewrite map_app.
    apply in_or_app. right. left. reflexivity.
  - apply EmailFacts.regex_shape.
    destruct (JS.emailRegex_test ne) eqn:E; [reflexivity|].
    exfalso. apply Hacc. unfold register_rejected. do 5 right. left. exact E.
Qed.

Lemma registered_email_shape_witness :
  ~ register_rejected (captcha_world boot_world) bob_form
  /\ (let ne := JS.toLowerCase (JS.trim (rf_email bob_form)) in
      In (Some ne) (map email (users (fst (post_register (captcha_world boot_world) bob_form))))
      /\ exists a b c, ne = a ++ "@" ++ b ++ "." ++ c
           /\ a <> "" /\ b <> "" /\ c <> ""
           /\ at_ws_free a = true /\ at_ws_free b = true /\ at_ws_free c = true).
Proof.
  split; [exact bob_accepted|].
  exact (registered_email_shape (captcha_world boot_world) bob_form bob_accepted).
Defined.

(** ** [toAbsolutePath] *)

Module AbsFacts.

Lemma concat_abs (d : string) (l : list string) :
  Path.isAbsolute d = true -> Path.isAbsolute (String.concat "/" (d :: l)) = true.
Proof.
  destruct d as [|c d]; [discriminate|]. intros H. destruct l; [exact H|].
  destruct (Ascii.eqb_spec c "/") as [->|Hc];
    [unfold Path.isAbsolute; cbn; destruct (d ++ _); reflexivity|].
  exfalso. revert H. unfold Path.isAbsolute. cbn [String.prefix].
  destruct (ascii_dec "/" c); [congruence|discriminate].
Qed.

Lemma abs_slash (x : string) : Path.isAbsolute ("/" ++ x) = true.
Proof. unfold Path.isAbsolute. cbn. destruct x; reflexivity. Qed.

Lemma normalize_abs (p : string) :
  Path.isAbsolute p = true -> Path.isAbsolute (Path.normalize p) = true.
Proof.
  intros H. unfold Path.normalize. destruct (p == "") eqn:E.
  - apply String.eqb_eq in E. subst. discriminate.
  - cbv zeta. rewrite H. apply abs_slash.
Qed.

End AbsFacts.

(** With [__dirname] absolute (as Node guarantees), [toAbsolutePath] gives
    [null] exactly for the empty string and otherwise an absolute path, so
    every [fs] call of the app on a stored path is independent of the
    working directory; a stored path that already starts with [/] is
    returned unchanged. *)
Theorem toAbsolutePath_absolute (dirname s : string)
  (Hd : Path.isAbsolute dirname = true) :
  (toAbsolutePath dirname s = None <-> s = "")
  /\ (forall q, toAbsolutePath dirname s = Some q -> Path.isAbsolute q = true)
  /\ (Path.isAbsolute s = true -> toAbsolutePath dirname s = Some s).
Proof.
  unfold toAbsolutePath. destruct (String.eqb_spec s "") as [->|Hs].
  - split; [split; reflexivity|]. split; [discriminate|discriminate].
  - split; [split; [destruct (Path.isAbsolute s); discriminate|contradiction]|].
    split; [|intros ->; reflexivity].
    intros q. destruct (Path.isAbsolute s) eqn:Ea; intros E; injection E as <-; [exact Ea|].
    unfold Path.join. simpl.
    destruct (String.eqb_spec dirname "") as [->|Hn]; [discriminate|]. simpl.
    apply AbsFacts.normalize_abs. apply AbsFacts.concat_abs. exact Hd.
Qed.

Lemma toAbsolutePath_absolute_witness :
  Path.isAbsolute app_dir = true
  /\ (toAbsolutePath app_dir "downloads/a.zip" = None <-> "downloads/a.zip" = "")
  /\ (forall q, toAbsolutePath app_dir "downloads/a.zip" = Some q -> Path.isAbsolute q = true)
  /\ (Path.isAbsolute "downloads/a.zip" = true ->
      toAbsolutePath app_dir "downloads/a.zip" = Some "downloads/a.zip").
Proof.
  assert (Hd : Path.isAbsolute app_dir = true) by reflexivity.
  split; [exact Hd|]. exact (toAbsolutePath_absolute app_dir "downloads/a.zip" Hd).
Defined.

(** ** An archive upload followed by a download *)

(** No [/] in the string. *)
Definition no_slash (s : string) : bool :=
  forallb (fun c => negb (Ascii.eqb c "/")) (list_ascii_of_string s).

(** A path segment that [normalize] keeps as it is. *)
Definition plain (s : string) : bool :=
  negb (s == "") && negb (s == ".") && negb (s == "..") && no_slash s.

Module JoinFacts.

Lemma app_assoc_str (a b c : string) : (a ++ b) ++ c = a ++ (b ++ c).
Proof. induction a as [|x a IH]; simpl; [reflexivity|]. rewrite IH. reflexivity. Qed.

Lemma split_nonempty (s : string) : Path.split_on "/" s <> [].
Proof.
  destruct s as [|c s]; simpl; [discriminate|].
  destruct (Ascii.eqb c "/"); [discriminate|]. destruct (Path.split_on "/" s); discriminate.
Qed.

Lemma split_noslash (s : string) : no_slash s = true -> Path.split_on "/" s = [s].
Proof.
  unfold no_slash. induction s as [|c s IH]; simpl; [reflexivity|].
  intros H. apply andb_true_iff in H as [Hc H]. apply negb_true_iff in Hc.
  rewrite Hc, IH by exact H. reflexivity.
Qed.

Lemma split_app_sep (a b : string) :
  Path.split_on "/" (a ++ String "/" b) = app (Path.split_on "/" a) (Path.split_on "/" b).
Proof.
  induction a as [|c a IH]; simpl; [reflexivity|]. rewrite IH.
  destruct (Ascii.eqb c "/"); [reflexivity|].
  pose proof (split_nonempty a) as Hn.
  destruct (Path.split_on "/" a) as [|p ps]; [contradiction|]. reflexivity.
Qed.

Lemma split_all_noslash (s : string) :
  Forall (fun t => no_slash t = true) (Path.split_on "/" s).
Proof.
  induction s as [|c s IH]; simpl; [constructor; [reflexivity|constructor]|].
  destruct (Ascii.eqb c "/") eqn:Ec; [constructor; [reflexivity|exact IH]|].
  destruct (Path.split_on "/" s) as [|p ps]; [constructor; [|constructor]|].
  - unfold no_slash. simpl. rewrite Ec. reflexivity.
  - inversion IH as [|? ? Hp Hps]; subst. constructor; [|exact Hps].
    unfold no_slash in *. simpl. rewrite Ec, Hp. reflexivity.
Qed.

Lemma norm_segs_app (abs : bool) (l1 l2 acc : list string) :
  Path.norm_segs abs acc (app l1 l2)
  = Path.norm_segs abs (rev (Path.norm_segs abs acc l1)) l2.
Proof.
  revert acc. induction l1 as [|seg l1 IH]; intros acc; simpl.
  - rewrite rev_involutive. reflexivity.
  - destruct ((seg == "") || (seg == ".")); [apply IH|].
    destruct (seg == ".."); [|apply IH].
    destruct acc as [|x acc']; [destruct abs; apply IH|].
    destruct (x == ".."); apply IH.
Qed.

Lemma plain_parts (s : string) :
  plain s = true -> (s == "") = false /\ (s == ".") = false /\ (s == "..") = false
                    /\ no_slash s = true.
Proof.
  unfold plain. intros H. repeat rewrite andb_true_iff in H.
  destruct H as [[[H1 H2] H3] H4]. apply negb_true_iff in H1, H2, H3. auto.
Qed.

Lemma norm_plain (abs : bool) (l acc : list string) :
  Forall (fun t => plain t = true) l -> Path.norm_segs abs acc l = app (rev acc) l.
Proof.
  revert acc. induction l as [|seg l IH]; intros acc Hl; simpl; [rewrite app_nil_r; reflexivity|].
  inversion Hl as [|? ? Hs Hl']; subst.
  destruct (plain_parts seg Hs) as (E1 & E2 & E3 & _). rewrite E1, E2, E3. simpl.
  rewrite IH by exact Hl'. simpl. rewrite <- app_assoc. reflexivity.
Qed.

Lemma norm_abs_plain (segs acc : list string) :
  Forall (fun t => no_slash t = true) segs -> Forall (fun t => plain t = true) acc ->
  Forall (fun t => plain t = true) (Path.norm_segs true acc segs).
Proof.
  revert acc. induction segs as [|seg segs IH]; intros acc Hs Ha; simpl.
  - apply Forall_rev. exact Ha.
  - inversion Hs as [|? ? Hseg Hs']; subst.
    destruct (seg == "") eqn:E1; [apply IH; assumption|].
    destruct (seg == ".") eqn:E2; [apply IH; assumption|]. simpl.
    destruct (seg == "..") eqn:E3.
    + destruct acc as [|x acc']; [apply IH; [exact Hs'|constructor]|].
      inversion Ha as [|? ? Hx Ha']; subst.
      destruct (plain_parts x Hx) as (_ & _ & Ex & _). rewrite Ex.
      apply IH; assumption.
    + apply IH; [exact Hs'|]. constructor; [|exact Ha].
      unfold plain. rewrite E1, E2, E3, Hseg. reflexivity.
Qed.

Lemma split_concat (l : list string) :
  l <> [] -> Forall (fun t => no_slash t = true) l ->
  Path.split_on "/" (String.concat "/" l) = l.
Proof.
  induction l as [|x l IH]; intros Hn Hl; [contradiction|].
  inversion Hl as [|? ? Hx Hl']; subst.
  destruct l as [|y l]; [apply split_noslash; exact Hx|].
  change (String.concat "/" (x :: y :: l)) with (x ++ String "/" (String.concat "/" (y :: l))).
  rewrite split_app_sep, split_noslash by exact Hx. rewrite IH by (discriminate || exact Hl').
  reflexivity.
Qed.

Lemma endsWith_noslash (y s : string) :
  s <> "" -> no_slash s = true -> JS.endsWith (y ++ s) "/" = false.
Proof.
  intros Hn Hs. unfold JS.endsWith. rewrite SplitFacts.list_ascii_app, rev_app_distr.
  unfold no_slash in Hs.
  destruct (list_ascii_of_string s) as [|c l] eqn:E;
    [destruct s; [contradiction|discriminate]|].
  destruct (exists_last (l := c :: l) ltac:(discriminate)) as (l' & z & Ez).
  rewrite Ez in Hs |- *. rewrite rev_app_distr.
  cbn [rev app string_of_list_ascii list_ascii_of_string String.prefix].
  rewrite forallb_app in Hs. simpl in Hs. rewrite andb_true_r in Hs.
  apply andb_true_iff in Hs as [_ Hz]. apply negb_true_iff in Hz.
  destruct (ascii_dec "/" z) as [<-|Hne]; [discriminate|reflexivity].
Qed.

Lemma abs_app (x y : string) : Path.isAbsolute x = true -> Path.isAbsolute (x ++ y) = true.
Proof.
  destruct x as [|c x]; [discriminate|]. intros H.
  destruct (Ascii.eqb_spec c "/") as [->|Hc]; [apply AbsFacts.abs_slash|].
  exfalso. revert H. unfold Path.isAbsolute. cbn [String.prefix].
  destruct (ascii_dec "/" c); [congruence|discriminate].
Qed.

(** The segments [normalize] keeps of an absolute path. *)
Definition segs (x : string) : list string := Path.norm_segs true [] (Path.split_on "/" x).

Lemma segs_plain (x : string) : Forall (fun t => plain t = true) (segs x).
Proof. apply norm_abs_plain; [apply split_all_noslash|constructor]. Qed.

Lemma normalize_abs_eq (p : string) :
  Path.isAbsolute p = true ->
  Path.normalize p
  = "/" ++ (if negb (String.concat "/" (segs p) == "") && JS.endsWith p "/"
            then String.concat "/" (segs p) ++ "/" else String.concat "/" (segs p)).
Proof.
  intros H. unfold Path.normalize. destruct (p == "") eqn:E;
    [apply String.eqb_eq in E; subst; discriminate|].
  rewrite H. cbv beta iota zeta. cbn [negb]. rewrite andb_false_r. reflexivity.
Qed.

Lemma normalize_snoc (x s : string) :
  Path.isAbsolute x = true -> plain s = true ->
  Path.normalize (x ++ "/" ++ s) = "/" ++ String.concat "/" (app (segs x) [s]).
Proof.
  intros Hx Hs. destruct (plain_parts s Hs) as (Es & _ & _ & Ns).
  assert (Hsn : s <> "") by (intros ->; discriminate).
  rewrite normalize_abs_eq by (apply abs_app; exact Hx).
  replace (JS.endsWith (x ++ "/" ++ s) "/") with false
    by (symmetry; replace (x ++ "/" ++ s) with ((x ++ "/") ++ s) by apply app_assoc_str;
        apply endsWith_noslash; assumption).
  rewrite andb_false_r. f_equal.
  unfold segs. change (x ++ "/" ++ s) with (x ++ String "/" s).
  rewrite split_app_sep, (split_noslash s) by exact Ns.
  rewrite norm_segs_app. fold (segs x).
  rewrite norm_plain by (constructor; [exact Hs|constructor]).
  rewrite rev_involutive. reflexivity.
Qed.

Lemma normalize_twice_snoc (x s : string) :
  Path.isAbsolute x = true -> plain s = true ->
  Path.normalize (Path.normalize x ++ "/" ++ s) = "/" ++ String.concat "/" (app (segs x) [s]).
Proof.
  intros Hx Hs. destruct (plain_parts s Hs) as (Es & _ & _ & Ns).
  pose proof (segs_plain x) as HP.
  assert (HP' : Forall (fun t => no_slash t = true) (segs x))
    by (eapply Forall_impl; [|exact HP]; intros a Ha; apply (plain_parts a Ha)).
  rewrite (normalize_abs_eq x Hx).
  set (T := if negb (String.concat "/" (segs x) == "") && JS.endsWith x "/"
            then String.concat "/" (segs x) ++ "/" else String.concat "/" (segs x)).
  rewrite normalize_snoc by (apply AbsFacts.abs_slash || exact Hs).
  f_equal. f_equal. f_equal.
  unfold segs. change ("/" ++ T) with ("" ++ String "/" T).
  rewrite split_app_sep. simpl (Path.split_on "/" "").
  change (app [""] (Path.split_on "/" T)) with ("" :: Path.split_on "/" T).
  cbn [Path.norm_segs]. fold (segs x).
  unfold T. destruct (negb (String.concat "/" (segs x) == "") && JS.endsWith x "/") eqn:C.
  - apply andb_true_iff in C as [C _]. apply negb_true_iff in C.
    assert (Hne : segs x <> []) by (intros E0; rewrite E0 in C; discriminate).
    change (String.concat "/" (segs x) ++ "/") with (String.concat "/" (segs x) ++ String "/" "").
    rewrite split_app_sep, split_concat by assumption.
    rewrite norm_segs_app, (norm_plain true (segs x)) by exact HP. simpl.
    rewrite ?app_nil_r, ?rev_involutive. reflexivity.
  - destruct (segs x) as [|z zs] eqn:Sx; [reflexivity|].
    rewrite <- Sx in *. rewrite split_concat by (assumption || (rewrite Sx; discriminate)).
    rewrite norm_plain by exact HP. reflexivity.
Qed.

End JoinFacts.

Module ZipFacts.
Import JoinFacts.

Lemma no_slash_app (a b : string) : no_slash (a ++ b) = no_slash a && no_slash b.
Proof. unfold no_slash. rewrite SplitFacts.list_ascii_app, forallb_app. reflexivity. Qed.

Lemma digit_not_slash (k : nat) : k < 10 -> Ascii.eqb (ascii_of_nat (48 + k)) "/" = false.
Proof.
  intros Hk. destruct (Ascii.eqb_spec (ascii_of_nat (48 + k)) "/") as [E|]; [|reflexivity].
  apply (f_equal nat_of_ascii) in E. rewrite nat_ascii_embedding in E by lia.
  vm_compute in E. lia.
Qed.

Lemma digits_noslash (fuel n : nat) (acc : string) :
  no_slash acc = true -> no_slash (JS.digits fuel n acc) = true.
Proof.
  revert n acc. induction fuel as [|fuel IH]; intros n acc Hacc; [exact Hacc|].
  cbn [JS.digits].
  assert (Hc : no_slash (String (ascii_of_nat (48 + n mod 10)) acc) = true).
  { unfold no_slash in *. cbn [list_ascii_of_string forallb].
    rewrite digit_not_slash by (apply Nat.mod_upper_bound; discriminate). exact Hacc. }
  destruct (n <? 10); [exact Hc|apply IH; exact Hc].
Qed.

Lemma substring_noslash (s : string) (i n : nat) :
  no_slash s = true -> no_slash (substring i n s) = true.
Proof.
  revert i n. induction s as [|c s IH]; intros i n Hs.
  - destruct i, n; reflexivity.
  - unfold no_slash in Hs. cbn [list_ascii_of_string forallb] in Hs.
    apply andb_true_iff in Hs as [Hc Hs].
    destruct i as [|i], n as [|n]; cbn [substring]; try reflexivity.
    + unfold no_slash. cbn [list_ascii_of_string forallb]. rewrite Hc. apply IH. exact Hs.
    + apply IH. exact Hs.
    + apply IH. exact Hs.
Qed.

Lemma last_nonempty_in (l : list string) (cur : string) :
  Path.last_nonempty l cur = cur \/ In (Path.last_nonempty l cur) l.
Proof.
  revert cur. induction l as [|x l IH]; intros cur; [left; reflexivity|]. simpl.
  destruct (IH (if x == "" then cur else x)) as [E|E]; [|right; right; exact E].
  rewrite E. destruct (x == ""); [left; reflexivity|right; left; reflexivity].
Qed.

Lemma last_nonempty_snoc (l : list string) (s cur : string) :
  (s == "") = false -> Path.last_nonempty (app l [s]) cur = s.
Proof.
  revert cur. induction l as [|x l IH]; intros cur Hs; simpl; [rewrite Hs; reflexivity|].
  apply IH. exact Hs.
Qed.

Lemma basename_noslash (p : string) : no_slash (Path.basename p) = true.
Proof.
  unfold Path.basename. destruct (last_nonempty_in (Path.split_on "/" p) "") as [E|E].
  - rewrite E. reflexivity.
  - exact (proj1 (Forall_forall _ _) (split_all_noslash p) _ E).
Qed.

Lemma extname_noslash (p : string) : no_slash (Path.extname p) = true.
Proof.
  unfold Path.extname. cbv zeta. destruct (Path.basename p == ".."); [reflexivity|].
  destruct (Path.last_dot 0 _ None) as [[|i]|]; try reflexivity.
  apply substring_noslash, basename_noslash.
Qed.

Lemma zip_filename_plain (f : file_part) (now : nat) : plain (zip_filename f now) = true.
Proof.
  unfold plain, zip_filename. cbv zeta.
  assert (HD : no_slash (JS.string_of_nat now) = true)
    by (apply digits_noslash; reflexivity).
  assert (HE : no_slash (if Path.extname (originalname f) == "" then ".zip"
                         else Path.extname (originalname f)) = true)
    by (destruct (_ == _); [reflexivity|apply extname_noslash]).
  rewrite !no_slash_app, HD, HE. reflexivity.
Qed.

Lemma join2 (a b : string) :
  (a == "") = false -> (b == "") = false -> Path.join [a; b] = Path.normalize (a ++ "/" ++ b).
Proof.
  intros Ha Hb. unfold Path.join. cbn [filter]. rewrite Ha, Hb. reflexivity.
Qed.

Lemma abs_nonempty (x : string) : Path.isAbsolute x = true -> (x == "") = false.
Proof. destruct x; [discriminate|reflexivity]. Qed.

Lemma normalize_abs_nonempty (x : string) :
  Path.isAbsolute x = true -> (Path.normalize x == "") = false.
Proof. intros H. rewrite normalize_abs_eq by exact H. reflexivity. Qed.

Lemma join_downloads (s : string) :
  plain s = true -> Path.join ["downloads"; s] = "downloads/" ++ s.
Proof.
  intros Hs. destruct (plain_parts s Hs) as (Es & _ & _ & Ns).
  assert (Hsn : s <> "") by (intros ->; discriminate).
  rewrite join2 by (reflexivity || exact Es).
  unfold Path.normalize.
  replace ("downloads" ++ "/" ++ s == "") with false by reflexivity.
  replace (Path.isAbsolute ("downloads" ++ "/" ++ s)) with false by reflexivity.
  cbv beta iota zeta.
  replace (JS.endsWith ("downloads" ++ "/" ++ s) "/") with false
    by (symmetry; apply (endsWith_noslash "downloads/"); assumption).
  change ("downloads" ++ "/" ++ s) with ("downloads" ++ String "/" s).
  rewrite split_app_sep, (split_noslash s) by exact Ns.
  rewrite norm_plain by (constructor; [reflexivity|constructor; [exact Hs|constructor]]).
  cbn [rev app String.concat]. rewrite andb_false_r. cbn [negb].
  replace ("downloads" ++ "/" ++ s == "") with false by reflexivity.
  reflexivity.
Qed.

Lemma downloads_abs (d s : string) :
  Path.isAbsolute d = true -> plain s = true ->
  Path.join [DOWNLOADS_DIR d; s] = "/" ++ String.concat "/" (app (segs (d ++ "/downloads")) [s]).
Proof.
  intros Hd Hs. destruct (plain_parts s Hs) as (Es & _).
  assert (Hx : Path.isAbsolute (d ++ "/downloads") = true) by (apply abs_app; exact Hd).
  unfold DOWNLOADS_DIR. rewrite (join2 d) by (reflexivity || apply abs_nonempty; exact Hd).
  change (d ++ "/" ++ "downloads") with (d ++ "/downloads").
  rewrite join2 by (exact Es || apply normalize_abs_nonempty; exact Hx).
  apply normalize_twice_snoc; assumption.
Qed.

Lemma toAbsolute_downloads (d s : string) :
  Path.isAbsolute d = true -> plain s = true ->
  toAbsolutePath d ("downloads/" ++ s) = Some (Path.join [DOWNLOADS_DIR d; s]).
Proof.
  intros Hd Hs. rewrite downloads_abs by assumption.
  assert (Hx : Path.isAbsolute (d ++ "/downloads") = true) by (apply abs_app; exact Hd).
  unfold toAbsolutePath.
  replace ("downloads/" ++ s == "") with false by reflexivity.
  replace (Path.isAbsolute ("downloads/" ++ s)) with false by reflexivity.
  change (strip_leading_sep ("downloads/" ++ s)) with ("downloads/" ++ s).
  rewrite join2 by (reflexivity || apply abs_nonempty; exact Hd).
  change (d ++ "/" ++ "downloads/" ++ s) with (d ++ ("/downloads" ++ "/" ++ s)).
  rewrite <- app_assoc_str. rewrite normalize_snoc by assumption. reflexivity.
Qed.

Lemma basename_downloads (d s : string) :
  Path.isAbsolute d = true -> plain s = true ->
  Path.basename (Path.join [DOWNLOADS_DIR d; s]) = s.
Proof.
  intros Hd Hs. destruct (plain_parts s Hs) as (Es & _).
  rewrite downloads_abs by assumption.
  pose proof (segs_plain (d ++ "/downloads")) as HP.
  unfold Path.basename. change ("/" ++ ?C) with (String "/" C). cbn [Path.split_on].
  rewrite split_concat.
  - cbn [Ascii.eqb Bool.eqb]. cbn [Path.last_nonempty]. apply last_nonempty_snoc. exact Es.
  - destruct (segs _); discriminate.
  - apply Forall_app. split.
    + eapply Forall_impl; [|exact HP]. intros a Ha. apply (plain_parts a Ha).
    + constructor; [apply (plain_parts s Hs)|constructor].
Qed.

Lemma file_exists_In (w : world) (p : string) : file_exists w p = true <-> In p (files w).
Proof.
  unfold file_exists. rewrite existsb_exists. split.
  - intros [x [Hx E]]. apply String.eqb_eq in E. subst x. exact Hx.
  - intros Hp. exists p. split; [exact Hp|apply String.eqb_refl].
Qed.

End ZipFacts.

(** An admin uploads an archive and then asks for [GET /download]. The
    upload is answered with a redirect to [/admin] and stores the relative
    path [downloads/<name>]. The download then sends the file just written,
    under its generated name and with [Cache-Control: no-store]. The one
    exception is when the previous setting resolves to that same file (two
    uploads with the same name in one millisecond): the handler unlinks the
    new file and the download redirects to [/]. *)
Theorem zip_upload_then_download `{Bcrypt} (dirname : string) (w : world) (f : file_part)
  (now : nat) (u : session_user) (url1 url2 : string)
  (Hd : Path.isAbsolute dirname = true) (Hf : zip_filter f = true)
  (Hu : sess_user (sess w) = Some u) (Ha : su_isAdmin u = true)
  (Hs : static_layer dirname
          (fst (app_step dirname w (mkRequest url1 (PostUploadZip (FilePart f) now))))
          (mkRequest url2 GetDownload) = None) :
  let w1 := fst (app_step dirname w (mkRequest url1 (PostUploadZip (FilePart f) now))) in
  let fn := zip_filename f now in
  let newAbs := Path.join [DOWNLOADS_DIR dirname; fn] in
  let prev := getSetting (settings w) "cheat_zip_path" DEFAULT_ZIP_PATH in
  snd (app_step dirname w (mkRequest url1 (PostUploadZip (FilePart f) now))) = Redirect "/admin"
  /\ select_setting (settings w1) "cheat_zip_path" = Some ("downloads/" ++ fn)
  /\ (deleted_path dirname prev "downloads" <> Some newAbs ->
      snd (app_step dirname w1 (mkRequest url2 GetDownload)) = Download newAbs fn "no-store")
  /\ (deleted_path dirname prev "downloads" = Some newAbs ->
      snd (app_step dirname w1 (mkRequest url2 GetDownload)) = Redirect "/").
Proof.
  intros w1 fn newAbs prev.
  pose proof (ZipFacts.zip_filename_plain f now) as Hp. fold fn in Hp.
  destruct (JoinFacts.plain_parts fn Hp) as (Efn & _).
  set (w0 := set_flash_field w None).
  set (W := delete_previous dirname (write_file w0 newAbs) prev "downloads").
  assert (E1 : app_step dirname w (mkRequest url1 (PostUploadZip (FilePart f) now))
               = (setFlash (set_settings W (setSetting (settings W) "cheat_zip_path"
                                             (Path.join ["downloads"; fn])))
                           "success" msg_zip_updated, Redirect "/admin")).
  { unfold app_step. cbn [static_layer rroute is_get negb].
    unfold flash_middleware. cbn [route_handle rroute].
    unfold requireAdmin. cbn [set_flash_field set_sess sess sess_user].
    rewrite Hu, Ha. cbn [gated]. unfold upload_zip. rewrite Hf. reflexivity. }
  fold w1 in Hs. unfold w1 in *. rewrite E1 in *. cbn [fst snd] in *.
  rewrite ZipFacts.join_downloads in * by exact Hp.
  split; [reflexivity|].
  split; [cbn [setFlash set_flash_field set_sess set_settings settings];
          unfold setSetting; exact (select_upsert _ _ _)|].
  assert (E2 : forall r : response,
     (file_exists W newAbs = true -> r = Download newAbs fn "no-store") ->
     (file_exists W newAbs = false -> r = Redirect "/") ->
     snd (app_step dirname (setFlash (set_settings W (setSetting (settings W) "cheat_zip_path"
                                ("downloads/" ++ fn))) "success" msg_zip_updated)
            (mkRequest url2 GetDownload)) = r).
  { intros r Ht Hfl. unfold app_step. rewrite Hs. unfold flash_middleware.
    cbn [route_handle rroute]. unfold requireAuth.
    cbn [set_flash_field setFlash set_settings set_sess sess sess_user].
    assert (Us : sess_user (sess W) = Some u).
    { unfold W. rewrite CaptchaFacts.delete_previous_sess. exact Hu. }
    rewrite Us. cbn [gated]. unfold get_download. cbv zeta.
    cbn [set_flash_field setFlash set_settings set_sess settings files].
    unfold getSetting at 1. unfold setSetting at 1.
    rewrite (select_upsert (settings W) "cheat_zip_path" ("downloads/" ++ fn)).
    rewrite ZipFacts.toAbsolute_downloads by assumption. fold newAbs.
    unfold file_exists at 1. cbn [files set_flash_field setFlash set_settings set_sess].
    change (existsb (fun f0 => f0 == newAbs) (files W)) with (file_exists W newAbs).
    destruct (file_exists W newAbs) eqn:Ex; cbn [negb snd].
    - replace (Path.basename newAbs) with fn
        by (symmetry; apply ZipFacts.basename_downloads; assumption).
      rewrite Efn.
      symmetry. apply Ht. reflexivity.
    - symmetry. apply Hfl. reflexivity. }
  assert (Hin : file_exists W newAbs = true <-> deleted_path dirname prev "downloads" <> Some newAbs).
  { rewrite ZipFacts.file_exists_In. unfold W. rewrite UploadFacts.delete_files, UploadFacts.write_files.
    tauto. }
  split.
  - intros Hn. apply E2; [reflexivity|]. intros C. apply Hin in Hn. congruence.
  - intros Hc. apply E2; [|reflexivity]. intros C. apply Hin in C. contradiction.
Qed.

Definition admin_su : session_user := mkSessionUser 1 "RURI" "" true.

(** The booted state with the admin logged in. *)
Definition admin_world : world := set_user boot_world (Some admin_su).

Definition zip_part : file_part := mkFilePart "Cheat.ZIP" "application/zip".

Definition upload_rq (now : nat) : request :=
  mkRequest "/admin/upload-zip" (PostUploadZip (FilePart zip_part) now).

Definition download_rq : request := mkRequest "/download" GetDownload.

Lemma zip_upload_then_download_witness :
  Path.isAbsolute app_dir = true /\ zip_filter zip_part = true
  /\ static_layer app_dir (fst (app_step app_dir admin_world (upload_rq 5))) download_rq = None
  /\ snd (app_step app_dir admin_world (upload_rq 5)) = Redirect "/admin"
  /\ select_setting (settings (fst (app_step app_dir admin_world (upload_rq 5)))) "cheat_zip_path"
     = Some ("downloads/" ++ zip_filename zip_part 5).
Proof.
  assert (Hd : Path.isAbsolute app_dir = true) by reflexivity.
  assert (Hf : zip_filter zip_part = true) by reflexivity.
  assert (Hs : static_layer app_dir (fst (app_step app_dir admin_world (upload_rq 5)))
                 download_rq = None) by (vm_compute; reflexivity).
  destruct (zip_upload_then_download app_dir admin_world zip_part 5 admin_su
              "/admin/upload-zip" "/download" Hd Hf eq_refl eq_refl Hs) as [E1 [E2 _]].
  split; [exact Hd|]. split; [exact Hf|]. split; [exact Hs|]. split; [exact E1|exact E2].
Defined.

(** Evaluated: the first upload's archive is served as [whitecore-5.ZIP];
    a second upload with the same name in the same millisecond unlinks the
    file it has just written, and the download reports it unavailable. *)
Example zip_download_collision :
  let w1 := fst (app_step app_dir admin_world (upload_rq 5)) in
  snd (app_step app_dir w1 download_rq)
    = Download "/app/downloads/whitecore-5.ZIP" "whitecore-5.ZIP" "no-store"
  /\ snd (app_step app_dir (fst (app_step app_dir w1 (upload_rq 5))) download_rq) = Redirect "/".
Proof. vm_compute. split; reflexivity. Qed.
